(** * push.js: pushing files to GitHub through the Contents API

    A shallow embedding of [push.js] and the properties of its
    configuration resolution, branch-ensure phase and per-file upload loop.

    Conventions of the embedding:
    - a JavaScript string is a [string] whose characters are the code units
      below 256;
    - a value that is a string, [null] or [undefined] is an [option string];
      [None] stands for both [null] and [undefined], which the script only
      ever tests for truthiness;
    - a parsed JSON body is a [json]; the result of a property access is a
      [jsval], with [None] for [undefined];
    - the file system, the git commands, the module loader and the remote
      API are fields of a [world]; the script is a function of the world;
    - what the script does to the outside is recorded in a [state]: the
      requests sent, in order, and the console lines, in order. *)

From Stdlib Require Import String Ascii List ZArith Lia Bool Arith SpecFloat.
Import ListNotations.
Open Scope string_scope.
Open Scope list_scope.
Open Scope nat_scope.

(* ================================================================== *)
(** ** JavaScript strings *)
(* ================================================================== *)

Module JsString.

(** White space and line terminators removed by [String.prototype.trim],
    among the code units below 256: TAB, LF, VT, FF, CR, SP, NBSP. *)
Definition is_white (c : ascii) : bool :=
  let n := nat_of_ascii c in
  ((9 <=? n) && (n <=? 13)) || (n =? 32) || (n =? 160).

Fixpoint trimStart (s : string) : string :=
  match s with
  | EmptyString => EmptyString
  | String c s' => if is_white c then trimStart s' else s
  end.

Fixpoint trimEnd (s : string) : string :=
  match s with
  | EmptyString => EmptyString
  | String c s' =>
      match trimEnd s' with
      | EmptyString => if is_white c then EmptyString else String c EmptyString
      | t => String c t
      end
  end.

Definition trim (s : string) : string := trimEnd (trimStart s).

(** [s.split(sep)] for a one-character separator: always at least one
    piece, empty pieces kept. *)
Fixpoint split (sep : ascii) (s : string) : list string :=
  match s with
  | EmptyString => [EmptyString]
  | String c s' =>
      if Ascii.eqb c sep then EmptyString :: split sep s'
      else match split sep s' with
           | [] => [String c EmptyString]
           | piece :: pieces => String c piece :: pieces
           end
  end.

(** [pieces.join(sep)] *)
Fixpoint join (sep : ascii) (pieces : list string) : string :=
  match pieces with
  | [] => EmptyString
  | [p] => p
  | p :: rest => (p ++ String sep (join sep rest))%string
  end.

Definition startsWith (s p : string) : bool := String.prefix p s.

(** Truthiness of a string: only the empty string is falsy. *)
Definition nonempty (s : string) : bool :=
  match s with EmptyString => false | _ => true end.

Definition first_char (s : string) : option ascii :=
  match s with EmptyString => None | String c _ => Some c end.

Fixpoint last_char (s : string) : option ascii :=
  match s with
  | EmptyString => None
  | String c EmptyString => Some c
  | String _ s' => last_char s'
  end.

Fixpoint count_char (c : ascii) (s : string) : nat :=
  match s with
  | EmptyString => 0
  | String d s' => (if Ascii.eqb d c then 1 else 0) + count_char c s'
  end.

(** The class [[\w-]] of the remote-URL pattern. *)
Definition is_word (c : ascii) : bool :=
  let n := nat_of_ascii c in
  ((48 <=? n) && (n <=? 57)) || ((65 <=? n) && (n <=? 90))
  || ((97 <=? n) && (n <=? 122)) || (n =? 95).

Definition is_word_or_dash (c : ascii) : bool := is_word c || (nat_of_ascii c =? 45).

(** The longest prefix made of [[\w-]] characters, and the rest. *)
Fixpoint span_word (s : string) : string * string :=
  match s with
  | EmptyString => (EmptyString, EmptyString)
  | String c s' =>
      if is_word_or_dash c
      then let '(w, r) := span_word s' in (String c w, r)
      else (EmptyString, s)
  end.

Fixpoint drop_prefix (p s : string) : option string :=
  match p, s with
  | EmptyString, _ => Some s
  | String a p', String b s' => if Ascii.eqb a b then drop_prefix p' s' else None
  | String _ _, EmptyString => None
  end.

(** [s.replace(/\.git$/, '')] *)
Fixpoint strip_dot_git (s : string) : string :=
  match s with
  | EmptyString => EmptyString
  | String c s' => if String.eqb s ".git" then EmptyString else String c (strip_dot_git s')
  end.

End JsString.

(* ================================================================== *)
(** ** JSON bodies and property access *)
(* ================================================================== *)

#[warnings="-register-all"]
Inductive json : Type :=
| JNull
| JBool (b : bool)
| JNum (x : spec_float)
| JStr (s : string)
| JArr (items : list json)
| JObj (fields : list (string * json)).

(** The result of evaluating an expression: a JSON value or [undefined]. *)
Definition jsval : Type := option json.

(** ToBoolean. *)
Definition truthy (v : jsval) : bool :=
  match v with
  | None => false
  | Some JNull => false
  | Some (JBool b) => b
  | Some (JNum (S754_zero _)) => false
  | Some (JNum S754_nan) => false
  | Some (JNum _) => true
  | Some (JStr s) => JsString.nonempty s
  | Some (JArr _) => true
  | Some (JObj _) => true
  end.

(** Own property [k] of an object literal; of two fields with one key the
    later one wins, as in [JSON.parse] and in assignment. *)
Fixpoint field (k : string) (fields : list (string * json)) : jsval :=
  match fields with
  | [] => None
  | (k', v) :: rest =>
      match field k rest with
      | Some v' => Some v'
      | None => if String.eqb k' k then Some v else None
      end
  end.

(** [v.k] for one of the keys the script reads ([message], [object], [sha],
    [ref], [content]): a [TypeError] on [null] (here [None]), [undefined] on
    the other primitives and on arrays, the field on an object. *)
Definition prop (v : json) (k : string) : option jsval :=
  match v with
  | JNull => None
  | JObj fields => Some (field k fields)
  | _ => Some None
  end.

(** [v?.k] where [v] is itself the result of a property access. *)
Definition opt_chain (v : jsval) (k : string) : jsval :=
  match v with
  | None => None
  | Some JNull => None
  | Some (JObj fields) => field k fields
  | Some _ => None
  end.

(** [v === s] for a string literal [s]. *)
Definition strict_eq_str (v : jsval) (s : string) : bool :=
  match v with
  | Some (JStr s') => String.eqb s' s
  | _ => false
  end.

(** [{...base, ...ext}] on string-valued objects: a key of [ext] already in
    [base] keeps its place and takes the new value, a new key is appended. *)
Fixpoint assign (base : list (string * string)) (k v : string) : list (string * string) :=
  match base with
  | [] => [(k, v)]
  | (k', v') :: rest =>
      if String.eqb k' k then (k', v) :: rest else (k', v') :: assign rest k v
  end.

Definition spread (base ext : list (string * string)) : list (string * string) :=
  fold_left (fun acc kv => assign acc (fst kv) (snd kv)) ext base.

(** Template-literal conversion of a string that may be [undefined]. *)
Definition tmpl (s : option string) : string :=
  match s with Some s' => s' | None => "undefined" end.

Definition truthy_str (s : option string) : bool :=
  match s with Some s' => JsString.nonempty s' | None => false end.

(** [a || b] *)
Definition or_else (a b : option string) : option string :=
  if truthy_str a then a else b.

(* ================================================================== *)
(** ** The world outside the script *)
(* ================================================================== *)

(** One request handed to [fetch]. [req_method] is [None] when the script
    passes no method (a GET). [req_body] is the object the script hands to
    [JSON.stringify], before serialisation. [req_agent] is the proxy agent,
    if one was built. *)
Record request : Type := {
  req_method : option string;
  req_url : string;
  req_headers : list (string * string);
  req_body : option json;
  req_agent : option string
}.

(** What [await response.json()] gives: the parsed body, or an exception
    (the transport failed, or the body was no JSON). *)
Inductive response : Type :=
| NetJson (body : json)
| NetThrow (message : string).

(** What is at a resolved path: nothing (also a dangling link or a path that
    cannot be reached), a directory, or anything else, with what
    [fs.readFileSync] does on it ([None]: it throws). The disk stays as it
    is for the length of a run, so that [fs.existsSync] and [fs.statSync]
    look at the same entry. *)
Inductive entry : Type :=
| Missing
| Directory
| File (bytes : option string).

Record world : Type := {
  argv : list string;                       (* process.argv.slice(2) *)
  env_GITHUB_TOKEN : option string;
  env_HTTPS_PROXY : option string;
  env_HTTP_PROXY : option string;
  (* execSync of a git command: its output, or None when it throws *)
  git_rev_parse : option string;            (* git rev-parse --abbrev-ref HEAD *)
  git_remote_get_url : option string;       (* git remote get-url origin *)
  git_ls_files : option string;             (* git ls-files *)
  path_resolve : string -> string;          (* path.resolve *)
  disk : string -> entry;
  base64 : string -> string;                (* Buffer.toString('base64') *)
  import_node_fetch : bool;                 (* import('node-fetch') succeeds *)
  (* import('https-proxy-agent') and new HttpsProxyAgent(url); None: throws *)
  https_proxy_agent : string -> option string;
  (* the answer to a request, given the requests sent before it *)
  remote : list request -> request -> response
}.

(** Console lines, by template and arguments. *)
Inductive line : Type :=
| Help
| ErrTokenRequired                      (* Error: GitHub token required... *)
| ErrNoRepository                       (* Error: Could not determine repository... *)
| ErrNoFiles                            (* Error: No files to push *)
| ErrBranchMissing (branch : string)    (* Error: Branch '..' does not exist... *)
| ErrNoMainBranch                       (* Error: Could not find main branch *)
| ErrCreateFailed (message : jsval)     (* Error: Failed to create branch: .. *)
| ErrTopLevel (message : string)        (* Error: .. , from main().catch *)
| WarnNoProxyAgent
(* Repository: .. / Branch: .. / Files: .. / Mode: DRY RUN (if dry) / blank *)
| Banner (repo branch : string) (nfiles : nat) (dry : bool)
(* Files that would be uploaded: / one line per file *)
| WouldUpload (files : list string)
| CreatingBranch (branch : string)
| CreatedBranch (branch : string)
| NotFoundSkipping (file : string)
| Uploaded (file : string)
| Rejected (file : string) (message : jsval)   (* the remote's message *)
| Raised (file : string) (message : string)    (* the exception's message *)
| Done (success failed skipped : nat)
| View (repo branch : string).

(** The requests sent and the lines printed so far, oldest first, and the
    three counters of [main]. *)
Record state : Type := {
  trace : list request;
  console : list line;
  success : nat;
  failed : nat;
  skipped : nat
}.

Definition init : state :=
  {| trace := []; console := []; success := 0; failed := 0; skipped := 0 |}.

(* ================================================================== *)
(** ** Control: exceptions and process.exit over the state *)
(* ================================================================== *)

(** How a piece of the script ends: normally, by an exception, or by
    [process.exit]. The state survives all three. *)
Inductive res (A : Type) : Type :=
| Ret (a : A)
| Throw (message : string)
| Exit (code : Z).

Arguments Ret {A} a.
Arguments Throw {A} message.
Arguments Exit {A} code.

Definition M (A : Type) : Type := state -> res A * state.

Definition ret {A} (a : A) : M A := fun st => (Ret a, st).

Definition bind {A B} (m : M A) (k : A -> M B) : M B :=
  fun st =>
    match m st with
    | (Ret a, st') => k a st'
    | (Throw e, st') => (Throw e, st')
    | (Exit c, st') => (Exit c, st')
    end.

Definition throw {A} (message : string) : M A := fun st => (Throw message, st).

Definition process_exit {A} (code : Z) : M A := fun st => (Exit code, st).

(** [try { body } catch (err) { handler }]: [process.exit] is not caught. *)
Definition try_catch {A} (body : M A) (handler : string -> M A) : M A :=
  fun st =>
    match body st with
    | (Throw e, st') => handler e st'
    | other => other
    end.

Declare Scope js_scope.
Delimit Scope js_scope with js.
Notation "x <- m ;; k" := (bind m (fun x => k))
  (at level 61, m at next level, right associativity) : js_scope.
Notation "m ;; k" := (bind m (fun _ => k))
  (at level 61, right associativity) : js_scope.
Open Scope js_scope.

(** [if (c) { m }] *)
Definition when (c : bool) (m : M unit) : M unit := if c then m else ret tt.

(** The state after one more request, one more console line. *)
Definition add_request (r : request) (st : state) : state :=
  {| trace := trace st ++ [r]; console := console st;
     success := success st; failed := failed st; skipped := skipped st |}.

Definition add_line (l : line) (st : state) : state :=
  {| trace := trace st; console := console st ++ [l];
     success := success st; failed := failed st; skipped := skipped st |}.

Definition console_log (l : line) : M unit := fun st => (Ret tt, add_line l st).

Definition set_counters (s f k : nat) : M unit :=
  fun st => (Ret tt, {| trace := trace st; console := console st;
                        success := s; failed := f; skipped := k |}).

(** [success++], [failed++], [skipped++] *)
Definition count_success (st : state) : state :=
  {| trace := trace st; console := console st;
     success := S (success st); failed := failed st; skipped := skipped st |}.

Definition count_failed (st : state) : state :=
  {| trace := trace st; console := console st;
     success := success st; failed := S (failed st); skipped := skipped st |}.

Definition count_skipped (st : state) : state :=
  {| trace := trace st; console := console st;
     success := success st; failed := failed st; skipped := S (skipped st) |}.

Definition incr_success : M unit := fun st => (Ret tt, count_success st).
Definition incr_failed : M unit := fun st => (Ret tt, count_failed st).
Definition incr_skipped : M unit := fun st => (Ret tt, count_skipped st).

Definition get_counters : M (nat * nat * nat) :=
  fun st => (Ret (success st, failed st, skipped st), st).

(** Property access inside the script: a [TypeError] on [null]. *)
Definition get_prop (v : json) (k : string) : M jsval :=
  match prop v k with
  | Some x => ret x
  | None => throw ("Cannot read properties of null (reading '" ++ k ++ "')")%string
  end.

(** [for (const x of xs) { body }] *)
Fixpoint for_of {A} (xs : list A) (body : A -> M unit) : M unit :=
  match xs with
  | [] => ret tt
  | x :: rest => body x ;; for_of rest body
  end.

(* ================================================================== *)
(** ** parseArgs *)
(* ================================================================== *)

Record options : Type := {
  branch : option string;
  repo : option string;
  token : option string;
  files : option (list string);
  message : option string;
  create : bool;
  dryRun : bool;
  help : bool;
  proxy : option string
}.

Definition with_branch (o : options) (v : option string) : options :=
  {| branch := v; repo := repo o; token := token o; files := files o;
     message := message o; create := create o; dryRun := dryRun o;
     help := help o; proxy := proxy o |}.

Definition with_repo (o : options) (v : option string) : options :=
  {| branch := branch o; repo := v; token := token o; files := files o;
     message := message o; create := create o; dryRun := dryRun o;
     help := help o; proxy := proxy o |}.

Definition with_token (o : options) (v : option string) : options :=
  {| branch := branch o; repo := repo o; token := v; files := files o;
     message := message o; create := create o; dryRun := dryRun o;
     help := help o; proxy := proxy o |}.

Definition with_files (o : options) (v : option (list string)) : options :=
  {| branch := branch o; repo := repo o; token := token o; files := v;
     message := message o; create := create o; dryRun := dryRun o;
     help := help o; proxy := proxy o |}.

Definition with_message (o : options) (v : option string) : options :=
  {| branch := branch o; repo := repo o; token := token o; files := files o;
     message := v; create := create o; dryRun := dryRun o;
     help := help o; proxy := proxy o |}.

Definition with_create (o : options) (v : bool) : options :=
  {| branch := branch o; repo := repo o; token := token o; files := files o;
     message := message o; create := v; dryRun := dryRun o;
     help := help o; proxy := proxy o |}.

Definition with_dryRun (o : options) (v : bool) : options :=
  {| branch := branch o; repo := repo o; token := token o; files := files o;
     message := message o; create := create o; dryRun := v;
     help := help o; proxy := proxy o |}.

Definition with_help (o : options) (v : bool) : options :=
  {| branch := branch o; repo := repo o; token := token o; files := files o;
     message := message o; create := create o; dryRun := dryRun o;
     help := v; proxy := proxy o |}.

Definition with_proxy (o : options) (v : option string) : options :=
  {| branch := branch o; repo := repo o; token := token o; files := files o;
     message := message o; create := create o; dryRun := dryRun o;
     help := help o; proxy := v |}.

(** [next ? next.split(',').map(f => f.trim()) : null] *)
Definition files_of_arg (next : option string) : option (list string) :=
  if truthy_str next
  then Some (map JsString.trim (JsString.split "," (tmpl next)))
  else None.

Definition is_one_of (arg a b : string) : bool := String.eqb arg a || String.eqb arg b.

(** One turn of the [switch]: the options after it, and whether the turn
    also did [i++], that is, used up [next]. *)
Definition parse_arg (arg : string) (next : option string) (o : options)
  : options * bool :=
  if is_one_of arg "--branch" "-b" then (with_branch o next, true)
  else if is_one_of arg "--repo" "-r" then (with_repo o next, true)
  else if is_one_of arg "--token" "-t" then (with_token o next, true)
  else if is_one_of arg "--files" "-f" then (with_files o (files_of_arg next), true)
  else if is_one_of arg "--message" "-m" then (with_message o next, true)
  else if is_one_of arg "--proxy" "-p" then (with_proxy o next, true)
  else if String.eqb arg "--create" then (with_create o true, false)
  else if String.eqb arg "--no-create" then (with_create o false, false)
  else if String.eqb arg "--dry-run" then (with_dryRun o true, false)
  else if is_one_of arg "--help" "-h" then (with_help o true, false)
  else if negb (JsString.startsWith arg "-") && negb (truthy_str (branch o))
       then (with_branch o (Some arg), false)
       else (o, false).

(** The [for] loop over [args]; [next] is [args[i + 1]], [undefined] past
    the end. *)
Fixpoint parse_loop (args : list string) (o : options) : options :=
  match args with
  | [] => o
  | arg :: rest =>
      let '(o', used_next) := parse_arg arg (hd_error rest) o in
      if used_next
      then match rest with
           | [] => o'
           | _ :: rest' => parse_loop rest' o'
           end
      else parse_loop rest o'
  end.

Definition default_options (w : world) : options :=
  {| branch := None;
     repo := None;
     token := env_GITHUB_TOKEN w;
     files := None;
     message := Some "Update";
     create := true;
     dryRun := false;
     help := false;
     proxy := or_else (or_else (env_HTTPS_PROXY w) (env_HTTP_PROXY w))
                      (Some "http://127.0.0.1:3128") |}.

Definition parseArgs (w : world) : options := parse_loop (argv w) (default_options w).

(* ================================================================== *)
(** ** The git helpers *)
(* ================================================================== *)

Definition getGitBranch (w : world) : string :=
  match git_rev_parse w with
  | Some out => JsString.trim out
  | None => "main"
  end.

(** A match of [/github\.com[/:]([\w-]+)\/([\w-]+)/] that starts at the
    head of [s]: the two groups. Both groups are greedy and what follows the
    first is not in its class, so the match at a given start is unique. *)
Definition match_github_here (s : string) : option (string * string) :=
  match JsString.drop_prefix "github.com" s with
  | Some (String c r) =>
      if Ascii.eqb c "/" || Ascii.eqb c ":" then
        let '(owner, r1) := JsString.span_word r in
        match owner, r1 with
        | String _ _, String slash r2 =>
            if Ascii.eqb slash "/" then
              let '(name, _) := JsString.span_word r2 in
              if JsString.nonempty name then Some (owner, name) else None
            else None
        | _, _ => None
        end
      else None
  | _ => None
  end.

(** [url.match(...)]: the leftmost match. *)
Fixpoint match_github (url : string) : option (string * string) :=
  match match_github_here url with
  | Some groups => Some groups
  | None =>
      match url with
      | EmptyString => None
      | String _ url' => match_github url'
      end
  end.

Definition getGitRepo (w : world) : option string :=
  match git_remote_get_url w with
  | Some out =>
      match match_github (JsString.trim out) with
      | Some (owner, name) =>
          Some (owner ++ "/" ++ JsString.strip_dot_git name)%string
      | None => None
      end
  | None => None
  end.

Definition getTrackedFiles (w : world) : list string :=
  match git_ls_files w with
  | Some output =>
      filter (fun f => JsString.nonempty (JsString.trim f)
                       && negb (JsString.startsWith f ".git"))
             (JsString.split "010" output)
  | None => []
  end.

(* ================================================================== *)
(** ** createFetcher and api *)
(* ================================================================== *)

Record fetch_options : Type := {
  method : option string;
  headers : list (string * string);
  body : option json
}.

(** [api(endpoint)] with the default [fetchOptions = {}]. *)
Definition no_options : fetch_options :=
  {| method := None; headers := []; body := None |}.

(** [createFetcher(proxyUrl)], up to the proxy agent its closure holds. *)
Definition createFetcher (w : world) (proxyUrl : option string) : M (option string) :=
  if import_node_fetch w then
    if truthy_str proxyUrl then
      match https_proxy_agent w (tmpl proxyUrl) with
      | Some agent => ret (Some agent)
      | None => console_log WarnNoProxyAgent ;; ret None
      end
    else ret None
  else throw "Cannot find package 'node-fetch'".

(** [fetch(url, fetchOptions)] followed by [response.json()]: the request
    goes out, the remote answers on what it has seen so far. *)
Definition send (w : world) (req : request) : M response :=
  fun st => (Ret (remote w (trace st) req), add_request req st).

(** The function [createFetcher] returns, applied to [(url, options)]. *)
Definition fetcher (w : world) (agent : option string)
           (url : string) (options : fetch_options) : M response :=
  send w {| req_method := method options;
            req_url := url;
            req_headers := spread [("User-Agent", "github-push-script")]
                                  (headers options);
            req_body := body options;
            req_agent := agent |}.

Definition api_url (endpoint : string) : string :=
  if JsString.startsWith endpoint "http" then endpoint
  else ("https://api.github.com" ++ endpoint)%string.

Definition api_headers (token : option string) (fetchOptions : fetch_options)
  : list (string * string) :=
  spread [("Authorization", ("token " ++ tmpl token)%string);
          ("Accept", "application/vnd.github.v3+json")]
         (headers fetchOptions).

(** [api(endpoint, fetchOptions)] of [main], closed over the fetcher and
    the token; [response.json()] may throw. *)
Definition api (w : world) (agent : option string) (token : option string)
           (endpoint : string) (fetchOptions : fetch_options) : M json :=
  response <- fetcher w agent (api_url endpoint)
                {| method := method fetchOptions;
                   headers := api_headers token fetchOptions;
                   body := body fetchOptions |} ;;
  match response with
  | NetJson v => ret v
  | NetThrow e => throw e
  end.

(** An object literal as [JSON.stringify] sees it: a field whose value is
    [undefined] is left out. *)
Fixpoint object_of (fields : list (string * jsval)) : list (string * json) :=
  match fields with
  | [] => []
  | (k, Some v) :: rest => (k, v) :: object_of rest
  | (_, None) :: rest => object_of rest
  end.

Definition json_post (payload : list (string * json)) (verb : string) : fetch_options :=
  {| method := Some verb;
     headers := [("Content-Type", "application/json")];
     body := Some (JObj payload) |}.

(* ================================================================== *)
(** ** main: the upload loop *)
(* ================================================================== *)

Definition existsSync (w : world) (p : string) : bool :=
  match disk w p with Missing => false | _ => true end.

(** [fs.statSync(p).isDirectory()] *)
Definition statSync_isDirectory (w : world) (p : string) : M bool :=
  match disk w p with
  | Missing => throw "ENOENT: no such file or directory"
  | Directory => ret true
  | File _ => ret false
  end.

Definition readFileSync (w : world) (p : string) : M string :=
  match disk w p with
  | File (Some bytes) => ret bytes
  | File None => throw "EACCES: permission denied"
  | Directory => throw "EISDIR: illegal operation on a directory"
  | Missing => throw "ENOENT: no such file or directory"
  end.

Section Upload.

(** What the loop body reads from the enclosing [main]. *)
Variable w : world.
Variable agent : option string.       (* inside [fetcher] *)
Variable tok : option string.         (* [token] *)
Variable rep : string.                (* [repo] *)
Variable br : string.                 (* [branch] *)
Variable msg : option string.         (* [options.message] *)

Definition contents_get (file : string) : string :=
  ("/repos/" ++ rep ++ "/contents/" ++ file ++ "?ref=" ++ br)%string.

Definition contents_put (file : string) : string :=
  ("/repos/" ++ rep ++ "/contents/" ++ file)%string.

(** [body], after [if (existing.sha) body.sha = existing.sha]. *)
Definition put_body (file content : string) (sha : jsval) : list (string * json) :=
  [("message", JStr (tmpl msg ++ " " ++ file)%string);
   ("branch", JStr br);
   ("content", JStr (base64 w content))]
  ++ (if truthy sha then object_of [("sha", sha)] else []).

(** The [try] block of one iteration. *)
Definition upload_attempt (file fullPath : string) : M unit :=
  content <- readFileSync w fullPath ;;
  existing <- api w agent tok (contents_get file) no_options ;;
  sha <- get_prop existing "sha" ;;
  result <- api w agent tok (contents_put file)
              (json_post (put_body file content sha) "PUT") ;;
  confirmation <- get_prop result "content" ;;
  if truthy confirmation then
    console_log (Uploaded file) ;; incr_success
  else
    m <- get_prop result "message" ;;
    console_log (Rejected file m) ;; incr_failed.

(** One iteration of [for (const file of files)]. *)
Definition upload_file (file : string) : M unit :=
  let fullPath := path_resolve w file in
  if negb (existsSync w fullPath) then
    console_log (NotFoundSkipping file) ;; incr_skipped
  else
    isDirectory <- statSync_isDirectory w fullPath ;;
    if isDirectory then incr_skipped
    else
      try_catch (upload_attempt file fullPath)
                (fun err => console_log (Raised file err) ;; incr_failed).

End Upload.

(* ================================================================== *)
(** ** main *)
(* ================================================================== *)

(** [options.branch || getGitBranch()] *)
Definition resolve_branch (w : world) (o : options) : string :=
  tmpl (or_else (branch o) (Some (getGitBranch w))).

(** [options.repo || getGitRepo()] *)
Definition resolve_repo (w : world) (o : options) : option string :=
  or_else (repo o) (getGitRepo w).

(** [options.files || getTrackedFiles()]: an array is truthy, also when
    it is empty. *)
Definition resolve_files (w : world) (o : options) : list string :=
  match files o with
  | Some explicit => explicit
  | None => getTrackedFiles w
  end.

Definition ref_endpoint (rep br : string) : string :=
  ("/repos/" ++ rep ++ "/git/refs/heads/" ++ br)%string.

Definition refs_endpoint (rep : string) : string :=
  ("/repos/" ++ rep ++ "/git/refs")%string.

(** The block under [if (refResult.message === 'Not Found')]. *)
Definition create_branch (w : world) (agent tok : option string)
           (rep br : string) (o : options) : M unit :=
  when (negb (create o))
       (console_log (ErrBranchMissing br) ;; process_exit 1) ;;
  console_log (CreatingBranch br) ;;
  mainRef <- api w agent tok (ref_endpoint rep "main") no_options ;;
  object <- get_prop mainRef "object" ;;
  when (negb (truthy (opt_chain object "sha")))
       (console_log ErrNoMainBranch ;; process_exit 1) ;;
  createResult <- api w agent tok (refs_endpoint rep)
                    (json_post (object_of
                                  [("ref", Some (JStr ("refs/heads/" ++ br)%string));
                                   ("sha", opt_chain object "sha")])
                               "POST") ;;
  created <- get_prop createResult "ref" ;;
  when (negb (truthy created))
       (m <- get_prop createResult "message" ;;
        console_log (ErrCreateFailed m) ;; process_exit 1) ;;
  console_log (CreatedBranch br).

(** "Ensure branch exists" *)
Definition ensure_branch (w : world) (agent tok : option string)
           (rep br : string) (o : options) : M unit :=
  refResult <- api w agent tok (ref_endpoint rep br) no_options ;;
  m <- get_prop refResult "message" ;;
  when (strict_eq_str m "Not Found") (create_branch w agent tok rep br o).

(** "Upload files", and the two closing lines. *)
Definition upload_all (w : world) (agent tok : option string)
           (rep br : string) (o : options) (fs : list string) : M unit :=
  set_counters 0 0 0 ;;
  for_of fs (upload_file w agent tok rep br (message o)) ;;
  totals <- get_counters ;;
  let '(s, f, k) := totals in
  console_log (Done s f k) ;;
  console_log (View rep br).

Definition main (w : world) : M unit :=
  let o := parseArgs w in
  when (help o) (console_log Help ;; process_exit 0) ;;
  let br := resolve_branch w o in
  let rep := resolve_repo w o in
  let tok := token o in
  let fs := resolve_files w o in
  when (negb (truthy_str tok)) (console_log ErrTokenRequired ;; process_exit 1) ;;
  when (negb (truthy_str rep)) (console_log ErrNoRepository ;; process_exit 1) ;;
  when (length fs =? 0) (console_log ErrNoFiles ;; process_exit 1) ;;
  console_log (Banner (tmpl rep) br (length fs) (dryRun o)) ;;
  when (dryRun o) (console_log (WouldUpload fs) ;; process_exit 0) ;;
  agent <- createFetcher w (proxy o) ;;
  ensure_branch w agent tok (tmpl rep) br o ;;
  upload_all w agent tok (tmpl rep) br o fs.

(** The script as a whole: [main().catch(err => ... process.exit(1))]; a
    run that ends without [process.exit] has exit status 0. *)
Definition run (w : world) : Z * state :=
  match main w init with
  | (Ret _, st) => (0%Z, st)
  | (Exit code, st) => (code, st)
  | (Throw e, st) => (1%Z, add_line (ErrTopLevel e) st)
  end.

(* ================================================================== *)
(** ** Vocabulary of the statements *)
(* ================================================================== *)

(** The request [api(endpoint, fetchOptions)] hands to [fetch]. *)
Definition api_request (agent tok : option string) (endpoint : string)
           (fetchOptions : fetch_options) : request :=
  {| req_method := method fetchOptions;
     req_url := api_url endpoint;
     req_headers := spread [("User-Agent", "github-push-script")]
                           (api_headers tok fetchOptions);
     req_body := body fetchOptions;
     req_agent := agent |}.

(** The query for a file's state on the target branch, and the put-file
    request that follows it, as one iteration of the loop sends them. *)
Definition get_file_request (agent tok : option string) (rep br file : string)
  : request :=
  api_request agent tok (contents_get rep br file) no_options.

Definition put_file_request (w : world) (agent tok : option string)
           (rep br : string) (msg : option string)
           (file content : string) (sha : jsval) : request :=
  api_request agent tok (contents_put rep file)
              (json_post (put_body w br msg file content sha) "PUT").

(** The agent [createFetcher] ends up with when it does not throw. *)
Definition proxy_agent (w : world) (o : options) : option string :=
  if truthy_str (proxy o) then https_proxy_agent w (tmpl (proxy o)) else None.

(** A create-ref call: the only POST of the script. *)
Definition is_create_ref (r : request) : bool :=
  match req_method r with
  | Some verb => String.eqb verb "POST"
  | None => false
  end.

(** A field of the object a request carries as its body. *)
Definition body_field (k : string) (r : request) : jsval :=
  match req_body r with
  | Some (JObj payload) => field k payload
  | _ => None
  end.

(** The response carries confirmation content metadata: [result.content]
    evaluates, to a truthy value. *)
Definition confirms (result : json) : bool :=
  match prop result "content" with
  | Some c => truthy c
  | None => false
  end.

(** The commit the base-branch lookup yields: [mainRef.object?.sha] when the
    lookup answers, that expression evaluates and its value is truthy. *)
Definition base_commit (lookup : response) : jsval :=
  match lookup with
  | NetJson mainRef =>
      match prop mainRef "object" with
      | Some object =>
          if truthy (opt_chain object "sha") then opt_chain object "sha" else None
      | None => None
      end
  | NetThrow _ => None
  end.

(** The run gets as far as the remote: no help, token and repository
    resolved, files to push, no dry run, and [node-fetch] loads. *)
Definition reaches_remote (w : world) : bool :=
  let o := parseArgs w in
  negb (help o) && truthy_str (token o) && truthy_str (resolve_repo w o)
  && negb (length (resolve_files w o) =? 0) && negb (dryRun o)
  && import_node_fetch w.

(** The query of the target branch's ref, the first request of a run. *)
Definition ref_query (w : world) : request :=
  let o := parseArgs w in
  api_request (proxy_agent w o) (token o)
              (ref_endpoint (tmpl (resolve_repo w o)) (resolve_branch w o))
              no_options.

(** The lookup of the base branch, sent after [ref_query]. *)
Definition main_query (w : world) : request :=
  let o := parseArgs w in
  api_request (proxy_agent w o) (token o)
              (ref_endpoint (tmpl (resolve_repo w o)) "main") no_options.

(** The create-ref call for a commit [sha]. *)
Definition create_ref_request (w : world) (sha : jsval) : request :=
  let o := parseArgs w in
  api_request (proxy_agent w o) (token o)
              (refs_endpoint (tmpl (resolve_repo w o)))
              (json_post (object_of
                            [("ref", Some (JStr ("refs/heads/" ++ resolve_branch w o)%string));
                             ("sha", sha)])
                         "POST").

(** How many create-ref calls a run made. *)
Definition create_ref_calls (st : state) : nat :=
  length (filter is_create_ref (trace st)).

(** The target branch's ref query reports the branch absent. *)
Definition branch_absent (w : world) : bool :=
  match remote w [] (ref_query w) with
  | NetJson refResult =>
      match prop refResult "message" with
      | Some m => strict_eq_str m "Not Found"
      | None => false
      end
  | NetThrow _ => false
  end.

(** From [st] to [st'] exactly one of the three counters went up, by one. *)
Definition counted_once (st st' : state) : Prop :=
  (success st' = S (success st) /\ failed st' = failed st /\ skipped st' = skipped st)
  \/ (success st' = success st /\ failed st' = S (failed st) /\ skipped st' = skipped st)
  \/ (success st' = success st /\ failed st' = failed st /\ skipped st' = S (skipped st)).

Definition total (st : state) : nat := success st + failed st + skipped st.

(** No create-ref call among the requests. *)
Definition no_create_ref (reqs : list request) : bool :=
  forallb (fun r => negb (is_create_ref r)) reqs.

(** A string with no white space at either end. *)
Definition trimmed (s : string) : bool :=
  match JsString.first_char s, JsString.last_char s with
  | Some a, Some b => negb (JsString.is_white a) && negb (JsString.is_white b)
  | _, _ => true
  end.

Definition is_files_flag (arg : string) : bool := is_one_of arg "--files" "-f".

(** The options that take the argument after them. *)
Definition takes_value (arg : string) : bool :=
  is_one_of arg "--branch" "-b" || is_one_of arg "--repo" "-r"
  || is_one_of arg "--token" "-t" || is_one_of arg "--files" "-f"
  || is_one_of arg "--message" "-m" || is_one_of arg "--proxy" "-p".

(** The loop of [parseArgs], run over [args], stops at the end of [args]
    with every option that takes a value having found it there: what comes
    after [args] on the command line is then read from its first word on. *)
Fixpoint reads_whole (args : list string) : bool :=
  match args with
  | [] => true
  | arg :: rest =>
      if takes_value arg
      then match rest with
           | [] => false
           | _ :: rest' => reads_whole rest'
           end
      else reads_whole rest
  end.

(** The file list of the specification's sentence: the entries of the
    override, trimmed, the empty ones removed. *)
Definition spec_files_of_override (s : string) : list string :=
  filter JsString.nonempty (map JsString.trim (JsString.split "," s)).

(** The tracked files of the specification's sentence: every listed path but
    those inside the [.git/] directory. *)
Definition spec_tracked_files (output : string) : list string :=
  filter (fun f => JsString.nonempty (JsString.trim f)
                   && negb (JsString.startsWith f ".git/"))
         (JsString.split "010" output).

(* ================================================================== *)
(** ** Concrete worlds *)
(* ================================================================== *)

Module Scenario.

Definition nl : string := String "010" EmptyString.

(** A working copy with [a.txt], an unreadable [locked.txt] and a
    directory [src]; its own directory is [/work/]. *)
Definition the_disk (p : string) : entry :=
  if String.eqb p "/work/a.txt" then File (Some "hello")
  else if String.eqb p "/work/locked.txt" then File None
  else if String.eqb p "/work/src" then Directory
  else if String.eqb p "/work/" then Directory
  else Missing.

(** A remote, by what it answers. *)
Record server : Type := {
  branch_exists : bool;   (* the target branch's ref is there *)
  main_sha : jsval;       (* object.sha of the ref of main *)
  create_ok : bool;       (* a create-ref is accepted *)
  file_sha : jsval;       (* sha of the file on the target branch *)
  put_ok : bool;          (* a put-file is accepted *)
  contents_up : bool      (* the contents endpoint can be reached *)
}.

Definition not_found : json := JObj [("message", JStr "Not Found")].

Definition serve (s : server) (history : list request) (r : request) : response :=
  match req_method r with
  | None =>
      if JsString.startsWith (req_url r) "https://api.github.com/repos/octo/demo/git/refs/heads/main"
      then NetJson (JObj (("ref", JStr "refs/heads/main")
                          :: object_of [("object", Some (JObj (object_of [("sha", main_sha s)])))]))
      else if JsString.startsWith (req_url r) "https://api.github.com/repos/octo/demo/git/"
      then if branch_exists s
           then NetJson (JObj [("ref", JStr "refs/heads/feature");
                               ("object", JObj [("sha", JStr "f00d")])])
           else NetJson not_found
      else if contents_up s
      then match file_sha s with
           | Some v => NetJson (JObj [("name", JStr "a.txt"); ("sha", v)])
           | None => NetJson not_found
           end
      else NetThrow "connect ECONNREFUSED"
  | Some verb =>
      if String.eqb verb "POST"
      then if create_ok s
           then NetJson (JObj [("ref", JStr "refs/heads/feature")])
           else NetJson (JObj [("message", JStr "Reference already exists")])
      else if put_ok s
      then NetJson (JObj [("content", JObj [("name", JStr "a.txt")])])
      else NetJson (JObj [("message", JStr "a.txt does not match")])
  end.

Definition mk (args : list string) (tok : option string) (s : server) : world :=
  {| argv := args;
     env_GITHUB_TOKEN := tok;
     env_HTTPS_PROXY := None;
     env_HTTP_PROXY := None;
     git_rev_parse := Some ("feature" ++ nl)%string;
     git_remote_get_url := Some ("https://github.com/octo/demo.git" ++ nl)%string;
     git_ls_files := Some (".gitignore" ++ nl ++ "README.md" ++ nl ++ "a.txt" ++ nl)%string;
     path_resolve := fun f => ("/work/" ++ f)%string;
     disk := the_disk;
     base64 := fun _ => "aGVsbG8=";
     import_node_fetch := true;
     https_proxy_agent := fun url => Some url;
     remote := serve s |}.

(** The branch is there, the file is not, the remote accepts. *)
Definition fresh : server :=
  {| branch_exists := true; main_sha := Some (JStr "c0ffee"); create_ok := true;
     file_sha := None; put_ok := true; contents_up := true |}.

(** The file is there already and the remote turns the update down. *)
Definition stale : server :=
  {| branch_exists := true; main_sha := Some (JStr "c0ffee"); create_ok := true;
     file_sha := Some (JStr "0a1b2c"); put_ok := false; contents_up := true |}.

(** The contents endpoint cannot be reached. *)
Definition unreachable : server :=
  {| branch_exists := true; main_sha := Some (JStr "c0ffee"); create_ok := true;
     file_sha := None; put_ok := true; contents_up := false |}.

(** The target branch is not there yet. *)
Definition branchless : server :=
  {| branch_exists := false; main_sha := Some (JStr "c0ffee"); create_ok := true;
     file_sha := None; put_ok := true; contents_up := true |}.

(** Neither the target branch nor main is there. *)
Definition empty_repo : server :=
  {| branch_exists := false; main_sha := None; create_ok := true;
     file_sha := None; put_ok := true; contents_up := true |}.

Definition tok : option string := Some "ghp_example".

(** What the loop body of these runs reads from [main]. *)
Definition agent : option string := Some "http://127.0.0.1:3128".
Definition rep : string := "octo/demo".
Definition br : string := "feature".
Definition msg : option string := Some "Update".

(** What [fresh] answers to a put-file, what [stale] answers. *)
Definition accepted : json := JObj [("content", JObj [("name", JStr "a.txt")])].
Definition refused : json := JObj [("message", JStr "a.txt does not match")].
Definition on_remote : json := JObj [("name", JStr "a.txt"); ("sha", JStr "0a1b2c")].

(** [node push.js --files a.txt,missing.txt] *)
Definition end_to_end : world := mk ["--files"; "a.txt,missing.txt"] tok fresh.

(** [node push.js --files a.txt,src,locked.txt] against [stale] *)
Definition update_rejected : world := mk ["--files"; "a.txt,src,locked.txt"] tok stale.

Definition offline : world := mk ["--files"; "a.txt"] tok unreachable.

(** [node push.js --dry-run --files a.txt], with and without a token *)
Definition dry_run : world := mk ["--dry-run"; "--files"; "a.txt"] tok fresh.
Definition dry_run_no_token : world := mk ["--dry-run"; "--files"; "a.txt"] None fresh.

(** [node push.js --help], no token in the environment *)
Definition help_no_token : world := mk ["--help"] None fresh.

Definition no_token : world := mk [] None fresh.

Definition no_create : world := mk ["--no-create"; "-f"; "a.txt"] tok branchless.

Definition create_from_main : world := mk ["-f"; "a.txt"] tok branchless.

Definition no_main : world := mk ["-f"; "a.txt"] tok empty_repo.

(** [node push.js --files "a.txt,,b.txt"] *)
Definition empty_entry : world := mk ["--files"; "a.txt,,b.txt"] tok fresh.

Definition spaced : world :=
  mk ["-b"; "feature"; "--files"; " a.txt , src/b.txt"; "--no-create"] tok fresh.

(** No [--files]: the tracked files, [.gitignore] among them. *)
Definition tracked : world := mk [] tok fresh.

End Scenario.

(* ================================================================== *)
(** ** Vocabulary of the further properties *)
(* ================================================================== *)

Definition is_branch_flag (arg : string) : bool := is_one_of arg "--branch" "-b".
Definition is_repo_flag (arg : string) : bool := is_one_of arg "--repo" "-r".
Definition is_token_flag (arg : string) : bool := is_one_of arg "--token" "-t".
Definition is_message_flag (arg : string) : bool := is_one_of arg "--message" "-m".
Definition is_proxy_flag (arg : string) : bool := is_one_of arg "--proxy" "-p".
Definition is_help_flag (arg : string) : bool := is_one_of arg "--help" "-h".

(** None of the words is one of the given options. *)
Definition none_of (flag : string -> bool) (args : list string) : bool :=
  forallb (fun a => negb (flag a)) args.

(** The words the [switch] of [parseArgs] has a [case] for. *)
Definition known_option (arg : string) : bool :=
  takes_value arg || String.eqb arg "--create" || String.eqb arg "--no-create"
  || String.eqb arg "--dry-run" || is_help_flag arg.

(** What the upload loop makes of a path, by what is on disk there. *)
Definition is_absent_or_directory (e : entry) : bool :=
  match e with Missing | Directory => true | File _ => false end.

Definition is_unreadable (e : entry) : bool :=
  match e with File None => true | _ => false end.

Definition is_readable (e : entry) : bool :=
  match e with File (Some _) => true | _ => false end.

(** How many of the files are of a kind. *)
Definition count_files (kind : entry -> bool) (w : world) (fs : list string) : nat :=
  length (filter (fun f => kind (disk w (path_resolve w f))) fs).

(** A put-file call: the only PUT of the script. *)
Definition is_put_file (r : request) : bool :=
  match req_method r with
  | Some verb => String.eqb verb "PUT"
  | None => false
  end.

Definition put_file_calls (st : state) : nat :=
  length (filter is_put_file (trace st)).

(** The requests one iteration of the loop may send for a file: none for a
    path that is no readable file; the query, or the query and then the
    put-file with the file's content, for a readable one. *)
Definition own_requests (w : world) (agent tok : option string) (rep br : string)
           (msg : option string) (file : string) (rs : list request) : Prop :=
  match disk w (path_resolve w file) with
  | File (Some content) =>
      rs = [get_file_request agent tok rep br file]
      \/ exists sha,
          rs = [get_file_request agent tok rep br file;
                put_file_request w agent tok rep br msg file content sha]
  | _ => rs = []
  end.

(** The requests of the whole loop: those of each file, in the order of the
    files. *)
Inductive file_requests (w : world) (agent tok : option string) (rep br : string)
          (msg : option string) : list string -> list request -> Prop :=
| no_more_files : file_requests w agent tok rep br msg [] []
| next_file file fs rs reqs :
    own_requests w agent tok rep br msg file rs ->
    file_requests w agent tok rep br msg fs reqs ->
    file_requests w agent tok rep br msg (file :: fs) (rs ++ reqs).

(** A header of a request. *)
Fixpoint header (k : string) (hs : list (string * string)) : option string :=
  match hs with
  | [] => None
  | (k', v) :: rest => if String.eqb k' k then Some v else header k rest
  end.

(** A request as every call of [api] in [main] makes it: through the run's
    agent, to the repository's part of the GitHub API, with the token, the
    accept header and the user agent. *)
Definition conforms (agent tok : option string) (rep : string) (r : request) : Prop :=
  req_agent r = agent
  /\ JsString.startsWith (req_url r) ("https://api.github.com/repos/" ++ rep ++ "/")%string
     = true
  /\ header "Authorization" (req_headers r) = Some ("token " ++ tmpl tok)%string
  /\ header "Accept" (req_headers r) = Some "application/vnd.github.v3+json"
  /\ header "User-Agent" (req_headers r) = Some "github-push-script".

(** A request that reads carries no body; one that writes names the target
    branch, as [branch] (put-file) or as [ref] (create-ref). *)
Definition aims_at (br : string) (r : request) : Prop :=
  match req_method r with
  | None => req_body r = None
  | Some _ =>
      body_field "branch" r = Some (JStr br)
      \/ body_field "ref" r = Some (JStr ("refs/heads/" ++ br)%string)
  end.

(** The answer to a create-ref call says the ref is there: [createResult.ref]
    evaluates, to a truthy value. *)
Definition create_accepted (answer : response) : bool :=
  match answer with
  | NetJson createResult =>
      match prop createResult "ref" with
      | Some created => truthy created
      | None => false
      end
  | NetThrow _ => false
  end.

(** The last two console lines are the summary and the link. *)
Definition summary_printed (st : state) : Prop :=
  exists pre rep br,
    console st = pre ++ [Done (success st) (failed st) (skipped st); View rep br].

(** What the branch-ensure phase may send after the ref query: nothing,
    the lookup of main, or the lookup and then the create-ref call. *)
Definition branch_requests (w : world) (bp : list request) : Prop :=
  bp = []
  \/ bp = [main_query w]
  \/ exists sha, bp = [main_query w; create_ref_request w (Some sha)].

(** A string made of characters of the class [[\w-]] only. *)
Fixpoint all_word (s : string) : bool :=
  match s with
  | EmptyString => true
  | String c s' => JsString.is_word_or_dash c && all_word s'
  end.

(** A string whose first character is of the class [[\w-]]. *)
Definition starts_with_word (s : string) : bool :=
  match s with
  | EmptyString => false
  | String c _ => JsString.is_word_or_dash c
  end.

(** The pattern of [getGitRepo] stands at the head of [s]: [github.com], a
    [/] or [:], one or more characters of the class [[\w-]], a [/], and one
    or more characters of that class again. *)
Definition pattern_at (s : string) : Prop :=
  exists sep owner name tail,
    s = ("github.com" ++ String sep (owner ++ String "/" (name ++ tail)))%string
    /\ (sep = "/"%char \/ sep = ":"%char)
    /\ all_word owner = true /\ owner <> EmptyString
    /\ all_word name = true /\ name <> EmptyString.

(** What [git ls-files] prints for a list of paths: each on a line of its
    own, the last line ended too. *)
Fixpoint listing (names : list string) : string :=
  match names with
  | [] => EmptyString
  | name :: rest => (name ++ String "010" (listing rest))%string
  end.

(** The test of the filter in [getTrackedFiles]. *)
Definition kept_by_default (f : string) : bool :=
  JsString.nonempty (JsString.trim f) && negb (JsString.startsWith f ".git").

(** A path with no line feed in it. *)
Definition one_line (s : string) : bool := JsString.count_char "010" s =? 0.

(** A piece of the script that only adds to the console: what was printed
    before it is still there after it, at the head. *)
Definition only_prints {A} (m : M A) : Prop :=
  forall st, exists ls, console (snd (m st)) = console st ++ ls.

(** The words that turn branch creation off, the dry run on. *)
Definition is_no_create (arg : string) : bool := String.eqb arg "--no-create".
Definition is_dry_run (arg : string) : bool := String.eqb arg "--dry-run".

(* ================================================================== *)
(** ** More concrete worlds *)
(* ================================================================== *)

Module MoreScenario.

Import Scenario.

(** A world, with another environment for the proxy, another module loader
    and another remote. *)
Definition rebuilt (w : world) (https http : option string) (fetch : bool)
           (agent_of : string -> option string)
           (answers : list request -> request -> response) : world :=
  {| argv := argv w;
     env_GITHUB_TOKEN := env_GITHUB_TOKEN w;
     env_HTTPS_PROXY := https;
     env_HTTP_PROXY := http;
     git_rev_parse := git_rev_parse w;
     git_remote_get_url := git_remote_get_url w;
     git_ls_files := git_ls_files w;
     path_resolve := path_resolve w;
     disk := disk w;
     base64 := base64 w;
     import_node_fetch := fetch;
     https_proxy_agent := agent_of;
     remote := answers |}.

(** [node push.js -b x --token abc --dry-run], with a token in the
    environment too *)
Definition overriding : world := mk ["-b"; "x"; "--token"; "abc"; "--dry-run"] tok fresh.

(** [node push.js --files a.txt --token] *)
Definition dangling : world := mk ["--files"; "a.txt"; "--token"] tok fresh.

(** [node push.js stray -b main other] *)
Definition branch_and_words : world := mk ["stray"; "-b"; "main"; "other"] tok fresh.

(** [node push.js --dry-run feature/x second] *)
Definition bare_word : world := mk ["--dry-run"; "feature/x"; "second"] tok fresh.

(** [HTTP_PROXY] set, [HTTPS_PROXY] not *)
Definition behind_proxy : world :=
  rebuilt tracked None (Some "http://proxy.corp:8080") true (fun url => Some url)
          (serve fresh).

(** [node push.js --files "" --dry-run] and [node push.js -b x --files] *)
Definition empty_override : world := mk ["--files"; ""; "--dry-run"] tok fresh.
Definition dangling_files : world := mk ["-b"; "x"; "--files"] tok fresh.

(** [node push.js --files a.txt -h --dry-run], no token *)
Definition help_in_the_middle : world :=
  mk ["--files"; "a.txt"; "-h"; "--dry-run"] None fresh.

(** [node push.js -b x --dry-run --files a.txt] *)
Definition dry_run_in_the_middle : world :=
  mk ["-b"; "x"; "--dry-run"; "--files"; "a.txt"] tok fresh.

(** [node-fetch] is not installed *)
Definition no_node_fetch : world :=
  rebuilt end_to_end None None false (fun url => Some url) (serve fresh).

(** [https-proxy-agent] is not installed *)
Definition no_proxy_agent : world :=
  rebuilt end_to_end None None true (fun _ => None) (serve fresh).

(** The remote cannot be reached at all *)
Definition cut_off : world :=
  rebuilt end_to_end None None true (fun url => Some url)
          (fun _ _ => NetThrow "connect ETIMEDOUT").

(** The target branch is not there and the remote turns the new ref down *)
Definition ref_refused : world :=
  mk ["-f"; "a.txt"] tok
     {| branch_exists := false; main_sha := Some (JStr "c0ffee"); create_ok := false;
        file_sha := None; put_ok := true; contents_up := true |}.

(** [node push.js --files ","], the target branch not there yet *)
Definition only_commas : world := mk ["--files"; ","] tok branchless.

(** No [--files], and a blank line in what [git ls-files] prints *)
Definition blank_line : world :=
  {| argv := [];
     env_GITHUB_TOKEN := tok;
     env_HTTPS_PROXY := None;
     env_HTTP_PROXY := None;
     git_rev_parse := git_rev_parse tracked;
     git_remote_get_url := git_remote_get_url tracked;
     git_ls_files := Some ("a.txt" ++ nl ++ nl ++ "b.txt" ++ nl)%string;
     path_resolve := path_resolve tracked;
     disk := disk tracked;
     base64 := base64 tracked;
     import_node_fetch := true;
     https_proxy_agent := fun url => Some url;
     remote := serve fresh |}.

End MoreScenario.

(* ================================================================== *)
(** ** Strings: split, join and trim *)
(* ================================================================== *)

Module JsStringFacts.
Import JsString.

Lemma split_cons sep s : exists piece pieces, split sep s = piece :: pieces.
Proof.
  induction s as [| c s' [piece [pieces IH]]].
  - exists EmptyString, []. reflexivity.
  - cbn [split]. destruct (Ascii.eqb c sep).
    + eexists; eexists. reflexivity.
    + rewrite IH. eexists; eexists. reflexivity.
Qed.

Lemma join_cons_cons sep p q rest :
  join sep (p :: q :: rest) = (p ++ String sep (join sep (q :: rest)))%string.
Proof. reflexivity. Qed.

Lemma join_String sep c piece pieces :
  join sep (String c piece :: pieces) = String c (join sep (piece :: pieces)).
Proof. destruct pieces; reflexivity. Qed.

(** Splitting loses nothing: the pieces, joined again, are the string. *)
Lemma join_split sep s : join sep (split sep s) = s.
Proof.
  induction s as [| c s' IH].
  - reflexivity.
  - cbn [split]. destruct (Ascii.eqb_spec c sep) as [-> | Hne].
    + destruct (split_cons sep s') as [piece [pieces Hs]].
      rewrite Hs in *. rewrite join_cons_cons, IH. reflexivity.
    + destruct (split_cons sep s') as [piece [pieces Hs]].
      rewrite Hs in *. rewrite join_String, IH. reflexivity.
Qed.

(** One piece more than there are separators. *)
Lemma length_split sep s : length (split sep s) = S (count_char sep s).
Proof.
  induction s as [| c s' IH].
  - reflexivity.
  - cbn [split count_char]. destruct (Ascii.eqb c sep).
    + cbn [length]. rewrite IH. reflexivity.
    + destruct (split_cons sep s') as [piece [pieces Hs]].
      rewrite Hs in *. cbn [length] in *. rewrite IH. reflexivity.
Qed.

Lemma trimStart_first s c :
  first_char (trimStart s) = Some c -> is_white c = false.
Proof.
  induction s as [| d s' IH]; cbn [trimStart].
  - discriminate.
  - destruct (is_white d) eqn:Hd.
    + exact IH.
    + cbn. intros H. injection H as <-. exact Hd.
Qed.

Lemma trimEnd_last s c :
  last_char (trimEnd s) = Some c -> is_white c = false.
Proof.
  induction s as [| d s' IH]; cbn [trimEnd].
  - discriminate.
  - destruct (trimEnd s') as [| e t] eqn:Ht.
    + destruct (is_white d) eqn:Hd.
      * discriminate.
      * cbn. intros H. injection H as <-. exact Hd.
    + intros H. apply IH. exact H.
Qed.

Lemma trimEnd_first s c :
  first_char s = Some c -> is_white c = false ->
  first_char (trimEnd s) = Some c.
Proof.
  destruct s as [| d s']; cbn [first_char trimEnd].
  - discriminate.
  - intros H Hc. injection H as ->.
    destruct (trimEnd s'); [rewrite Hc |]; reflexivity.
Qed.

(** What [trim] returns has no white space at either end. *)
Lemma trimmed_trim s : trimmed (trim s) = true.
Proof.
  unfold trimmed, trim.
  destruct (first_char (trimEnd (trimStart s))) as [a |] eqn:Ha; [| reflexivity].
  destruct (last_char (trimEnd (trimStart s))) as [b |] eqn:Hb; [| reflexivity].
  rewrite (trimEnd_last _ _ Hb).
  destruct (first_char (trimStart s)) as [a' |] eqn:Ha'.
  - pose proof (trimStart_first _ _ Ha') as Hw.
    rewrite (trimEnd_first _ _ Ha' Hw) in Ha. injection Ha as <-.
    rewrite Hw. reflexivity.
  - destruct (trimStart s); [discriminate Ha | discriminate Ha'].
Qed.

End JsStringFacts.

(* ================================================================== *)
(** ** parseArgs and the file list *)
(* ================================================================== *)

(** A turn of the switch on anything but [--files] and [-f] leaves
    [options.files] alone. *)
Lemma parse_arg_keeps_files arg next o :
  is_files_flag arg = false ->
  files (fst (parse_arg arg next o)) = files o.
Proof.
  unfold is_files_flag. intros H. unfold parse_arg. rewrite H.
  repeat match goal with
         | |- context [if ?c then _ else _] => destruct c
         end; reflexivity.
Qed.

Lemma parse_loop_keeps_files n :
  forall args o,
    length args <= n ->
    forallb (fun a => negb (is_files_flag a)) args = true ->
    files (parse_loop args o) = files o.
Proof.
  induction n as [| n IH]; intros args o Hlen Hnone.
  - destruct args; [reflexivity | cbn in Hlen; lia].
  - destruct args as [| arg rest]; [reflexivity |].
    cbn [forallb] in Hnone. apply andb_prop in Hnone. destruct Hnone as [Harg Hrest].
    apply negb_true_iff in Harg.
    cbn [parse_loop length] in *.
    pose proof (parse_arg_keeps_files arg (hd_error rest) o Harg) as Hkeep.
    destruct (parse_arg arg (hd_error rest) o) as [o' used_next].
    cbn [fst] in Hkeep. destruct used_next.
    + destruct rest as [| next rest']; [exact Hkeep |].
      cbn [forallb] in Hrest. apply andb_prop in Hrest. destruct Hrest as [_ Hrest'].
      rewrite IH; [exact Hkeep | cbn [length] in Hlen; lia | exact Hrest'].
    + rewrite IH; [exact Hkeep | lia | exact Hrest].
Qed.

Lemma parse_arg_files_flag flag next o :
  is_files_flag flag = true ->
  parse_arg flag next o = (with_files o (files_of_arg next), true).
Proof.
  unfold is_files_flag, is_one_of. intros Hflag.
  apply orb_prop in Hflag.
  destruct Hflag as [H | H]; apply String.eqb_eq in H; subst flag; reflexivity.
Qed.

Lemma files_of_arg_nonempty s :
  s <> EmptyString ->
  files_of_arg (Some s) = Some (map JsString.trim (JsString.split "," s)).
Proof.
  intros Hs. unfold files_of_arg.
  destruct s; [contradiction Hs; reflexivity | reflexivity].
Qed.

Lemma parse_arg_takes_value arg next o :
  snd (parse_arg arg next o) = takes_value arg.
Proof.
  unfold parse_arg, takes_value.
  repeat match goal with
         | |- context [is_one_of arg ?a ?b] => destruct (is_one_of arg a b)
         end;
    repeat match goal with
           | |- context [if ?c then _ else _] => destruct c
           end; reflexivity.
Qed.

(** An option that takes no value does not look at the next argument. *)
Lemma parse_arg_ignores_next arg next next' o :
  takes_value arg = false ->
  fst (parse_arg arg next o) = fst (parse_arg arg next' o).
Proof.
  unfold parse_arg, takes_value. intros H.
  repeat match type of H with
         | context [is_one_of arg ?a ?b] =>
             destruct (is_one_of arg a b); [discriminate H |]
         end.
  reflexivity.
Qed.

(** The loop over [pre ++ rest] is the loop over [pre], then over [rest],
    when [pre] is read whole. *)
Lemma parse_loop_app n :
  forall pre rest o,
    length pre <= n ->
    reads_whole pre = true ->
    parse_loop (pre ++ rest) o = parse_loop rest (parse_loop pre o).
Proof.
  induction n as [| n IH]; intros pre rest o Hlen Hwhole.
  - destruct pre; [reflexivity | cbn in Hlen; lia].
  - destruct pre as [| arg pre']; [reflexivity |].
    cbn [app parse_loop reads_whole length] in *.
    pose proof (parse_arg_takes_value arg (hd_error (pre' ++ rest)) o) as H1.
    pose proof (parse_arg_takes_value arg (hd_error pre') o) as H2.
    destruct (takes_value arg) eqn:Htakes.
    + destruct pre' as [| next pre'']; [discriminate Hwhole |].
      cbn [app hd_error] in *.
      destruct (parse_arg arg (Some next) o) as [o' used_next].
      cbn [snd] in H1. subst used_next.
      apply IH; [cbn [length] in Hlen; lia | exact Hwhole].
    + assert (Hsame : fst (parse_arg arg (hd_error (pre' ++ rest)) o)
                      = fst (parse_arg arg (hd_error pre') o)).
      { apply parse_arg_ignores_next. exact Htakes. }
      destruct (parse_arg arg (hd_error (pre' ++ rest)) o) as [o1 u1].
      destruct (parse_arg arg (hd_error pre') o) as [o2 u2].
      cbn [fst snd] in *. subst u1 u2 o1.
      apply IH; [lia | exact Hwhole].
Qed.

(** [--files s] (or [-f s]) read as an option, with no other [--files]
    after it. *)
Lemma parseArgs_files w pre flag s rest :
  is_files_flag flag = true ->
  argv w = pre ++ flag :: s :: rest ->
  reads_whole pre = true ->
  forallb (fun a => negb (is_files_flag a)) rest = true ->
  files (parseArgs w) = files_of_arg (Some s).
Proof.
  intros Hflag Hargv Hpre Hrest. unfold parseArgs. rewrite Hargv.
  rewrite (parse_loop_app (length pre)) by (lia || exact Hpre).
  cbn [parse_loop hd_error].
  rewrite (parse_arg_files_flag flag (Some s) _ Hflag).
  rewrite (parse_loop_keeps_files (length rest)); [reflexivity | lia | exact Hrest].
Qed.

(* ================================================================== *)
(** ** Control: basic facts *)
(* ================================================================== *)

Lemma bind_Ret_inv {A B} (m : M A) (k : A -> M B) st b st' :
  bind m k st = (Ret b, st') ->
  exists a st1, m st = (Ret a, st1) /\ k a st1 = (Ret b, st').
Proof.
  unfold bind. destruct (m st) as [[a | e | c] st1]; intros H.
  - exists a, st1. split; [reflexivity | exact H].
  - discriminate H.
  - discriminate H.
Qed.

Lemma bind_Ret {A B} (m : M A) (k : A -> M B) st a st1 :
  m st = (Ret a, st1) -> bind m k st = k a st1.
Proof. intros H. unfold bind. rewrite H. reflexivity. Qed.

Lemma bind_Throw {A B} (m : M A) (k : A -> M B) st e st1 :
  m st = (Throw e, st1) -> bind m k st = (Throw e, st1).
Proof. intros H. unfold bind. rewrite H. reflexivity. Qed.

(** [api] sends exactly [api_request] and hands back what the remote says. *)
Lemma api_run w agent tok endpoint fetchOptions st :
  api w agent tok endpoint fetchOptions st =
  (match remote w (trace st) (api_request agent tok endpoint fetchOptions) with
   | NetJson v => Ret v
   | NetThrow e => Throw e
   end,
   add_request (api_request agent tok endpoint fetchOptions) st).
Proof.
  unfold api, fetcher, send, bind, api_request. cbn [method headers body].
  destruct (remote w (trace st) _); reflexivity.
Qed.

Lemma api_answer w agent tok endpoint fetchOptions st v :
  remote w (trace st) (api_request agent tok endpoint fetchOptions) = NetJson v ->
  api w agent tok endpoint fetchOptions st =
  (Ret v, add_request (api_request agent tok endpoint fetchOptions) st).
Proof. intros H. rewrite api_run, H. reflexivity. Qed.

Lemma api_throws w agent tok endpoint fetchOptions st e :
  remote w (trace st) (api_request agent tok endpoint fetchOptions) = NetThrow e ->
  api w agent tok endpoint fetchOptions st =
  (Throw e, add_request (api_request agent tok endpoint fetchOptions) st).
Proof. intros H. rewrite api_run, H. reflexivity. Qed.

Lemma get_prop_run v k st :
  get_prop v k st =
  match prop v k with
  | Some x => (Ret x, st)
  | None => (Throw ("Cannot read properties of null (reading '" ++ k ++ "')")%string, st)
  end.
Proof. unfold get_prop. destruct (prop v k); reflexivity. Qed.


(* ================================================================== *)
(** ** One iteration of the upload loop *)
(* ================================================================== *)

Section UploadFacts.

Variable w : world.
Variable agent : option string.
Variable tok : option string.
Variable rep : string.
Variable br : string.
Variable msg : option string.

Local Abbreviation step := (upload_file w agent tok rep br msg).
Local Abbreviation attempt := (upload_attempt w agent tok rep br msg).
Local Abbreviation get_req := (get_file_request agent tok rep br).
Local Abbreviation put_req := (put_file_request w agent tok rep br msg).

Lemma put_body_no_sha file content sha :
  truthy sha = false -> field "sha" (put_body w br msg file content sha) = None.
Proof.
  intros H. unfold put_body. rewrite H. reflexivity.
Qed.

Lemma put_body_sha file content sha :
  truthy sha = true ->
  exists hash, sha = Some hash
               /\ field "sha" (put_body w br msg file content sha) = Some hash.
Proof.
  intros H. destruct sha as [hash |]; [| discriminate H].
  exists hash. split; [reflexivity |].
  unfold put_body. rewrite H. reflexivity.
Qed.

(** *** The paths through one iteration *)

Lemma step_missing file st :
  disk w (path_resolve w file) = Missing ->
  step file st = (Ret tt, count_skipped (add_line (NotFoundSkipping file) st)).
Proof.
  intros H. unfold step, upload_file, existsSync. rewrite H. reflexivity.
Qed.

Lemma step_directory file st :
  disk w (path_resolve w file) = Directory ->
  step file st = (Ret tt, count_skipped st).
Proof.
  intros H. unfold step, upload_file, existsSync, statSync_isDirectory.
  rewrite H. reflexivity.
Qed.

(** A regular file gets past the two local tests and into the [try]. *)
Lemma step_regular file bytes st :
  disk w (path_resolve w file) = File bytes ->
  step file st =
  try_catch (attempt file (path_resolve w file))
            (fun err => console_log (Raised file err) ;; incr_failed) st.
Proof.
  intros H. unfold step, upload_file, existsSync, statSync_isDirectory.
  rewrite H. reflexivity.
Qed.

(** What the [catch] clause makes of an exception. *)
Lemma step_caught file bytes st e st1 :
  disk w (path_resolve w file) = File bytes ->
  attempt file (path_resolve w file) st = (Throw e, st1) ->
  step file st = (Ret tt, count_failed (add_line (Raised file e) st1)).
Proof.
  intros Hdisk H. rewrite (step_regular _ _ _ Hdisk).
  unfold try_catch. rewrite H. reflexivity.
Qed.

Lemma step_returned file bytes st st1 :
  disk w (path_resolve w file) = File bytes ->
  attempt file (path_resolve w file) st = (Ret tt, st1) ->
  step file st = (Ret tt, st1).
Proof.
  intros Hdisk H. rewrite (step_regular _ _ _ Hdisk).
  unfold try_catch. rewrite H. reflexivity.
Qed.

Lemma attempt_unreadable file st :
  disk w (path_resolve w file) = File None ->
  attempt file (path_resolve w file) st = (Throw "EACCES: permission denied", st).
Proof.
  intros H. unfold attempt, upload_attempt, readFileSync. rewrite H. reflexivity.
Qed.

Lemma attempt_query_throws file content st e :
  disk w (path_resolve w file) = File (Some content) ->
  remote w (trace st) (get_req file) = NetThrow e ->
  attempt file (path_resolve w file) st = (Throw e, add_request (get_req file) st).
Proof.
  intros Hdisk Hget. unfold attempt, upload_attempt, readFileSync.
  rewrite Hdisk. unfold bind at 1. unfold ret at 1.
  apply bind_Throw. apply api_throws. exact Hget.
Qed.

Lemma attempt_query_null file content existing st :
  disk w (path_resolve w file) = File (Some content) ->
  remote w (trace st) (get_req file) = NetJson existing ->
  prop existing "sha" = None ->
  attempt file (path_resolve w file) st =
  (Throw "Cannot read properties of null (reading 'sha')",
   add_request (get_req file) st).
Proof.
  intros Hdisk Hget Hsha. unfold attempt, upload_attempt, readFileSync.
  rewrite Hdisk. unfold bind at 1. unfold ret at 1.
  rewrite (bind_Ret _ _ _ _ _ (api_answer _ _ _ _ _ _ _ Hget)).
  apply bind_Throw. rewrite get_prop_run, Hsha. reflexivity.
Qed.

(** From here on the query has answered and [existing.sha] has a value:
    the put-file request goes out. *)
Section PutSent.

Variables (file content : string) (existing : json) (sha : jsval) (st : state).
Hypothesis Hdisk : disk w (path_resolve w file) = File (Some content).
Hypothesis Hget : remote w (trace st) (get_req file) = NetJson existing.
Hypothesis Hsha : prop existing "sha" = Some sha.

Local Abbreviation st2 :=
  (add_request (put_req file content sha) (add_request (get_req file) st)).

Lemma attempt_put :
  attempt file (path_resolve w file) st =
  (result <- api w agent tok (contents_put rep file)
               (json_post (put_body w br msg file content sha) "PUT") ;;
   confirmation <- get_prop result "content" ;;
   if truthy confirmation then console_log (Uploaded file) ;; incr_success
   else m <- get_prop result "message" ;;
        console_log (Rejected file m) ;; incr_failed)
    (add_request (get_req file) st).
Proof.
  unfold attempt, upload_attempt, readFileSync.
  rewrite Hdisk. unfold bind at 1. unfold ret at 1.
  rewrite (bind_Ret _ _ _ _ _ (api_answer _ _ _ _ _ _ _ Hget)).
  assert (Hp : get_prop existing "sha" (add_request (get_req file) st)
               = (Ret sha, add_request (get_req file) st)).
  { rewrite get_prop_run, Hsha. reflexivity. }
  rewrite (bind_Ret _ _ _ _ _ Hp). reflexivity.
Qed.

Lemma attempt_put_throws e :
  remote w (trace st ++ [get_req file]) (put_req file content sha) = NetThrow e ->
  attempt file (path_resolve w file) st = (Throw e, st2).
Proof.
  intros Hput. rewrite attempt_put.
  apply bind_Throw.
  apply (api_throws w agent tok _ _ (add_request (get_req file) st) _ Hput).
Qed.

Lemma attempt_put_null result :
  remote w (trace st ++ [get_req file]) (put_req file content sha) = NetJson result ->
  prop result "content" = None ->
  attempt file (path_resolve w file) st =
  (Throw "Cannot read properties of null (reading 'content')", st2).
Proof.
  intros Hput Hc. rewrite attempt_put.
  rewrite (bind_Ret _ _ _ _ _ (api_answer w agent tok _ _ (add_request (get_req file) st) _ Hput)).
  apply bind_Throw. rewrite get_prop_run, Hc. reflexivity.
Qed.

Lemma attempt_confirmed result :
  remote w (trace st ++ [get_req file]) (put_req file content sha) = NetJson result ->
  confirms result = true ->
  attempt file (path_resolve w file) st =
  (Ret tt, count_success (add_line (Uploaded file) st2)).
Proof.
  intros Hput Hc. rewrite attempt_put.
  rewrite (bind_Ret _ _ _ _ _ (api_answer w agent tok _ _ (add_request (get_req file) st) _ Hput)).
  unfold confirms in Hc.
  destruct (prop result "content") as [c |] eqn:Hprop; [| discriminate Hc].
  unfold bind at 1. rewrite get_prop_run, Hprop, Hc. reflexivity.
Qed.

Lemma attempt_rejected result c :
  remote w (trace st ++ [get_req file]) (put_req file content sha) = NetJson result ->
  prop result "content" = Some c ->
  truthy c = false ->
  exists m, prop result "message" = Some m /\
  attempt file (path_resolve w file) st =
  (Ret tt, count_failed (add_line (Rejected file m) st2)).
Proof.
  intros Hput Hprop Hc.
  assert (Hm : exists m, prop result "message" = Some m).
  { destruct result; try discriminate Hprop; eexists; reflexivity. }
  destruct Hm as [m Hm]. exists m. split; [exact Hm |].
  rewrite attempt_put.
  rewrite (bind_Ret _ _ _ _ _ (api_answer w agent tok _ _ (add_request (get_req file) st) _ Hput)).
  unfold bind at 1. rewrite get_prop_run, Hprop, Hc.
  unfold bind at 1. rewrite get_prop_run, Hm. reflexivity.
Qed.

End PutSent.

(** *** Every iteration ends normally, counts once, and creates no ref *)

Lemma step_shape file st :
  exists st' reqs,
    step file st = (Ret tt, st')
    /\ trace st' = trace st ++ reqs
    /\ no_create_ref reqs = true
    /\ counted_once st st'.
Proof.
  destruct (disk w (path_resolve w file)) as [| | [content |]] eqn:Hdisk.
  - eexists; exists []. rewrite (step_missing _ _ Hdisk).
    split; [reflexivity |]. cbn. rewrite app_nil_r.
    repeat split. right; right. repeat split.
  - eexists; exists []. rewrite (step_directory _ _ Hdisk).
    split; [reflexivity |]. cbn. rewrite app_nil_r.
    repeat split. right; right. repeat split.
  - destruct (remote w (trace st) (get_req file)) as [existing | e] eqn:Hget.
    + destruct (prop existing "sha") as [sha |] eqn:Hsha.
      * destruct (remote w (trace st ++ [get_req file]) (put_req file content sha))
          as [result | e] eqn:Hput.
        -- destruct (prop result "content") as [c |] eqn:Hc.
           ++ destruct (truthy c) eqn:Ht.
              ** eexists; exists [get_req file; put_req file content sha].
                 rewrite (step_returned _ _ _ _ Hdisk
                            (attempt_confirmed _ _ _ _ _ Hdisk Hget Hsha _ Hput
                               ltac:(unfold confirms; rewrite Hc; exact Ht))).
                 split; [reflexivity |]. cbn. rewrite <- app_assoc.
                 repeat split. left. repeat split.
              ** destruct (attempt_rejected _ _ _ _ _ Hdisk Hget Hsha _ _ Hput Hc Ht)
                   as [m [_ Hrun]].
                 eexists; exists [get_req file; put_req file content sha].
                 rewrite (step_returned _ _ _ _ Hdisk Hrun).
                 split; [reflexivity |]. cbn. rewrite <- app_assoc.
                 repeat split. right; left. repeat split.
           ++ eexists; exists [get_req file; put_req file content sha].
              rewrite (step_caught _ _ _ _ _ Hdisk
                         (attempt_put_null _ _ _ _ _ Hdisk Hget Hsha _ Hput Hc)).
              split; [reflexivity |]. cbn. rewrite <- app_assoc.
              repeat split. right; left. repeat split.
        -- eexists; exists [get_req file; put_req file content sha].
           rewrite (step_caught _ _ _ _ _ Hdisk
                      (attempt_put_throws _ _ _ _ _ Hdisk Hget Hsha _ Hput)).
           split; [reflexivity |]. cbn. rewrite <- app_assoc.
           repeat split. right; left. repeat split.
      * eexists; exists [get_req file].
        rewrite (step_caught _ _ _ _ _ Hdisk
                   (attempt_query_null _ _ _ _ Hdisk Hget Hsha)).
        split; [reflexivity |]. cbn.
        repeat split. right; left. repeat split.
    + eexists; exists [get_req file].
      rewrite (step_caught _ _ _ _ _ Hdisk
                 (attempt_query_throws _ _ _ _ Hdisk Hget)).
      split; [reflexivity |]. cbn.
      repeat split. right; left. repeat split.
  - eexists; exists [].
    rewrite (step_caught _ _ _ _ _ Hdisk (attempt_unreadable _ _ Hdisk)).
    split; [reflexivity |]. cbn. rewrite app_nil_r.
    repeat split. right; left. repeat split.
Qed.

Lemma counted_once_total st st' : counted_once st st' -> total st' = S (total st).
Proof. unfold counted_once, total. lia. Qed.

Lemma no_create_ref_app xs ys :
  no_create_ref xs = true -> no_create_ref ys = true ->
  no_create_ref (xs ++ ys) = true.
Proof.
  unfold no_create_ref. intros Hx Hy. rewrite forallb_app, Hx, Hy. reflexivity.
Qed.

(** The whole loop, by induction on the files. *)
Lemma loop_shape files :
  forall st, exists st' reqs,
    for_of files step st = (Ret tt, st')
    /\ trace st' = trace st ++ reqs
    /\ no_create_ref reqs = true
    /\ total st' = length files + total st.
Proof.
  induction files as [| file rest IH]; intros st.
  - exists st, []. cbn. rewrite app_nil_r. repeat split.
  - destruct (step_shape file st) as [st1 [reqs1 [Hrun [Htr [Hno Hcount]]]]].
    destruct (IH st1) as [st2 [reqs2 [Hrun2 [Htr2 [Hno2 Htot2]]]]].
    exists st2, (reqs1 ++ reqs2).
    split.
    { cbn [for_of]. rewrite (bind_Ret _ _ _ _ _ Hrun). exact Hrun2. }
    split.
    { rewrite Htr2, Htr, app_assoc. reflexivity. }
    split.
    { apply no_create_ref_app; assumption. }
    rewrite Htot2, (counted_once_total _ _ Hcount). cbn [length]. lia.
Qed.

Lemma loop_next file rest st st' :
  step file st = (Ret tt, st') ->
  for_of (file :: rest) step st = for_of rest step st'.
Proof. intros H. cbn [for_of]. unfold bind. rewrite H. reflexivity. Qed.

(** Each file of the list is dealt with from the state the files before
    it have left. *)
Lemma loop_split pre post st :
  exists st1,
    for_of pre step st = (Ret tt, st1)
    /\ for_of (pre ++ post) step st = for_of post step st1.
Proof.
  revert st. induction pre as [| file pre IH]; intros st.
  - exists st. split; reflexivity.
  - destruct (step_shape file st) as [st0 [reqs [Hrun _]]].
    destruct (IH st0) as [st1 [Hpre Hall]].
    exists st1. cbn [app].
    rewrite !(loop_next _ _ _ _ Hrun). split; assumption.
Qed.

(** *** The claims about one file *)

(** C1. A file that is there locally as a regular file and for which the
    query of the remote returns no content hash: the put-file request that
    follows the query carries no [sha] field, and when the answer to it
    carries confirmation content metadata the file is counted as uploaded,
    the [success] counter going up by one and the two others staying. *)
Theorem C1_create_carries_no_sha file content existing sha st :
  disk w (path_resolve w file) = File (Some content) ->
  remote w (trace st) (get_req file) = NetJson existing ->
  prop existing "sha" = Some sha ->
  truthy sha = false ->
  body_field "sha" (put_req file content sha) = None
  /\ exists st',
      step file st = (Ret tt, st')
      /\ trace st' = trace st ++ [get_req file; put_req file content sha]
      /\ (forall result,
             remote w (trace st ++ [get_req file]) (put_req file content sha)
             = NetJson result ->
             confirms result = true ->
             success st' = S (success st)
             /\ failed st' = failed st
             /\ skipped st' = skipped st
             /\ console st' = console st ++ [Uploaded file]).
Proof.
  intros Hdisk Hget Hsha Hfalsy. split.
  { apply (put_body_no_sha file content sha Hfalsy). }
  destruct (step_shape file st) as [st' [reqs [Hrun _]]].
  exists st'. split; [exact Hrun |].
  destruct (remote w (trace st ++ [get_req file]) (put_req file content sha))
    as [result | e] eqn:Hput.
  - destruct (confirms result) eqn:Hconf.
    + rewrite (step_returned _ _ _ _ Hdisk
                 (attempt_confirmed _ _ _ _ _ Hdisk Hget Hsha _ Hput Hconf)) in Hrun.
      injection Hrun as <-. cbn. rewrite <- app_assoc.
      split; [reflexivity |]. intros result' Heq _.
      repeat split.
    + assert (Htr : trace st' = trace st ++ [get_req file; put_req file content sha]).
      { unfold confirms in Hconf.
        destruct (prop result "content") as [c |] eqn:Hc.
        - destruct (attempt_rejected _ _ _ _ _ Hdisk Hget Hsha _ _ Hput Hc Hconf)
            as [m [_ Hatt]].
          rewrite (step_returned _ _ _ _ Hdisk Hatt) in Hrun.
          injection Hrun as <-. cbn. rewrite <- app_assoc. reflexivity.
        - rewrite (step_caught _ _ _ _ _ Hdisk
                     (attempt_put_null _ _ _ _ _ Hdisk Hget Hsha _ Hput Hc)) in Hrun.
          injection Hrun as <-. cbn. rewrite <- app_assoc. reflexivity. }
      split; [exact Htr |]. intros result' Heq Hconf'.
      injection Heq as <-. rewrite Hconf in Hconf'. discriminate Hconf'.
  - rewrite (step_caught _ _ _ _ _ Hdisk
               (attempt_put_throws _ _ _ _ _ Hdisk Hget Hsha _ Hput)) in Hrun.
    injection Hrun as <-. cbn. rewrite <- app_assoc.
    split; [reflexivity |]. intros result Heq. discriminate Heq.
Qed.

(** C2. A file that is there locally: when the query of the remote returns
    a content hash, the put-file request carries that very hash; when the
    answer to the put-file request lacks confirmation content metadata, or
    the attempt raises an exception (a transport failure of the query or
    of the put-file request among them), the file is counted as failed;
    the loop goes on with the next file, and over any list of files it
    ends normally. *)
Theorem C2_update_carries_hash_failures_counted file bytes st :
  disk w (path_resolve w file) = File bytes ->
  (forall content existing sha,
      bytes = Some content ->
      remote w (trace st) (get_req file) = NetJson existing ->
      prop existing "sha" = Some sha ->
      truthy sha = true ->
      exists hash st',
        sha = Some hash
        /\ body_field "sha" (put_req file content sha) = Some hash
        /\ step file st = (Ret tt, st')
        /\ trace st' = trace st ++ [get_req file; put_req file content sha])
  /\ (forall content existing sha result,
        bytes = Some content ->
        remote w (trace st) (get_req file) = NetJson existing ->
        prop existing "sha" = Some sha ->
        remote w (trace st ++ [get_req file]) (put_req file content sha)
        = NetJson result ->
        confirms result = false ->
        exists st',
          step file st = (Ret tt, st')
          /\ failed st' = S (failed st)
          /\ success st' = success st
          /\ skipped st' = skipped st)
  /\ (forall e st1,
        attempt file (path_resolve w file) st = (Throw e, st1) ->
        step file st = (Ret tt, count_failed (add_line (Raised file e) st1)))
  /\ (forall content e,
        bytes = Some content ->
        remote w (trace st) (get_req file) = NetThrow e ->
        step file st =
        (Ret tt, count_failed (add_line (Raised file e)
                                        (add_request (get_req file) st))))
  /\ (forall content existing sha e,
        bytes = Some content ->
        remote w (trace st) (get_req file) = NetJson existing ->
        prop existing "sha" = Some sha ->
        remote w (trace st ++ [get_req file]) (put_req file content sha)
        = NetThrow e ->
        step file st =
        (Ret tt, count_failed
                   (add_line (Raised file e)
                      (add_request (put_req file content sha)
                         (add_request (get_req file) st)))))
  /\ (exists st', step file st = (Ret tt, st')
                  /\ forall rest, for_of (file :: rest) step st = for_of rest step st')
  /\ (forall files st0, exists st', for_of files step st0 = (Ret tt, st')).
Proof.
  intros Hdisk. repeat apply conj.
  - intros content existing sha -> Hget Hsha Htruthy.
    destruct (put_body_sha file content sha Htruthy) as [hash [-> Hfield]].
    destruct (step_shape file st) as [st' [reqs [Hrun _]]].
    exists hash, st'.
    split; [reflexivity |]. split; [exact Hfield |]. split; [exact Hrun |].
    destruct (remote w (trace st ++ [get_req file])
                     (put_req file content (Some hash))) as [result | e] eqn:Hput.
    + destruct (prop result "content") as [c |] eqn:Hc.
      * destruct (truthy c) eqn:Ht.
        -- rewrite (step_returned _ _ _ _ Hdisk
                      (attempt_confirmed _ _ _ _ _ Hdisk Hget Hsha _ Hput
                         ltac:(unfold confirms; rewrite Hc; exact Ht))) in Hrun.
           injection Hrun as <-. cbn. rewrite <- app_assoc. reflexivity.
        -- destruct (attempt_rejected _ _ _ _ _ Hdisk Hget Hsha _ _ Hput Hc Ht)
             as [m [_ Hatt]].
           rewrite (step_returned _ _ _ _ Hdisk Hatt) in Hrun.
           injection Hrun as <-. cbn. rewrite <- app_assoc. reflexivity.
      * rewrite (step_caught _ _ _ _ _ Hdisk
                   (attempt_put_null _ _ _ _ _ Hdisk Hget Hsha _ Hput Hc)) in Hrun.
        injection Hrun as <-. cbn. rewrite <- app_assoc. reflexivity.
    + rewrite (step_caught _ _ _ _ _ Hdisk
                 (attempt_put_throws _ _ _ _ _ Hdisk Hget Hsha _ Hput)) in Hrun.
      injection Hrun as <-. cbn. rewrite <- app_assoc. reflexivity.
  - intros content existing sha result -> Hget Hsha Hput Hconf.
    unfold confirms in Hconf.
    destruct (prop result "content") as [c |] eqn:Hc.
    + destruct (attempt_rejected _ _ _ _ _ Hdisk Hget Hsha _ _ Hput Hc Hconf)
        as [m [_ Hatt]].
      eexists. rewrite (step_returned _ _ _ _ Hdisk Hatt).
      repeat split.
    + eexists.
      rewrite (step_caught _ _ _ _ _ Hdisk
                 (attempt_put_null _ _ _ _ _ Hdisk Hget Hsha _ Hput Hc)).
      repeat split.
  - intros e st1 Hatt. apply (step_caught _ _ _ _ _ Hdisk Hatt).
  - intros content e -> Hget.
    apply (step_caught _ _ _ _ _ Hdisk (attempt_query_throws _ _ _ _ Hdisk Hget)).
  - intros content existing sha e -> Hget Hsha Hput.
    apply (step_caught _ _ _ _ _ Hdisk
             (attempt_put_throws _ _ _ _ _ Hdisk Hget Hsha _ Hput)).
  - destruct (step_shape file st) as [st' [reqs [Hrun _]]].
    exists st'. split; [exact Hrun |]. intros rest. apply (loop_next _ _ _ _ Hrun).
  - intros files st0.
    destruct (loop_shape files st0) as [st' [reqs [Hrun _]]].
    exists st'. exact Hrun.
Qed.

(** C3. A path that is not on disk, or that names a directory, is counted
    as skipped, the [skipped] counter going up by one and the two others
    staying; no request is sent for it; the iteration ends normally and
    the loop goes on with the next file. *)
Theorem C3_missing_or_directory_skipped file st :
  disk w (path_resolve w file) = Missing
  \/ disk w (path_resolve w file) = Directory ->
  exists st',
    step file st = (Ret tt, st')
    /\ skipped st' = S (skipped st)
    /\ success st' = success st
    /\ failed st' = failed st
    /\ trace st' = trace st
    /\ forall rest, for_of (file :: rest) step st = for_of rest step st'.
Proof.
  intros [Hdisk | Hdisk].
  - exists (count_skipped (add_line (NotFoundSkipping file) st)).
    pose proof (step_missing file st Hdisk) as Hrun.
    repeat split; try exact Hrun. intros rest. apply (loop_next _ _ _ _ Hrun).
  - exists (count_skipped st).
    pose proof (step_directory file st Hdisk) as Hrun.
    repeat split; try exact Hrun. intros rest. apply (loop_next _ _ _ _ Hrun).
Qed.

End UploadFacts.

(* ================================================================== *)
(** ** The run as a whole *)
(* ================================================================== *)

Lemma createFetcher_run w proxyUrl st :
  import_node_fetch w = true ->
  exists st1,
    createFetcher w proxyUrl st =
    (Ret (if truthy_str proxyUrl then https_proxy_agent w (tmpl proxyUrl) else None), st1)
    /\ trace st1 = trace st.
Proof.
  intros H. unfold createFetcher. rewrite H.
  destruct (truthy_str proxyUrl).
  - destruct (https_proxy_agent w (tmpl proxyUrl)).
    + exists st. split; reflexivity.
    + exists (add_line WarnNoProxyAgent st). split; reflexivity.
  - exists st. split; reflexivity.
Qed.

(** A run that gets as far as the remote: what is left of [main] once the
    fetcher is there, and the state it starts from. *)
Lemma main_reaches_remote w :
  reaches_remote w = true ->
  let o := parseArgs w in
  exists st0,
    trace st0 = []
    /\ main w init =
       (ensure_branch w (proxy_agent w o) (token o) (tmpl (resolve_repo w o))
                      (resolve_branch w o) o ;;
        upload_all w (proxy_agent w o) (token o) (tmpl (resolve_repo w o))
                   (resolve_branch w o) o (resolve_files w o)) st0.
Proof.
  intros H o. unfold reaches_remote in H. fold o in H.
  apply andb_prop in H. destruct H as [H Hfetch].
  apply andb_prop in H. destruct H as [H Hdry].
  apply andb_prop in H. destruct H as [H Hfiles].
  apply andb_prop in H. destruct H as [H Hrepo].
  apply andb_prop in H. destruct H as [Hhelp Htoken].
  apply negb_true_iff in Hhelp, Hdry, Hfiles.
  destruct (createFetcher_run w (proxy o)
              (add_line (Banner (tmpl (resolve_repo w o)) (resolve_branch w o)
                                (length (resolve_files w o)) false) init) Hfetch)
    as [st0 [Hf Htr]].
  exists st0. split; [exact Htr |].
  unfold main. fold o.
  cbv beta iota zeta delta [bind when ret console_log process_exit].
  rewrite Hhelp, Htoken, Hrepo, Hfiles, Hdry.
  cbv beta iota zeta delta [negb]. rewrite Hf. reflexivity.
Qed.

Lemma filter_no_create_ref reqs :
  no_create_ref reqs = true -> filter is_create_ref reqs = [].
Proof.
  unfold no_create_ref. induction reqs as [| r reqs IH]; intros H.
  - reflexivity.
  - cbn in H. apply andb_prop in H. destruct H as [Hr Hrest].
    apply negb_true_iff in Hr. cbn. rewrite Hr. apply IH. exact Hrest.
Qed.

(** "Upload files" always runs to its end, whatever the remote does. *)
Lemma upload_all_shape w agent tok rep br o fs st :
  exists st' reqs pre,
    upload_all w agent tok rep br o fs st = (Ret tt, st')
    /\ trace st' = trace st ++ reqs
    /\ no_create_ref reqs = true
    /\ total st' = length fs
    /\ console st' = pre ++ [Done (success st') (failed st') (skipped st');
                             View rep br].
Proof.
  unfold upload_all.
  destruct (loop_shape w agent tok rep br (message o) fs
              {| trace := trace st; console := console st;
                 success := 0; failed := 0; skipped := 0 |})
    as [st1 [reqs [Hrun [Htr [Hno Htot]]]]].
  exists (add_line (View rep br)
            (add_line (Done (success st1) (failed st1) (skipped st1)) st1)),
         reqs, (console st1).
  split.
  { unfold bind at 1. unfold set_counters at 1.
    unfold bind at 1. rewrite Hrun. reflexivity. }
  split; [exact Htr |]. split; [exact Hno |]. split.
  { unfold total in *. cbn in *. lia. }
  cbn. rewrite <- app_assoc. reflexivity.
Qed.

(** *** The block that creates the branch *)

Section CreateBranch.

Variables (w : world) (agent tok : option string) (rep br : string) (o : options).

Local Abbreviation main_req :=
  (api_request agent tok (ref_endpoint rep "main") no_options).
Local Abbreviation post_req sha :=
  (api_request agent tok (refs_endpoint rep)
     (json_post (object_of [("ref", Some (JStr ("refs/heads/" ++ br)%string));
                            ("sha", sha)]) "POST")).

Lemma create_branch_disabled st :
  create o = false ->
  create_branch w agent tok rep br o st = (Exit 1, add_line (ErrBranchMissing br) st).
Proof.
  intros H. unfold create_branch. rewrite H. reflexivity.
Qed.

Lemma create_branch_no_base st :
  create o = true ->
  base_commit (remote w (trace st) main_req) = None ->
  exists r st',
    create_branch w agent tok rep br o st = (r, st')
    /\ trace st' = trace st ++ [main_req]
    /\ (r = Exit 1%Z \/ exists e, r = Throw e).
Proof.
  intros Hc Hbase. unfold create_branch. rewrite Hc.
  cbv beta iota delta [negb when]. unfold bind at 1. unfold ret at 1.
  unfold bind at 1. unfold console_log at 1.
  unfold bind at 1. rewrite api_run.
  cbn [trace add_line].
  unfold base_commit in Hbase.
  destruct (remote w (trace st) main_req) as [mainRef | e].
  - unfold bind at 1. rewrite get_prop_run.
    destruct (prop mainRef "object") as [object |].
    + destruct (truthy (opt_chain object "sha")) eqn:Ht.
      * destruct (opt_chain object "sha"); [discriminate Hbase | discriminate Ht].
      * eexists; eexists. split; [reflexivity |]. split; [reflexivity |].
        left. reflexivity.
    + eexists; eexists. split; [reflexivity |]. split; [reflexivity |].
      right. eexists. reflexivity.
  - eexists; eexists. split; [reflexivity |]. split; [reflexivity |].
    right. eexists. reflexivity.
Qed.

Lemma create_branch_base st sha :
  create o = true ->
  base_commit (remote w (trace st) main_req) = Some sha ->
  exists r st',
    create_branch w agent tok rep br o st = (r, st')
    /\ trace st' = trace st ++ [main_req; post_req (Some sha)]
    /\ (r = Ret tt \/ r = Exit 1%Z \/ exists e, r = Throw e).
Proof.
  intros Hc Hbase. unfold create_branch. rewrite Hc.
  cbv beta iota delta [negb when]. unfold bind at 1. unfold ret at 1.
  unfold bind at 1. unfold console_log at 1.
  unfold bind at 1. rewrite api_run.
  cbn [trace add_line].
  unfold base_commit in Hbase.
  destruct (remote w (trace st) main_req) as [mainRef | e]; [| discriminate Hbase].
  unfold bind at 1. rewrite get_prop_run.
  destruct (prop mainRef "object") as [object |]; [| discriminate Hbase].
  destruct (truthy (opt_chain object "sha")) eqn:Ht; [| discriminate Hbase].
  rewrite Hbase. unfold bind at 1. unfold ret at 1.
  unfold bind at 1. rewrite api_run.
  match goal with
  | |- context [remote w ?h ?r] => destruct (remote w h r) as [createResult | e]
  end.
  - unfold bind at 1. rewrite get_prop_run.
    destruct (prop createResult "ref") as [created |] eqn:Hcreated.
    + destruct (truthy created).
      * eexists; eexists. split; [reflexivity |].
        cbn. rewrite <- app_assoc. split; [reflexivity |]. left. reflexivity.
      * assert (Hm : exists m, prop createResult "message" = Some m).
        { destruct createResult; try discriminate Hcreated; eexists; reflexivity. }
        destruct Hm as [m Hm].
        unfold bind at 1. unfold bind at 1. rewrite get_prop_run, Hm.
        eexists; eexists. split; [reflexivity |].
        cbn. rewrite <- app_assoc. split; [reflexivity |]. right; left. reflexivity.
    + eexists; eexists. split; [reflexivity |].
      cbn. rewrite <- app_assoc. split; [reflexivity |].
      right; right. eexists. reflexivity.
  - eexists; eexists. split; [reflexivity |].
    cbn. rewrite <- app_assoc. split; [reflexivity |].
    right; right. eexists. reflexivity.
Qed.

End CreateBranch.

(** The branch-ensure phase of a run that finds the branch absent: the ref
    query goes out first, then the block that creates the branch runs. *)
Lemma ensure_branch_absent w st0 :
  trace st0 = [] ->
  branch_absent w = true ->
  ensure_branch w (proxy_agent w (parseArgs w)) (token (parseArgs w))
                (tmpl (resolve_repo w (parseArgs w)))
                (resolve_branch w (parseArgs w)) (parseArgs w) st0 =
  create_branch w (proxy_agent w (parseArgs w)) (token (parseArgs w))
                (tmpl (resolve_repo w (parseArgs w)))
                (resolve_branch w (parseArgs w)) (parseArgs w)
                (add_request (ref_query w) st0).
Proof.
  intros Htr Habs. unfold ensure_branch, branch_absent in *.
  unfold bind at 1. rewrite api_run. fold (ref_query w). rewrite Htr.
  destruct (remote w [] (ref_query w)) as [refResult | e]; [| discriminate Habs].
  unfold bind at 1. rewrite get_prop_run.
  destruct (prop refResult "message") as [m |]; [| discriminate Habs].
  rewrite Habs. reflexivity.
Qed.

(** *** The claims about the run *)

(** C4, as amended. With dry-run on, a token and a repository resolved and
    at least one file to push, the run sends no request and ends with exit
    status 0; unless help was asked for, it lists the files first. *)
Theorem C4_dry_run_sends_nothing w :
  dryRun (parseArgs w) = true ->
  truthy_str (token (parseArgs w)) = true ->
  truthy_str (resolve_repo w (parseArgs w)) = true ->
  resolve_files w (parseArgs w) <> [] ->
  fst (run w) = 0%Z
  /\ trace (snd (run w)) = []
  /\ (help (parseArgs w) = false ->
      console (snd (run w))
      = [Banner (tmpl (resolve_repo w (parseArgs w)))
                (resolve_branch w (parseArgs w))
                (length (resolve_files w (parseArgs w))) true;
         WouldUpload (resolve_files w (parseArgs w))]).
Proof.
  intros Hdry Htoken Hrepo Hfiles.
  assert (Hlen : (length (resolve_files w (parseArgs w)) =? 0) = false).
  { apply Nat.eqb_neq. intros H. apply Hfiles. apply length_zero_iff_nil. exact H. }
  unfold run, main.
  cbv beta iota zeta delta [bind when ret console_log process_exit].
  rewrite Htoken, Hrepo, Hlen, Hdry.
  destruct (help (parseArgs w)).
  - cbn. repeat split. intros H. discriminate H.
  - cbn. repeat split.
Qed.

(** C5, as amended. When help is not asked for and no token is resolved,
    or no repository, or no file, the run ends with exit status 1 and has
    sent no request. *)
Theorem C5_unresolved_configuration_is_fatal w :
  help (parseArgs w) = false ->
  truthy_str (token (parseArgs w)) = false
  \/ truthy_str (resolve_repo w (parseArgs w)) = false
  \/ resolve_files w (parseArgs w) = [] ->
  fst (run w) = 1%Z /\ trace (snd (run w)) = [].
Proof.
  intros Hhelp H.
  unfold run, main.
  cbv beta iota zeta delta [bind when ret console_log process_exit].
  rewrite Hhelp.
  destruct (truthy_str (token (parseArgs w))) eqn:Htoken.
  - destruct (truthy_str (resolve_repo w (parseArgs w))) eqn:Hrepo.
    + destruct H as [H | [H | H]]; try discriminate H.
      rewrite H. cbn. split; reflexivity.
    + cbn. split; reflexivity.
  - cbn. split; reflexivity.
Qed.

(** C6. When the query of the target branch's ref reports the branch absent
    and branch creation is disabled, the run ends with exit status 1 and the
    ref query is the only request it has sent: no request for any file. *)
Theorem C6_absent_branch_without_create_is_fatal w :
  reaches_remote w = true ->
  branch_absent w = true ->
  create (parseArgs w) = false ->
  fst (run w) = 1%Z /\ trace (snd (run w)) = [ref_query w].
Proof.
  intros Hreach Habs Hcreate.
  destruct (main_reaches_remote w Hreach) as [st0 [Htr Hmain]].
  unfold bind in Hmain. rewrite (ensure_branch_absent w st0 Htr Habs) in Hmain.
  rewrite create_branch_disabled in Hmain by exact Hcreate.
  unfold run. rewrite Hmain.
  cbn [fst snd trace add_line add_request]. rewrite Htr. split; reflexivity.
Qed.

(** C7. When the query of the target branch's ref reports the branch absent
    and branch creation is enabled: if the lookup of main yields a commit
    sha, the run makes exactly one create-ref call, its third request,
    after the ref query and the lookup, and that call carries this sha;
    if the lookup yields none, the run ends with exit status 1 having made
    no create-ref call. *)
Theorem C7_branch_created_from_main w :
  reaches_remote w = true ->
  branch_absent w = true ->
  create (parseArgs w) = true ->
  match base_commit (remote w [ref_query w] (main_query w)) with
  | Some sha =>
      create_ref_calls (snd (run w)) = 1
      /\ firstn 3 (trace (snd (run w)))
         = [ref_query w; main_query w; create_ref_request w (Some sha)]
      /\ is_create_ref (create_ref_request w (Some sha)) = true
      /\ body_field "sha" (create_ref_request w (Some sha)) = Some sha
  | None =>
      fst (run w) = 1%Z
      /\ create_ref_calls (snd (run w)) = 0
      /\ trace (snd (run w)) = [ref_query w; main_query w]
  end.
Proof.
  intros Hreach Habs Hcreate.
  destruct (main_reaches_remote w Hreach) as [st0 [Htr Hmain]].
  unfold bind in Hmain. rewrite (ensure_branch_absent w st0 Htr Habs) in Hmain.
  unfold run.
  assert (Htr1 : trace (add_request (ref_query w) st0) = [ref_query w]).
  { cbn [trace add_request]. rewrite Htr. reflexivity. }
  destruct (base_commit (remote w [ref_query w] (main_query w))) as [sha |] eqn:Hbase.
  - rewrite <- Htr1 in Hbase.
    destruct (create_branch_base w (proxy_agent w (parseArgs w)) (token (parseArgs w))
                (tmpl (resolve_repo w (parseArgs w))) (resolve_branch w (parseArgs w))
                (parseArgs w) _ sha Hcreate Hbase)
      as [r [st1 [Hrun [Htrace Hr]]]].
    rewrite Hrun in Hmain. rewrite Hmain. rewrite Htr1 in Htrace.
    change (trace st1
            = [ref_query w; main_query w; create_ref_request w (Some sha)])
      in Htrace.
    assert (Hpost : is_create_ref (create_ref_request w (Some sha)) = true)
      by reflexivity.
    assert (Hone : length (filter is_create_ref (trace st1)) = 1).
    { rewrite Htrace. cbn [app filter]. rewrite Hpost. reflexivity. }
    assert (Hsha : body_field "sha" (create_ref_request w (Some sha)) = Some sha)
      by reflexivity.
    destruct Hr as [-> | [-> | [e ->]]].
    + destruct (upload_all_shape w (proxy_agent w (parseArgs w)) (token (parseArgs w))
                  (tmpl (resolve_repo w (parseArgs w))) (resolve_branch w (parseArgs w))
                  (parseArgs w) (resolve_files w (parseArgs w)) st1)
        as [st2 [reqs [pre [Hup [Htr2 [Hno _]]]]]].
      rewrite Hup. cbn [fst snd]. unfold create_ref_calls.
      rewrite Htr2, Htrace.
      split; [| split; [reflexivity | split; assumption]].
      rewrite filter_app, (filter_no_create_ref reqs Hno), app_nil_r.
      rewrite <- Htrace. exact Hone.
    + cbn [fst snd]. unfold create_ref_calls. rewrite Htrace in *.
      split; [exact Hone | split; [reflexivity | split; assumption]].
    + cbn [fst snd]. unfold create_ref_calls. cbn [trace add_line].
      rewrite Htrace in *.
      split; [exact Hone | split; [reflexivity | split; assumption]].
  - rewrite <- Htr1 in Hbase.
    destruct (create_branch_no_base w (proxy_agent w (parseArgs w)) (token (parseArgs w))
                (tmpl (resolve_repo w (parseArgs w))) (resolve_branch w (parseArgs w))
                (parseArgs w) _ Hcreate Hbase)
      as [r [st1 [Hrun [Htrace Hr]]]].
    rewrite Hrun in Hmain. rewrite Hmain.
    rewrite Htr1 in Htrace.
    change (trace st1 = [ref_query w; main_query w]) in Htrace.
    destruct Hr as [-> | [e ->]].
    + cbn [fst snd]. unfold create_ref_calls. rewrite Htrace.
      repeat split.
    + cbn [fst snd]. unfold create_ref_calls. cbn [trace add_line]. rewrite Htrace.
      repeat split.
Qed.

(** C10. In a run that goes through the upload phase to its end, the three
    counters add up to the number of files in the resolved set and the
    closing summary prints them; each iteration, over any file and from any
    state, raises exactly one of the three by one. *)
Theorem C10_counters_add_up w st :
  main w init = (Ret tt, st) ->
  total st = length (resolve_files w (parseArgs w))
  /\ (exists pre rep br,
        console st = pre ++ [Done (success st) (failed st) (skipped st); View rep br])
  /\ (forall agent tok rep br msg file st0,
        exists st1,
          upload_file w agent tok rep br msg file st0 = (Ret tt, st1)
          /\ counted_once st0 st1).
Proof.
  intros Hmain. split; [| split].
  - unfold main in Hmain.
    do 8 (apply bind_Ret_inv in Hmain; destruct Hmain as [? [? [_ Hmain]]]).
    match type of Hmain with
    | upload_all ?w ?a ?t ?r ?b ?o ?fs ?s = _ =>
        destruct (upload_all_shape w a t r b o fs s)
          as [st' [reqs [pre [Hup [_ [_ [Htot _]]]]]]]
    end.
    rewrite Hup in Hmain. injection Hmain as <-. exact Htot.
  - unfold main in Hmain.
    do 8 (apply bind_Ret_inv in Hmain; destruct Hmain as [? [? [_ Hmain]]]).
    match type of Hmain with
    | upload_all ?w ?a ?t ?r ?b ?o ?fs ?s = _ =>
        destruct (upload_all_shape w a t r b o fs s)
          as [st' [reqs [pre [Hup [_ [_ [_ Hcon]]]]]]]
    end.
    rewrite Hup in Hmain. injection Hmain as <-.
    eexists; eexists; eexists. exact Hcon.
  - intros agent tok rep br msg file st0.
    destruct (step_shape w agent tok rep br msg file st0)
      as [st1 [reqs [Hrun [_ [_ Hcount]]]]].
    exists st1. split; assumption.
Qed.

(** X26. What the code does with an override [s] that is not empty, given
    as [--files s] or [-f s]: the switch sets the file list to the pieces
    of [s] between its commas, one more than [s] has commas, in order, each
    trimmed of the white space around it, nothing filtered out; and that
    list is the resolved file list whenever the flag is read as an option
    and no word [--files] or [-f] comes after its value. *)
Theorem X26_files_override_pieces_in_order flag s :
  is_files_flag flag = true ->
  s <> EmptyString ->
  (forall o,
      parse_arg flag (Some s) o
      = (with_files o (Some (map JsString.trim (JsString.split "," s))), true))
  /\ (forall w pre rest,
        argv w = pre ++ flag :: s :: rest ->
        reads_whole pre = true ->
        forallb (fun a => negb (is_files_flag a)) rest = true ->
        resolve_files w (parseArgs w) = map JsString.trim (JsString.split "," s))
  /\ JsString.join "," (JsString.split "," s) = s
  /\ length (map JsString.trim (JsString.split "," s))
     = S (JsString.count_char "," s)
  /\ forallb trimmed (map JsString.trim (JsString.split "," s)) = true.
Proof.
  intros Hflag Hs. repeat apply conj.
  - intros o. rewrite (parse_arg_files_flag flag (Some s) o Hflag).
    rewrite (files_of_arg_nonempty s Hs). reflexivity.
  - intros w pre rest Hargv Hpre Hrest. unfold resolve_files.
    rewrite (parseArgs_files w pre flag s rest Hflag Hargv Hpre Hrest).
    rewrite (files_of_arg_nonempty s Hs). reflexivity.
  - apply JsStringFacts.join_split.
  - rewrite length_map. apply JsStringFacts.length_split.
  - apply forallb_forall. intros f Hin. apply in_map_iff in Hin.
    destruct Hin as [piece [<- _]]. apply JsStringFacts.trimmed_trim.
Qed.

(** C9. On a listing with [.gitignore] in it the tracked-file enumeration
    drops [.gitignore], a tracked file outside the [.git/] directory, which
    the file set of the specification keeps. *)
Theorem C9_gitignore_is_dropped :
  git_ls_files Scenario.tracked
  = Some (".gitignore" ++ Scenario.nl ++ "README.md" ++ Scenario.nl
          ++ "a.txt" ++ Scenario.nl)%string
  /\ resolve_files Scenario.tracked (parseArgs Scenario.tracked)
     = ["README.md"; "a.txt"]
  /\ spec_tracked_files (".gitignore" ++ Scenario.nl ++ "README.md" ++ Scenario.nl
                         ++ "a.txt" ++ Scenario.nl)%string
     = [".gitignore"; "README.md"; "a.txt"].
Proof. repeat split. Qed.

(* ================================================================== *)
(** ** Where the specification and the script part *)
(* ================================================================== *)

(** C4 as stated fails: [--dry-run --files a.txt] with no token ends with
    exit status 1. *)
Lemma C4_counterexample_dry_run_without_token :
  ~ (forall w,
        dryRun (parseArgs w) = true ->
        resolve_files w (parseArgs w) <> [] ->
        fst (run w) = 0%Z /\ trace (snd (run w)) = []).
Proof.
  intros H.
  destruct (H Scenario.dry_run_no_token) as [Hexit _].
  - reflexivity.
  - discriminate.
  - vm_compute in Hexit. discriminate Hexit.
Qed.

(** C5 as stated fails: [--help] with no token ends with exit status 0. *)
Lemma C5_counterexample_help_without_token :
  ~ (forall w,
        truthy_str (token (parseArgs w)) = false
        \/ truthy_str (resolve_repo w (parseArgs w)) = false
        \/ resolve_files w (parseArgs w) = [] ->
        fst (run w) = 1%Z /\ trace (snd (run w)) = []).
Proof.
  intros H.
  destruct (H Scenario.help_no_token) as [Hexit _].
  - left. reflexivity.
  - vm_compute in Hexit. discriminate Hexit.
Qed.

(** C8. The explicit override keeps the empty entries that the
    specification's sentence removes, and that the tracked-file path of the
    same resolver filters out. [--files "a.txt,,b.txt"] resolves to three
    names, the second one empty. [--files ","] resolves to two empty names
    where the sentence has no file at all: the run gets past the check for
    an empty file set, creates the missing branch on the remote, skips both
    names and ends with status 0. A blank line in what [git ls-files]
    prints is dropped. *)
Theorem C8_empty_entries_are_kept :
  (argv Scenario.empty_entry = ["--files"; "a.txt,,b.txt"]
   /\ resolve_files Scenario.empty_entry (parseArgs Scenario.empty_entry)
      = ["a.txt"; ""; "b.txt"]
   /\ spec_files_of_override "a.txt,,b.txt" = ["a.txt"; "b.txt"])
  /\ (argv MoreScenario.only_commas = ["--files"; ","]
      /\ resolve_files MoreScenario.only_commas (parseArgs MoreScenario.only_commas)
         = [""; ""]
      /\ spec_files_of_override "," = []
      /\ fst (run MoreScenario.only_commas) = 0%Z
      /\ create_ref_calls (snd (run MoreScenario.only_commas)) = 1
      /\ skipped (snd (run MoreScenario.only_commas)) = 2
      /\ console (snd (run MoreScenario.only_commas))
         = [Banner "octo/demo" "feature" 2 false; CreatingBranch "feature";
            CreatedBranch "feature"; Done 0 0 2; View "octo/demo" "feature"])
  /\ (argv MoreScenario.blank_line = []
      /\ git_ls_files MoreScenario.blank_line
         = Some ("a.txt" ++ Scenario.nl ++ Scenario.nl ++ "b.txt" ++ Scenario.nl)%string
      /\ resolve_files MoreScenario.blank_line (parseArgs MoreScenario.blank_line)
         = ["a.txt"; "b.txt"]).
Proof.
  split; [repeat split |].
  split; [| repeat split].
  do 6 (split; [vm_compute; reflexivity |]).
  vm_compute. reflexivity.
Qed.

(* ================================================================== *)
(** ** The claims at work on concrete runs *)
(* ================================================================== *)

Module Witness.
Import Scenario.

(** [a.txt] is on disk and not on the remote: a create, counted as
    uploaded. *)
Lemma C1_witness_create :
  disk end_to_end (path_resolve end_to_end "a.txt") = File (Some "hello")
  /\ remote end_to_end (trace init) (get_file_request agent tok rep br "a.txt")
     = NetJson not_found
  /\ prop not_found "sha" = Some None
  /\ truthy None = false
  /\ body_field "sha" (put_file_request end_to_end agent tok rep br msg
                                        "a.txt" "hello" None) = None
  /\ exists st',
      upload_file end_to_end agent tok rep br msg "a.txt" init = (Ret tt, st')
      /\ success st' = 1 /\ failed st' = 0 /\ skipped st' = 0
      /\ console st' = [Uploaded "a.txt"].
Proof.
  destruct (C1_create_carries_no_sha end_to_end agent tok rep br msg
              "a.txt" "hello" not_found None init
              eq_refl eq_refl eq_refl eq_refl)
    as [Hbody [st' [Hrun [_ Hup]]]].
  destruct (Hup accepted eq_refl eq_refl) as [Hs [Hf [Hk Hc]]].
  do 4 (split; [reflexivity |]). split; [exact Hbody |].
  exists st'. repeat split; assumption.
Defined.

(** [a.txt] is on the remote already and the remote refuses the update:
    the request carries the hash, the file is counted as failed. And when
    the contents endpoint cannot be reached, the exception of the query is
    caught and the file counted as failed. *)
Lemma C2_witness_update_refused :
  (disk update_rejected (path_resolve update_rejected "a.txt") = File (Some "hello")
   /\ remote update_rejected (trace init) (get_file_request agent tok rep br "a.txt")
      = NetJson on_remote
   /\ prop on_remote "sha" = Some (Some (JStr "0a1b2c"))
   /\ confirms refused = false
   /\ body_field "sha" (put_file_request update_rejected agent tok rep br msg
                                         "a.txt" "hello" (Some (JStr "0a1b2c")))
      = Some (JStr "0a1b2c")
   /\ exists st',
       upload_file update_rejected agent tok rep br msg "a.txt" init = (Ret tt, st')
       /\ failed st' = 1 /\ success st' = 0 /\ skipped st' = 0)
  /\ (disk offline (path_resolve offline "a.txt") = File (Some "hello")
      /\ remote offline (trace init) (get_file_request agent tok rep br "a.txt")
         = NetThrow "connect ECONNREFUSED"
      /\ upload_file offline agent tok rep br msg "a.txt" init
         = (Ret tt, count_failed
                      (add_line (Raised "a.txt" "connect ECONNREFUSED")
                         (add_request (get_file_request agent tok rep br "a.txt")
                                      init)))).
Proof.
  split.
  - destruct (C2_update_carries_hash_failures_counted update_rejected agent tok rep br
                msg "a.txt" (Some "hello") init eq_refl)
      as [Hupdate [Hrefused _]].
    destruct (Hupdate "hello" on_remote (Some (JStr "0a1b2c"))
                      eq_refl eq_refl eq_refl eq_refl)
      as [hash [st1 [Hhash [Hbody _]]]].
    destruct (Hrefused "hello" on_remote (Some (JStr "0a1b2c")) refused
                       eq_refl eq_refl eq_refl eq_refl eq_refl)
      as [st' [Hrun [Hf [Hs Hk]]]].
    injection Hhash as <-.
    do 4 (split; [reflexivity |]). split; [exact Hbody |].
    exists st'. repeat split; assumption.
  - destruct (C2_update_carries_hash_failures_counted offline agent tok rep br
                msg "a.txt" (Some "hello") init eq_refl)
      as [_ [_ [_ [Hquery _]]]].
    do 2 (split; [reflexivity |]).
    exact (Hquery "hello" "connect ECONNREFUSED" eq_refl eq_refl).
Defined.

(** [missing.txt] is not on disk, [src] is a directory: both skipped,
    nothing sent. *)
Lemma C3_witness_missing :
  (disk end_to_end (path_resolve end_to_end "missing.txt") = Missing
   /\ exists st',
       upload_file end_to_end agent tok rep br msg "missing.txt" init = (Ret tt, st')
       /\ skipped st' = 1 /\ success st' = 0 /\ failed st' = 0 /\ trace st' = [])
  /\ (disk update_rejected (path_resolve update_rejected "src") = Directory
      /\ exists st',
          upload_file update_rejected agent tok rep br msg "src" init = (Ret tt, st')
          /\ skipped st' = 1 /\ success st' = 0 /\ failed st' = 0 /\ trace st' = []).
Proof.
  split.
  - destruct (C3_missing_or_directory_skipped end_to_end agent tok rep br msg
                "missing.txt" init (or_introl eq_refl))
      as [st' [Hrun [Hk [Hs [Hf [Htr _]]]]]].
    split; [reflexivity |].
    exists st'. repeat split; assumption.
  - destruct (C3_missing_or_directory_skipped update_rejected agent tok rep br msg
                "src" init (or_intror eq_refl))
      as [st' [Hrun [Hk [Hs [Hf [Htr _]]]]]].
    split; [reflexivity |].
    exists st'. repeat split; assumption.
Defined.

Lemma C4_witness_dry_run :
  dryRun (parseArgs dry_run) = true
  /\ truthy_str (token (parseArgs dry_run)) = true
  /\ truthy_str (resolve_repo dry_run (parseArgs dry_run)) = true
  /\ resolve_files dry_run (parseArgs dry_run) = ["a.txt"]
  /\ fst (run dry_run) = 0%Z
  /\ trace (snd (run dry_run)) = [].
Proof.
  destruct (C4_dry_run_sends_nothing dry_run eq_refl eq_refl eq_refl)
    as [Hexit [Htr _]].
  - discriminate.
  - repeat split; assumption.
Defined.

Lemma C5_witness_no_token :
  help (parseArgs no_token) = false
  /\ truthy_str (token (parseArgs no_token)) = false
  /\ fst (run no_token) = 1%Z
  /\ trace (snd (run no_token)) = [].
Proof.
  destruct (C5_unresolved_configuration_is_fatal no_token eq_refl
              (or_introl eq_refl)) as [Hexit Htr].
  repeat split; assumption.
Defined.

Lemma C6_witness_no_create :
  reaches_remote no_create = true
  /\ branch_absent no_create = true
  /\ create (parseArgs no_create) = false
  /\ fst (run no_create) = 1%Z
  /\ trace (snd (run no_create)) = [ref_query no_create].
Proof.
  destruct (C6_absent_branch_without_create_is_fatal no_create
              eq_refl eq_refl eq_refl) as [Hexit Htr].
  repeat split; assumption.
Defined.

(** The target branch is absent: with main there it is created from main's
    commit by the one create-ref call; with main absent too the run is
    fatal and creates nothing. *)
Lemma C7_witness_create_from_main :
  (reaches_remote create_from_main = true
   /\ branch_absent create_from_main = true
   /\ create (parseArgs create_from_main) = true
   /\ base_commit (remote create_from_main [ref_query create_from_main]
                          (main_query create_from_main))
      = Some (JStr "c0ffee")
   /\ create_ref_calls (snd (run create_from_main)) = 1
   /\ body_field "sha" (create_ref_request create_from_main (Some (JStr "c0ffee")))
      = Some (JStr "c0ffee"))
  /\ (reaches_remote no_main = true
      /\ branch_absent no_main = true
      /\ create (parseArgs no_main) = true
      /\ base_commit (remote no_main [ref_query no_main] (main_query no_main)) = None
      /\ fst (run no_main) = 1%Z
      /\ create_ref_calls (snd (run no_main)) = 0).
Proof.
  split.
  - pose proof (C7_branch_created_from_main create_from_main
                  eq_refl eq_refl eq_refl) as H.
    change (base_commit (remote create_from_main [ref_query create_from_main]
                                (main_query create_from_main)))
      with (Some (JStr "c0ffee")) in H.
    destruct H as [Hone [_ [_ Hsha]]].
    repeat split; assumption.
  - pose proof (C7_branch_created_from_main no_main eq_refl eq_refl eq_refl) as H.
    change (base_commit (remote no_main [ref_query no_main] (main_query no_main)))
      with (@None json) in H.
    destruct H as [Hexit [Hnone _]].
    repeat split; assumption.
Defined.

Lemma X26_witness_spaced :
  is_files_flag "--files" = true
  /\ argv spaced = ["-b"; "feature"; "--files"; " a.txt , src/b.txt"; "--no-create"]
  /\ reads_whole ["-b"; "feature"] = true
  /\ resolve_files spaced (parseArgs spaced) = ["a.txt"; "src/b.txt"]
  /\ length (map JsString.trim (JsString.split "," " a.txt , src/b.txt")) = 2.
Proof.
  destruct (X26_files_override_pieces_in_order "--files" " a.txt , src/b.txt"
              eq_refl ltac:(discriminate))
    as [_ [Hfiles [_ [Hlen _]]]].
  do 3 (split; [reflexivity |]).
  split; [| exact Hlen].
  exact (Hfiles spaced ["-b"; "feature"] ["--no-create"] eq_refl eq_refl eq_refl).
Defined.

(** The end-to-end run of the specification: [a.txt] uploaded,
    [missing.txt] skipped. *)
Lemma C10_witness_end_to_end :
  main end_to_end init = (Ret tt, snd (main end_to_end init))
  /\ total (snd (main end_to_end init)) = 2
  /\ exists pre rep br,
      console (snd (main end_to_end init)) = pre ++ [Done 1 0 1; View rep br].
Proof.
  assert (Hmain : main end_to_end init = (Ret tt, snd (main end_to_end init)))
    by (vm_compute; reflexivity).
  destruct (C10_counters_add_up end_to_end _ Hmain) as [Htot [Hdone _]].
  split; [exact Hmain |]. split; [exact Htot |]. exact Hdone.
Defined.

End Witness.

(* ================================================================== *)
(** ** Further properties: the command line *)
(* ================================================================== *)

(** *** An option with a value: the last one given wins *)

Section ValueOption.

Variable get : options -> option string.
Variable set : options -> option string -> options.
Variable mine : string -> bool.

Hypothesis mine_sets :
  forall arg next o, mine arg = true -> parse_arg arg next o = (set o next, true).
Hypothesis get_set : forall o v, get (set o v) = v.
Hypothesis others_keep :
  forall arg next o, mine arg = false -> get (fst (parse_arg arg next o)) = get o.

Lemma parse_loop_keeps n :
  forall args o,
    length args <= n ->
    none_of mine args = true ->
    get (parse_loop args o) = get o.
Proof.
  unfold none_of.
  induction n as [| n IH]; intros args o Hlen Hnone.
  - destruct args; [reflexivity | cbn in Hlen; lia].
  - destruct args as [| arg rest]; [reflexivity |].
    cbn [forallb] in Hnone. apply andb_prop in Hnone. destruct Hnone as [Harg Hrest].
    apply negb_true_iff in Harg.
    cbn [parse_loop length] in *.
    pose proof (others_keep arg (hd_error rest) o Harg) as Hkeep.
    destruct (parse_arg arg (hd_error rest) o) as [o' used_next].
    cbn [fst] in Hkeep. destruct used_next.
    + destruct rest as [| next rest']; [exact Hkeep |].
      cbn [forallb] in Hrest. apply andb_prop in Hrest. destruct Hrest as [_ Hrest'].
      rewrite IH; [exact Hkeep | cbn [length] in Hlen; lia | exact Hrest'].
    + rewrite IH; [exact Hkeep | lia | exact Hrest].
Qed.

Lemma last_value_wins pre flag v rest o :
  mine flag = true ->
  reads_whole pre = true ->
  none_of mine rest = true ->
  get (parse_loop (pre ++ flag :: v :: rest) o) = Some v.
Proof.
  intros Hflag Hpre Hrest.
  rewrite (parse_loop_app (length pre)) by (lia || exact Hpre).
  cbn [parse_loop hd_error]. rewrite (mine_sets flag (Some v) _ Hflag).
  rewrite (parse_loop_keeps (length rest)); [apply get_set | lia | exact Hrest].
Qed.

Lemma dangling_option_unsets pre flag o :
  mine flag = true ->
  reads_whole pre = true ->
  get (parse_loop (pre ++ [flag]) o) = None.
Proof.
  intros Hflag Hpre.
  rewrite (parse_loop_app (length pre)) by (lia || exact Hpre).
  cbn [parse_loop hd_error]. rewrite (mine_sets flag None _ Hflag).
  apply get_set.
Qed.

End ValueOption.

Ltac one_of_two H :=
  unfold is_token_flag, is_repo_flag, is_message_flag, is_proxy_flag,
    is_branch_flag, is_help_flag, is_files_flag, is_one_of in H;
  apply orb_prop in H;
  destruct H as [H | H]; apply String.eqb_eq in H; subst.

Ltac split_switch :=
  unfold parse_arg;
  repeat match goal with
         | |- context [if ?c then _ else _] => destruct c
         end; try reflexivity.

Lemma token_flag_sets arg next o :
  is_token_flag arg = true -> parse_arg arg next o = (with_token o next, true).
Proof. intros H. one_of_two H; reflexivity. Qed.

Lemma token_kept arg next o :
  is_token_flag arg = false -> token (fst (parse_arg arg next o)) = token o.
Proof. unfold is_token_flag. intros H. unfold parse_arg. rewrite H. split_switch. Qed.

Lemma repo_flag_sets arg next o :
  is_repo_flag arg = true -> parse_arg arg next o = (with_repo o next, true).
Proof. intros H. one_of_two H; reflexivity. Qed.

Lemma repo_kept arg next o :
  is_repo_flag arg = false -> repo (fst (parse_arg arg next o)) = repo o.
Proof. unfold is_repo_flag. intros H. unfold parse_arg. rewrite H. split_switch. Qed.

Lemma message_flag_sets arg next o :
  is_message_flag arg = true -> parse_arg arg next o = (with_message o next, true).
Proof. intros H. one_of_two H; reflexivity. Qed.

Lemma message_kept arg next o :
  is_message_flag arg = false -> message (fst (parse_arg arg next o)) = message o.
Proof. unfold is_message_flag. intros H. unfold parse_arg. rewrite H. split_switch. Qed.

Lemma proxy_flag_sets arg next o :
  is_proxy_flag arg = true -> parse_arg arg next o = (with_proxy o next, true).
Proof. intros H. one_of_two H; reflexivity. Qed.

Lemma proxy_kept arg next o :
  is_proxy_flag arg = false -> proxy (fst (parse_arg arg next o)) = proxy o.
Proof. unfold is_proxy_flag. intros H. unfold parse_arg. rewrite H. split_switch. Qed.

(** X1. An explicit [--token], [--repo], [--message] or [--proxy] (or its
    short form), read as an option and followed by its value, wins over the
    environment and over every earlier occurrence: the option is the value
    of the last one on the command line, also when that value is empty. *)
Theorem X1_last_value_option_wins w pre flag v rest :
  argv w = pre ++ flag :: v :: rest ->
  reads_whole pre = true ->
  (is_token_flag flag = true -> none_of is_token_flag rest = true ->
   token (parseArgs w) = Some v)
  /\ (is_repo_flag flag = true -> none_of is_repo_flag rest = true ->
      repo (parseArgs w) = Some v)
  /\ (is_message_flag flag = true -> none_of is_message_flag rest = true ->
      message (parseArgs w) = Some v)
  /\ (is_proxy_flag flag = true -> none_of is_proxy_flag rest = true ->
      proxy (parseArgs w) = Some v).
Proof.
  intros Hargv Hpre. unfold parseArgs. rewrite Hargv. repeat apply conj; intros Hflag Hrest.
  - apply (last_value_wins token with_token is_token_flag
             token_flag_sets (fun _ _ => eq_refl) token_kept); assumption.
  - apply (last_value_wins repo with_repo is_repo_flag
             repo_flag_sets (fun _ _ => eq_refl) repo_kept); assumption.
  - apply (last_value_wins message with_message is_message_flag
             message_flag_sets (fun _ _ => eq_refl) message_kept); assumption.
  - apply (last_value_wins proxy with_proxy is_proxy_flag
             proxy_flag_sets (fun _ _ => eq_refl) proxy_kept); assumption.
Qed.

(** *** The branch: option and bare word *)

Lemma branch_flag_sets arg next o :
  is_branch_flag arg = true -> parse_arg arg next o = (with_branch o next, true).
Proof. intros H. one_of_two H; reflexivity. Qed.

(** Once a branch is set, only [--branch] and [-b] change it. *)
Lemma branch_kept arg next o :
  truthy_str (branch o) = true ->
  is_branch_flag arg = false ->
  branch (fst (parse_arg arg next o)) = branch o.
Proof.
  unfold is_branch_flag. intros Hset H. unfold parse_arg. rewrite H, Hset.
  rewrite andb_false_r. split_switch.
Qed.

Lemma parse_loop_keeps_branch n :
  forall args o,
    length args <= n ->
    truthy_str (branch o) = true ->
    none_of is_branch_flag args = true ->
    branch (parse_loop args o) = branch o.
Proof.
  unfold none_of.
  induction n as [| n IH]; intros args o Hlen Hset Hnone.
  - destruct args; [reflexivity | cbn in Hlen; lia].
  - destruct args as [| arg rest]; [reflexivity |].
    cbn [forallb] in Hnone. apply andb_prop in Hnone. destruct Hnone as [Harg Hrest].
    apply negb_true_iff in Harg.
    cbn [parse_loop length] in *.
    pose proof (branch_kept arg (hd_error rest) o Hset Harg) as Hkeep.
    destruct (parse_arg arg (hd_error rest) o) as [o' used_next].
    cbn [fst] in Hkeep. destruct used_next.
    + destruct rest as [| next rest']; [exact Hkeep |].
      cbn [forallb] in Hrest. apply andb_prop in Hrest. destruct Hrest as [_ Hrest'].
      rewrite IH; [exact Hkeep | cbn [length] in Hlen; lia
                   | rewrite Hkeep; exact Hset | exact Hrest'].
    + rewrite IH; [exact Hkeep | lia | rewrite Hkeep; exact Hset | exact Hrest].
Qed.

Lemma nonempty_truthy v : v <> EmptyString -> truthy_str (Some v) = true.
Proof. destruct v; [intros H; contradiction H; reflexivity | reflexivity]. Qed.

(** A word that does not start with a dash is none of the options. *)
Lemma bare_word_unknown word :
  JsString.startsWith word "-" = false -> known_option word = false.
Proof.
  unfold JsString.startsWith. intros H.
  destruct word as [| c s]; [reflexivity |].
  cbn in H. destruct (ascii_dec "-" c) as [<- | Hne]; [| clear H].
  - destruct s; discriminate H.
  - unfold known_option, takes_value, is_help_flag, is_one_of.
    assert (Hc : Ascii.eqb c "-" = false).
    { apply Ascii.eqb_neq. congruence. }
    cbn. rewrite Hc. reflexivity.
Qed.

Lemma unknown_is_no_flag arg :
  known_option arg = false ->
  takes_value arg = false
  /\ String.eqb arg "--create" = false
  /\ String.eqb arg "--no-create" = false
  /\ String.eqb arg "--dry-run" = false
  /\ is_help_flag arg = false.
Proof.
  unfold known_option. intros H.
  do 4 (apply orb_false_elim in H; destruct H as [H ?]).
  repeat split; assumption.
Qed.

Lemma takes_value_false arg :
  takes_value arg = false ->
  is_one_of arg "--branch" "-b" = false
  /\ is_one_of arg "--repo" "-r" = false
  /\ is_one_of arg "--token" "-t" = false
  /\ is_one_of arg "--files" "-f" = false
  /\ is_one_of arg "--message" "-m" = false
  /\ is_one_of arg "--proxy" "-p" = false.
Proof.
  unfold takes_value. intros H.
  do 5 (apply orb_false_elim in H; destruct H as [H ?]).
  repeat split; assumption.
Qed.

(** The [default] case of the switch. *)
Lemma parse_arg_default arg next o :
  known_option arg = false ->
  parse_arg arg next o =
  if negb (JsString.startsWith arg "-") && negb (truthy_str (branch o))
  then (with_branch o (Some arg), false)
  else (o, false).
Proof.
  intros H. apply unknown_is_no_flag in H.
  destruct H as [Hv [Hc [Hn [Hd Hh]]]].
  apply takes_value_false in Hv.
  destruct Hv as [H1 [H2 [H3 [H4 [H5 H6]]]]].
  unfold is_help_flag in Hh.
  unfold parse_arg. rewrite H1, H2, H3, H4, H5, H6, Hc, Hn, Hd, Hh. reflexivity.
Qed.

(** X3. An explicit [--branch] (or [-b]) with a value that is not empty,
    read as an option and not followed by another one, gives the branch,
    whatever bare words stand before or after it; no git command decides. *)
Theorem X3_branch_option_beats_bare_words w pre flag v rest :
  argv w = pre ++ flag :: v :: rest ->
  reads_whole pre = true ->
  is_branch_flag flag = true ->
  v <> EmptyString ->
  none_of is_branch_flag rest = true ->
  branch (parseArgs w) = Some v /\ resolve_branch w (parseArgs w) = v.
Proof.
  intros Hargv Hpre Hflag Hv Hrest.
  assert (Hb : branch (parseArgs w) = Some v).
  { unfold parseArgs. rewrite Hargv.
    rewrite (parse_loop_app (length pre)) by (lia || exact Hpre).
    cbn [parse_loop hd_error]. rewrite (branch_flag_sets flag (Some v) _ Hflag).
    rewrite (parse_loop_keeps_branch (length rest));
      [reflexivity | lia | apply nonempty_truthy; exact Hv | exact Hrest]. }
  split; [exact Hb |].
  unfold resolve_branch, or_else. rewrite Hb, (nonempty_truthy v Hv). reflexivity.
Qed.

(** X4. With no branch set so far, the first bare word (not empty, no
    leading dash) read by the switch becomes the branch; the bare words
    after it are ignored, and only a later [--branch] or [-b] changes it. *)
Theorem X4_first_bare_word_is_branch w pre word rest :
  argv w = pre ++ word :: rest ->
  reads_whole pre = true ->
  truthy_str (branch (parse_loop pre (default_options w))) = false ->
  word <> EmptyString ->
  JsString.startsWith word "-" = false ->
  none_of is_branch_flag rest = true ->
  branch (parseArgs w) = Some word /\ resolve_branch w (parseArgs w) = word.
Proof.
  intros Hargv Hpre Hnone Hword Hbare Hrest.
  assert (Hb : branch (parseArgs w) = Some word).
  { unfold parseArgs. rewrite Hargv.
    rewrite (parse_loop_app (length pre)) by (lia || exact Hpre).
    cbn [parse_loop].
    rewrite (parse_arg_default word _ _ (bare_word_unknown word Hbare)).
    rewrite Hbare, Hnone. cbn [negb andb].
    rewrite (parse_loop_keeps_branch (length rest));
      [reflexivity | lia | apply nonempty_truthy; exact Hword | exact Hrest]. }
  split; [exact Hb |].
  unfold resolve_branch, or_else. rewrite Hb, (nonempty_truthy word Hword). reflexivity.
Qed.

(** X5. A word with a leading dash that the switch has no case for is
    ignored: wherever it stands as an option, the options parsed are those
    of the command line without it. *)
Theorem X5_unknown_option_ignored pre arg rest o :
  reads_whole pre = true ->
  JsString.startsWith arg "-" = true ->
  known_option arg = false ->
  parse_loop (pre ++ arg :: rest) o = parse_loop (pre ++ rest) o.
Proof.
  intros Hpre Hdash Hunknown.
  rewrite !(parse_loop_app (length pre)) by (lia || exact Hpre).
  cbn [parse_loop].
  rewrite (parse_arg_default arg _ _ Hunknown), Hdash. reflexivity.
Qed.

(* ================================================================== *)
(** ** Further properties: the upload loop in detail *)
(* ================================================================== *)

Section UploadDetail.

Variable w : world.
Variable agent : option string.
Variable tok : option string.
Variable rep : string.
Variable br : string.
Variable msg : option string.

Local Abbreviation step := (upload_file w agent tok rep br msg).
Local Abbreviation get_req := (get_file_request agent tok rep br).
Local Abbreviation put_req := (put_file_request w agent tok rep br msg).

(** One iteration, by what is on disk: the requests it sends and the one
    counter it raises. *)
Lemma step_detail file st :
  exists st' rs,
    step file st = (Ret tt, st')
    /\ trace st' = trace st ++ rs
    /\ match disk w (path_resolve w file) with
       | Missing | Directory =>
           rs = []
           /\ skipped st' = S (skipped st) /\ failed st' = failed st
           /\ success st' = success st
       | File None =>
           rs = []
           /\ failed st' = S (failed st) /\ skipped st' = skipped st
           /\ success st' = success st
       | File (Some content) =>
           skipped st' = skipped st
           /\ ((rs = [get_req file]
                /\ failed st' = S (failed st) /\ success st' = success st)
               \/ exists sha,
                   rs = [get_req file; put_req file content sha]
                   /\ ((success st' = S (success st) /\ failed st' = failed st)
                       \/ (failed st' = S (failed st) /\ success st' = success st)))
       end.
Proof.
  destruct (disk w (path_resolve w file)) as [| | [content |]] eqn:Hdisk.
  - eexists; exists []. rewrite (step_missing _ _ _ _ _ _ _ _ Hdisk).
    cbn. rewrite app_nil_r. repeat split.
  - eexists; exists []. rewrite (step_directory _ _ _ _ _ _ _ _ Hdisk).
    cbn. rewrite app_nil_r. repeat split.
  - destruct (remote w (trace st) (get_req file)) as [existing | e] eqn:Hget.
    + destruct (prop existing "sha") as [sha |] eqn:Hsha.
      * destruct (remote w (trace st ++ [get_req file]) (put_req file content sha))
          as [result | e] eqn:Hput.
        -- destruct (prop result "content") as [c |] eqn:Hc.
           ++ destruct (truthy c) eqn:Ht.
              ** eexists; exists [get_req file; put_req file content sha].
                 rewrite (step_returned _ _ _ _ _ _ _ _ _ _ Hdisk
                            (attempt_confirmed _ _ _ _ _ _ _ _ _ _ _ Hdisk Hget Hsha _ Hput
                               ltac:(unfold confirms; rewrite Hc; exact Ht))).
                 split; [reflexivity |]. cbn. rewrite <- app_assoc.
                 split; [reflexivity |]. split; [reflexivity |].
                 right. exists sha. split; [reflexivity |]. left. split; reflexivity.
              ** destruct (attempt_rejected _ _ _ _ _ _ _ _ _ _ _ Hdisk Hget Hsha _ _ Hput Hc Ht)
                   as [m [_ Hrun]].
                 eexists; exists [get_req file; put_req file content sha].
                 rewrite (step_returned _ _ _ _ _ _ _ _ _ _ Hdisk Hrun).
                 split; [reflexivity |]. cbn. rewrite <- app_assoc.
                 split; [reflexivity |]. split; [reflexivity |].
                 right. exists sha. split; [reflexivity |]. right. split; reflexivity.
           ++ eexists; exists [get_req file; put_req file content sha].
              rewrite (step_caught _ _ _ _ _ _ _ _ _ _ _ Hdisk
                         (attempt_put_null _ _ _ _ _ _ _ _ _ _ _ Hdisk Hget Hsha _ Hput Hc)).
              split; [reflexivity |]. cbn. rewrite <- app_assoc.
              split; [reflexivity |]. split; [reflexivity |].
              right. exists sha. split; [reflexivity |]. right. split; reflexivity.
        -- eexists; exists [get_req file; put_req file content sha].
           rewrite (step_caught _ _ _ _ _ _ _ _ _ _ _ Hdisk
                      (attempt_put_throws _ _ _ _ _ _ _ _ _ _ _ Hdisk Hget Hsha _ Hput)).
           split; [reflexivity |]. cbn. rewrite <- app_assoc.
           split; [reflexivity |]. split; [reflexivity |].
           right. exists sha. split; [reflexivity |]. right. split; reflexivity.
      * eexists; exists [get_req file].
        rewrite (step_caught _ _ _ _ _ _ _ _ _ _ _ Hdisk
                   (attempt_query_null _ _ _ _ _ _ _ _ _ _ Hdisk Hget Hsha)).
        split; [reflexivity |]. cbn.
        split; [reflexivity |]. split; [reflexivity |].
        left. repeat split.
    + eexists; exists [get_req file].
      rewrite (step_caught _ _ _ _ _ _ _ _ _ _ _ Hdisk
                 (attempt_query_throws _ _ _ _ _ _ _ _ _ _ Hdisk Hget)).
      split; [reflexivity |]. cbn.
      split; [reflexivity |]. split; [reflexivity |].
      left. repeat split.
  - eexists; exists [].
    rewrite (step_caught _ _ _ _ _ _ _ _ _ _ _ Hdisk
               (attempt_unreadable _ _ _ _ _ _ _ _ Hdisk)).
    cbn. rewrite app_nil_r. repeat split.
Qed.

Lemma is_put_file_get file : is_put_file (get_req file) = false.
Proof. reflexivity. Qed.

Lemma is_put_file_put file content sha : is_put_file (put_req file content sha) = true.
Proof. reflexivity. Qed.

(** The loop as a whole: its requests, file by file, and its counters
    against what is on disk. *)
Lemma loop_detail files :
  forall st, exists st' fp,
    for_of files step st = (Ret tt, st')
    /\ trace st' = trace st ++ fp
    /\ file_requests w agent tok rep br msg files fp
    /\ skipped st' = skipped st + count_files is_absent_or_directory w files
    /\ failed st + count_files is_unreadable w files <= failed st'
    /\ success st' <= success st + length (filter is_put_file fp)
    /\ length (filter is_put_file fp) <= count_files is_readable w files
    /\ length fp <= 2 * count_files is_readable w files.
Proof.
  induction files as [| file rest IH]; intros st.
  - exists st, []. cbn. rewrite app_nil_r.
    repeat split; try lia. constructor.
  - destruct (step_detail file st) as [st1 [rs [Hrun [Htr Hkind]]]].
    destruct (IH st1) as [st2 [fp [Hrun2 [Htr2 [Hreqs [Hk [Hf [Hs [Hp Hlen]]]]]]]]].
    exists st2, (rs ++ fp).
    split.
    { cbn [for_of]. unfold bind. rewrite Hrun. exact Hrun2. }
    split.
    { rewrite Htr2, Htr, app_assoc. reflexivity. }
    unfold count_files in *. cbn [filter].
    rewrite filter_app, !length_app.
    destruct (disk w (path_resolve w file)) as [| | [content |]] eqn:Hdisk;
      cbn [is_absent_or_directory is_unreadable is_readable length].
    + destruct Hkind as [-> [Hk1 [Hf1 Hs1]]].
      split; [apply (next_file _ _ _ _ _ _ file rest [] fp);
              [unfold own_requests; rewrite Hdisk; reflexivity | exact Hreqs] |].
      cbn [filter length app]. repeat split; lia.
    + destruct Hkind as [-> [Hk1 [Hf1 Hs1]]].
      split; [apply (next_file _ _ _ _ _ _ file rest [] fp);
              [unfold own_requests; rewrite Hdisk; reflexivity | exact Hreqs] |].
      cbn [filter length app]. repeat split; lia.
    + destruct Hkind as [Hk1 [[-> [Hf1 Hs1]] | [sha [-> Hcount]]]].
      * split; [apply (next_file _ _ _ _ _ _ file rest _ fp);
                [unfold own_requests; rewrite Hdisk; left; reflexivity | exact Hreqs] |].
        cbn [filter length app]. rewrite is_put_file_get. cbn [length].
        repeat split; lia.
      * split; [apply (next_file _ _ _ _ _ _ file rest _ fp);
                [unfold own_requests; rewrite Hdisk; right; exists sha; reflexivity
                | exact Hreqs] |].
        cbn [filter length app]. rewrite is_put_file_get, is_put_file_put.
        cbn [length].
        destruct Hcount as [[Hs1 Hf1] | [Hf1 Hs1]]; repeat split; lia.
    + destruct Hkind as [-> [Hf1 [Hk1 Hs1]]].
      split; [apply (next_file _ _ _ _ _ _ file rest [] fp);
              [unfold own_requests; rewrite Hdisk; reflexivity | exact Hreqs] |].
      cbn [filter length app]. repeat split; lia.
Qed.

End UploadDetail.

(** What holds of the requests of each file holds of those of the loop. *)
Lemma file_requests_Forall w agent tok rep br msg (P : request -> Prop) :
  (forall file, P (get_file_request agent tok rep br file)) ->
  (forall file content sha,
      P (put_file_request w agent tok rep br msg file content sha)) ->
  forall files fp,
    file_requests w agent tok rep br msg files fp -> Forall P fp.
Proof.
  intros Hget Hput files fp H.
  induction H as [| file fs rs reqs Hown _ IH].
  - constructor.
  - apply Forall_app. split; [| exact IH].
    unfold own_requests in Hown.
    destruct (disk w (path_resolve w file)) as [| | [content |]].
    + subst rs. constructor.
    + subst rs. constructor.
    + destruct Hown as [-> | [sha ->]].
      * constructor; [apply Hget | constructor].
      * constructor; [apply Hget |]. constructor; [apply Hput | constructor].
    + subst rs. constructor.
Qed.

(** "Upload files", in the same detail. *)
Lemma upload_all_detail w agent tok rep br o fs st :
  exists st' fp,
    upload_all w agent tok rep br o fs st = (Ret tt, st')
    /\ trace st' = trace st ++ fp
    /\ file_requests w agent tok rep br (message o) fs fp
    /\ summary_printed st'
    /\ skipped st' = count_files is_absent_or_directory w fs
    /\ count_files is_unreadable w fs <= failed st'
    /\ success st' <= length (filter is_put_file fp)
    /\ length (filter is_put_file fp) <= count_files is_readable w fs
    /\ length fp <= 2 * count_files is_readable w fs.
Proof.
  unfold upload_all.
  destruct (loop_detail w agent tok rep br (message o) fs
              {| trace := trace st; console := console st;
                 success := 0; failed := 0; skipped := 0 |})
    as [st1 [fp [Hrun [Htr [Hreqs [Hk [Hf [Hs [Hp Hlen]]]]]]]]].
  exists (add_line (View rep br)
            (add_line (Done (success st1) (failed st1) (skipped st1)) st1)), fp.
  split.
  { unfold bind at 1. unfold set_counters at 1.
    unfold bind at 1. rewrite Hrun. reflexivity. }
  split; [exact Htr |]. split; [exact Hreqs |]. split.
  { exists (console st1), rep, br. cbn. rewrite <- app_assoc. reflexivity. }
  cbn in *. repeat split; lia.
Qed.

(* ================================================================== *)
(** ** Further properties: every way through main *)
(* ================================================================== *)

(** A run that does not get as far as the remote: it has sent nothing, and
    it ends by [process.exit] or, when [node-fetch] does not load, by the
    exception of [createFetcher]. *)
Lemma main_stops_early w :
  reaches_remote w = false ->
  exists r st,
    main w init = (r, st)
    /\ trace st = []
    /\ ((r = Exit 0%Z /\ (help (parseArgs w) = true \/ dryRun (parseArgs w) = true))
        \/ r = Exit 1%Z
        \/ (r = Throw "Cannot find package 'node-fetch'"
            /\ import_node_fetch w = false)).
Proof.
  unfold reaches_remote, main, createFetcher.
  cbv beta iota zeta delta [bind when ret console_log process_exit throw].
  destruct (help (parseArgs w)).
  { intros _. eexists; eexists. split; [reflexivity |]. split; [reflexivity |].
    left. split; [reflexivity | left; reflexivity]. }
  destruct (truthy_str (token (parseArgs w))).
  2:{ intros _. eexists; eexists. split; [reflexivity |]. split; [reflexivity |].
      right; left. reflexivity. }
  destruct (truthy_str (resolve_repo w (parseArgs w))).
  2:{ intros _. eexists; eexists. split; [reflexivity |]. split; [reflexivity |].
      right; left. reflexivity. }
  destruct (length (resolve_files w (parseArgs w)) =? 0).
  { intros _. eexists; eexists. split; [reflexivity |]. split; [reflexivity |].
    right; left. reflexivity. }
  destruct (dryRun (parseArgs w)).
  { intros _. eexists; eexists. split; [reflexivity |]. split; [reflexivity |].
    left. split; [reflexivity | right; reflexivity]. }
  destruct (import_node_fetch w).
  { intros H. discriminate H. }
  intros _. eexists; eexists. split; [reflexivity |]. split; [reflexivity |].
  right; right. split; reflexivity.
Qed.

(** The branch-ensure phase when the ref query answers and its [message] is
    not ['Not Found']: nothing more is sent. *)
Lemma ensure_branch_present w st0 refResult m :
  trace st0 = [] ->
  remote w [] (ref_query w) = NetJson refResult ->
  prop refResult "message" = Some m ->
  strict_eq_str m "Not Found" = false ->
  ensure_branch w (proxy_agent w (parseArgs w)) (token (parseArgs w))
                (tmpl (resolve_repo w (parseArgs w)))
                (resolve_branch w (parseArgs w)) (parseArgs w) st0 =
  (Ret tt, add_request (ref_query w) st0).
Proof.
  intros Htr Hans Hm Hne. unfold ensure_branch.
  unfold bind at 1. rewrite api_run. fold (ref_query w). rewrite Htr, Hans.
  unfold bind at 1. rewrite get_prop_run, Hm, Hne. reflexivity.
Qed.

(** The branch-ensure phase when the ref query fails: by an exception of
    the transport, or by a body that is [null]. *)
Lemma ensure_branch_fails w st0 :
  trace st0 = [] ->
  (exists e, remote w [] (ref_query w) = NetThrow e)
  \/ (exists refResult, remote w [] (ref_query w) = NetJson refResult
                        /\ prop refResult "message" = None) ->
  exists e,
    ensure_branch w (proxy_agent w (parseArgs w)) (token (parseArgs w))
                  (tmpl (resolve_repo w (parseArgs w)))
                  (resolve_branch w (parseArgs w)) (parseArgs w) st0 =
    (Throw e, add_request (ref_query w) st0).
Proof.
  intros Htr H. unfold ensure_branch.
  unfold bind at 1. rewrite api_run. fold (ref_query w). rewrite Htr.
  destruct H as [[e Hans] | [refResult [Hans Hm]]]; rewrite Hans.
  - exists e. reflexivity.
  - unfold bind at 1. rewrite get_prop_run, Hm. eexists. reflexivity.
Qed.

(** Every way through the branch-ensure phase. *)
Lemma ensure_branch_shape w st0 :
  trace st0 = [] ->
  exists r st1 bp,
    ensure_branch w (proxy_agent w (parseArgs w)) (token (parseArgs w))
                  (tmpl (resolve_repo w (parseArgs w)))
                  (resolve_branch w (parseArgs w)) (parseArgs w) st0 = (r, st1)
    /\ trace st1 = ref_query w :: bp
    /\ branch_requests w bp
    /\ (r = Ret tt \/ r = Exit 1%Z \/ exists e, r = Throw e).
Proof.
  intros Htr.
  destruct (remote w [] (ref_query w)) as [refResult | e] eqn:Hans.
  - destruct (prop refResult "message") as [m |] eqn:Hm.
    + destruct (strict_eq_str m "Not Found") eqn:Hnf.
      * assert (Habs : branch_absent w = true).
        { unfold branch_absent. rewrite Hans, Hm. exact Hnf. }
        rewrite (ensure_branch_absent w st0 Htr Habs).
        assert (Htr1 : trace (add_request (ref_query w) st0) = [ref_query w]).
        { cbn [trace add_request]. rewrite Htr. reflexivity. }
        destruct (create (parseArgs w)) eqn:Hcreate.
        -- destruct (base_commit (remote w [ref_query w] (main_query w)))
             as [sha |] eqn:Hbase.
           ++ rewrite <- Htr1 in Hbase.
              destruct (create_branch_base w (proxy_agent w (parseArgs w))
                          (token (parseArgs w)) (tmpl (resolve_repo w (parseArgs w)))
                          (resolve_branch w (parseArgs w)) (parseArgs w) _ sha
                          Hcreate Hbase)
                as [r [st1 [Hrun [Htrace Hr]]]].
              rewrite Htr1 in Htrace.
              exists r, st1, [main_query w; create_ref_request w (Some sha)].
              split; [exact Hrun |]. split; [exact Htrace |].
              split; [right; right; exists sha; reflexivity | exact Hr].
           ++ rewrite <- Htr1 in Hbase.
              destruct (create_branch_no_base w (proxy_agent w (parseArgs w))
                          (token (parseArgs w)) (tmpl (resolve_repo w (parseArgs w)))
                          (resolve_branch w (parseArgs w)) (parseArgs w) _
                          Hcreate Hbase)
                as [r [st1 [Hrun [Htrace Hr]]]].
              rewrite Htr1 in Htrace.
              exists r, st1, [main_query w].
              split; [exact Hrun |]. split; [exact Htrace |].
              split; [right; left; reflexivity | right; exact Hr].
        -- rewrite create_branch_disabled by exact Hcreate.
           eexists; eexists; exists [].
           split; [reflexivity |]. split; [exact Htr1 |].
           split; [left; reflexivity | right; left; reflexivity].
      * rewrite (ensure_branch_present w st0 refResult m Htr Hans Hm Hnf).
        eexists; eexists; exists [].
        split; [reflexivity |]. cbn [trace add_request]. rewrite Htr.
        split; [reflexivity |].
        split; [left; reflexivity | left; reflexivity].
    + destruct (ensure_branch_fails w st0 Htr
                  (or_intror (ex_intro _ refResult (conj Hans Hm)))) as [e He].
      rewrite He. eexists; eexists; exists [].
      split; [reflexivity |]. cbn [trace add_request]. rewrite Htr.
      split; [reflexivity |].
      split; [left; reflexivity | right; right; exists e; reflexivity].
  - destruct (ensure_branch_fails w st0 Htr
                (or_introl (ex_intro _ e Hans))) as [e' He].
    rewrite He. eexists; eexists; exists [].
    split; [reflexivity |]. cbn [trace add_request]. rewrite Htr.
    split; [reflexivity |].
    split; [left; reflexivity | right; right; exists e'; reflexivity].
Qed.

(** Every way through a run that gets as far as the remote: the ref query
    first, then what the branch-ensure phase adds, then, if that phase
    ends normally, what the upload loop sends, file by file. *)
Lemma run_shape w :
  reaches_remote w = true ->
  exists r st bp fp,
    main w init = (r, st)
    /\ trace st = ref_query w :: bp ++ fp
    /\ branch_requests w bp
    /\ ((r = Ret tt
         /\ file_requests w (proxy_agent w (parseArgs w)) (token (parseArgs w))
                          (tmpl (resolve_repo w (parseArgs w)))
                          (resolve_branch w (parseArgs w))
                          (message (parseArgs w))
                          (resolve_files w (parseArgs w)) fp
         /\ summary_printed st
         /\ skipped st
            = count_files is_absent_or_directory w (resolve_files w (parseArgs w))
         /\ count_files is_unreadable w (resolve_files w (parseArgs w)) <= failed st
         /\ success st <= length (filter is_put_file fp)
         /\ length (filter is_put_file fp)
            <= count_files is_readable w (resolve_files w (parseArgs w))
         /\ length fp <= 2 * count_files is_readable w (resolve_files w (parseArgs w)))
        \/ ((r = Exit 1%Z \/ exists e, r = Throw e) /\ fp = [])).
Proof.
  intros Hreach.
  destruct (main_reaches_remote w Hreach) as [st0 [Htr Hmain]].
  destruct (ensure_branch_shape w st0 Htr) as [r [st1 [bp [Hens [Htr1 [Hbp Hr]]]]]].
  unfold bind in Hmain. rewrite Hens in Hmain.
  destruct Hr as [-> | Hfatal].
  - destruct (upload_all_detail w (proxy_agent w (parseArgs w)) (token (parseArgs w))
                (tmpl (resolve_repo w (parseArgs w))) (resolve_branch w (parseArgs w))
                (parseArgs w) (resolve_files w (parseArgs w)) st1)
      as [st2 [fp [Hup [Htr2 Hrest]]]].
    rewrite Hup in Hmain.
    exists (Ret tt), st2, bp, fp.
    split; [exact Hmain |]. split; [rewrite Htr2, Htr1; reflexivity |].
    split; [exact Hbp |]. left. split; [reflexivity | exact Hrest].
  - exists r, st1, bp, [].
    assert (Hmain' : main w init = (r, st1)).
    { destruct Hfatal as [-> | [e ->]]; exact Hmain. }
    split; [exact Hmain' |]. split; [rewrite Htr1, app_nil_r; reflexivity |].
    split; [exact Hbp |]. right. split; [exact Hfatal | reflexivity].
Qed.

Lemma run_of_main w r st :
  main w init = (r, st) ->
  run w = match r with
          | Ret _ => (0%Z, st)
          | Throw e => (1%Z, add_line (ErrTopLevel e) st)
          | Exit code => (code, st)
          end.
Proof. intros H. unfold run. rewrite H. reflexivity. Qed.

(* ================================================================== *)
(** ** Further properties: defaults and switches *)
(* ================================================================== *)

(** X6. With no [--proxy] or [-p] on the command line the proxy is never
    empty: it is [HTTPS_PROXY] when that is set and not empty, else
    [HTTP_PROXY] when that is set and not empty, else the built-in
    [http://127.0.0.1:3128]. *)
Theorem X6_proxy_default_chain w :
  none_of is_proxy_flag (argv w) = true ->
  truthy_str (proxy (parseArgs w)) = true
  /\ (truthy_str (env_HTTPS_PROXY w) = true ->
      proxy (parseArgs w) = env_HTTPS_PROXY w)
  /\ (truthy_str (env_HTTPS_PROXY w) = false ->
      truthy_str (env_HTTP_PROXY w) = true ->
      proxy (parseArgs w) = env_HTTP_PROXY w)
  /\ (truthy_str (env_HTTPS_PROXY w) = false ->
      truthy_str (env_HTTP_PROXY w) = false ->
      proxy (parseArgs w) = Some "http://127.0.0.1:3128").
Proof.
  intros Hnone.
  assert (Hp : proxy (parseArgs w) = proxy (default_options w)).
  { unfold parseArgs.
    apply (parse_loop_keeps proxy is_proxy_flag proxy_kept (length (argv w)));
      [lia | exact Hnone]. }
  rewrite Hp. cbn [proxy default_options]. unfold or_else.
  destruct (env_HTTPS_PROXY w) as [[| c s] |];
    destruct (env_HTTP_PROXY w) as [[| c' s'] |];
    cbn; repeat apply conj; intros; first [discriminate | reflexivity].
Qed.

(** X7. The file list falls back to the tracked files when the command
    line has no [--files] or [-f], when the last one is given an empty
    value, and when it is the last word and has no value at all. *)
Theorem X7_files_fall_back_to_tracked w :
  (none_of is_files_flag (argv w) = true ->
   resolve_files w (parseArgs w) = getTrackedFiles w)
  /\ (forall pre flag rest,
        argv w = pre ++ flag :: EmptyString :: rest ->
        reads_whole pre = true ->
        is_files_flag flag = true ->
        none_of is_files_flag rest = true ->
        resolve_files w (parseArgs w) = getTrackedFiles w)
  /\ (forall pre flag,
        argv w = pre ++ [flag] ->
        reads_whole pre = true ->
        is_files_flag flag = true ->
        resolve_files w (parseArgs w) = getTrackedFiles w).
Proof.
  repeat apply conj.
  - intros Hnone. unfold resolve_files, parseArgs.
    rewrite (parse_loop_keeps_files (length (argv w))); [reflexivity | lia | exact Hnone].
  - intros pre flag rest Hargv Hpre Hflag Hrest. unfold resolve_files.
    rewrite (parseArgs_files w pre flag EmptyString rest Hflag Hargv Hpre Hrest).
    reflexivity.
  - intros pre flag Hargv Hpre Hflag. unfold resolve_files, parseArgs.
    rewrite Hargv, (parse_loop_app (length pre)) by (lia || exact Hpre).
    cbn [parse_loop hd_error].
    rewrite (parse_arg_files_flag flag None _ Hflag). reflexivity.
Qed.

(** Nothing in the switch takes [help] or [dryRun] back. *)
Lemma help_stays_step arg next o :
  help o = true -> help (fst (parse_arg arg next o)) = true.
Proof. intros H. unfold parse_arg. split_switch; exact H. Qed.

Lemma dryRun_stays_step arg next o :
  dryRun o = true -> dryRun (fst (parse_arg arg next o)) = true.
Proof. intros H. unfold parse_arg. split_switch; exact H. Qed.

Lemma flag_stays (flag : options -> bool) :
  (forall arg next o, flag o = true -> flag (fst (parse_arg arg next o)) = true) ->
  forall n args o,
    length args <= n -> flag o = true -> flag (parse_loop args o) = true.
Proof.
  intros Hstep. induction n as [| n IH]; intros args o Hlen Hset.
  - destruct args; [exact Hset | cbn in Hlen; lia].
  - destruct args as [| arg rest]; [exact Hset |].
    cbn [parse_loop length] in *.
    pose proof (Hstep arg (hd_error rest) o Hset) as Hkeep.
    destruct (parse_arg arg (hd_error rest) o) as [o' used_next].
    cbn [fst] in Hkeep. destruct used_next.
    + destruct rest as [| next rest']; [exact Hkeep |].
      apply IH; [cbn [length] in Hlen; lia | exact Hkeep].
    + apply IH; [lia | exact Hkeep].
Qed.

Lemma help_flag_sets arg next o :
  is_help_flag arg = true ->
  parse_arg arg next o = (with_help o true, false).
Proof. intros H. one_of_two H; reflexivity. Qed.

(** X8. [--help] or [-h], read as an option anywhere on the command line,
    makes the run print the help and end with exit status 0, with nothing
    sent and nothing else printed, whatever else the command line, the
    environment and the repository hold. *)
Theorem X8_help_anywhere_only_helps w pre flag rest :
  argv w = pre ++ flag :: rest ->
  reads_whole pre = true ->
  is_help_flag flag = true ->
  run w = (0%Z, add_line Help init).
Proof.
  intros Hargv Hpre Hflag.
  assert (Hhelp : help (parseArgs w) = true).
  { unfold parseArgs. rewrite Hargv.
    rewrite (parse_loop_app (length pre)) by (lia || exact Hpre).
    cbn [parse_loop]. rewrite (help_flag_sets flag _ _ Hflag).
    apply (flag_stays help help_stays_step (length rest)); [lia | reflexivity]. }
  unfold run, main.
  cbv beta iota zeta delta [bind when ret console_log process_exit].
  rewrite Hhelp. reflexivity.
Qed.

(** X9. [--dry-run], read as an option anywhere on the command line, keeps
    the run from the remote altogether: it sends no request, whether it
    ends listing the files, printing the help or on a configuration
    error. *)
Theorem X9_dry_run_never_contacts_remote w pre rest :
  argv w = pre ++ "--dry-run" :: rest ->
  reads_whole pre = true ->
  dryRun (parseArgs w) = true
  /\ trace (snd (run w)) = []
  /\ (fst (run w) = 0%Z \/ fst (run w) = 1%Z).
Proof.
  intros Hargv Hpre.
  assert (Hdry : dryRun (parseArgs w) = true).
  { unfold parseArgs. rewrite Hargv.
    rewrite (parse_loop_app (length pre)) by (lia || exact Hpre).
    cbn [parse_loop].
    change (parse_arg "--dry-run" (hd_error rest) (parse_loop pre (default_options w)))
      with (with_dryRun (parse_loop pre (default_options w)) true, false).
    apply (flag_stays dryRun dryRun_stays_step (length rest)); [lia | reflexivity]. }
  split; [exact Hdry |].
  assert (Hreach : reaches_remote w = false).
  { unfold reaches_remote. rewrite Hdry. cbn [negb].
    rewrite andb_false_r. reflexivity. }
  destruct (main_stops_early w Hreach) as [r [st [Hmain [Htr Hr]]]].
  rewrite (run_of_main w r st Hmain).
  destruct Hr as [[-> _] | [-> | [-> Himp]]]; cbn [fst snd].
  - split; [exact Htr | left; reflexivity].
  - split; [exact Htr | right; reflexivity].
  - (* dry run ends before createFetcher *)
    exfalso. unfold main in Hmain.
    cbv beta iota zeta delta [bind when ret console_log process_exit] in Hmain.
    rewrite Hdry in Hmain.
    destruct (help (parseArgs w)); [discriminate Hmain |].
    destruct (negb (truthy_str (token (parseArgs w)))); [discriminate Hmain |].
    destruct (negb (truthy_str (resolve_repo w (parseArgs w)))); [discriminate Hmain |].
    destruct (length (resolve_files w (parseArgs w)) =? 0); discriminate Hmain.
Qed.

(* ================================================================== *)
(** ** Further properties: the run *)
(* ================================================================== *)

(** The block that creates the branch, by the answer to the create-ref
    call. *)
Lemma create_branch_answer w agent tok rep br o st sha :
  create o = true ->
  base_commit (remote w (trace st)
                      (api_request agent tok (ref_endpoint rep "main") no_options))
  = Some sha ->
  exists r st',
    create_branch w agent tok rep br o st = (r, st')
    /\ trace st' = trace st
                   ++ [api_request agent tok (ref_endpoint rep "main") no_options;
                       api_request agent tok (refs_endpoint rep)
                         (json_post (object_of
                                       [("ref", Some (JStr ("refs/heads/" ++ br)%string));
                                        ("sha", Some sha)]) "POST")]
    /\ (if create_accepted
             (remote w (trace st
                        ++ [api_request agent tok (ref_endpoint rep "main") no_options])
                     (api_request agent tok (refs_endpoint rep)
                        (json_post (object_of
                                      [("ref", Some (JStr ("refs/heads/" ++ br)%string));
                                       ("sha", Some sha)]) "POST")))
        then r = Ret tt
        else r = Exit 1%Z \/ exists e, r = Throw e).
Proof.
  intros Hc Hbase.
  match goal with |- context [create_accepted ?a] => set (answer := a) end.
  unfold create_branch. rewrite Hc.
  cbv beta iota delta [negb when]. unfold bind at 1. unfold ret at 1.
  unfold bind at 1. unfold console_log at 1.
  unfold bind at 1. rewrite api_run.
  cbn [trace add_line].
  unfold base_commit in Hbase.
  destruct (remote w (trace st) _) as [mainRef | e]; [| discriminate Hbase].
  unfold bind at 1. rewrite get_prop_run.
  destruct (prop mainRef "object") as [object |]; [| discriminate Hbase].
  destruct (truthy (opt_chain object "sha")) eqn:Ht; [| discriminate Hbase].
  rewrite Hbase. unfold bind at 1. unfold ret at 1.
  unfold bind at 1. rewrite api_run. cbn [trace add_request add_line].
  match goal with
  | |- context [match remote w ?h ?r with _ => _ end] =>
      change (remote w h r) with answer
  end.
  unfold create_accepted.
  destruct answer as [createResult | e].
  - unfold bind at 1. rewrite get_prop_run.
    destruct (prop createResult "ref") as [created |] eqn:Hcreated.
    + destruct (truthy created).
      * eexists; eexists. split; [reflexivity |].
        cbn. rewrite <- app_assoc. split; reflexivity.
      * assert (Hm : exists m, prop createResult "message" = Some m).
        { destruct createResult; try discriminate Hcreated; eexists; reflexivity. }
        destruct Hm as [m Hm].
        unfold bind at 1. unfold bind at 1. rewrite get_prop_run, Hm.
        eexists; eexists. split; [reflexivity |].
        cbn. rewrite <- app_assoc. split; [reflexivity |]. left. reflexivity.
    + eexists; eexists. split; [reflexivity |].
      cbn. rewrite <- app_assoc. split; [reflexivity |].
      right. eexists. reflexivity.
  - eexists; eexists. split; [reflexivity |].
    cbn. rewrite <- app_assoc. split; [reflexivity |].
    right. eexists. reflexivity.
Qed.

Lemma branch_requests_no_put w bp :
  branch_requests w bp -> filter is_put_file bp = [].
Proof. intros [-> | [-> | [sha ->]]]; reflexivity. Qed.

Lemma branch_requests_length w bp : branch_requests w bp -> length bp <= 2.
Proof. intros [-> | [-> | [sha ->]]]; cbn; lia. Qed.

Lemma branch_requests_create_ref w bp :
  branch_requests w bp -> length (filter is_create_ref bp) <= 1.
Proof. intros [-> | [-> | [sha ->]]]; cbn; lia. Qed.

Lemma file_requests_no_create_ref w agent tok rep br msg files fp :
  file_requests w agent tok rep br msg files fp -> filter is_create_ref fp = [].
Proof.
  intros H.
  pose proof (file_requests_Forall w agent tok rep br msg
                (fun r => is_create_ref r = false)
                (fun _ => eq_refl) (fun _ _ _ => eq_refl) files fp H) as Hall.
  clear H. induction Hall as [| r rs Hr _ IH]; [reflexivity |].
  cbn [filter]. rewrite Hr. exact IH.
Qed.

(** X10. When [node-fetch] cannot be loaded, a run with a valid
    configuration and no dry run ends with exit status 1 through the
    top-level handler, which prints the error, and nothing has been sent. *)
Theorem X10_missing_node_fetch_is_fatal w :
  help (parseArgs w) = false ->
  truthy_str (token (parseArgs w)) = true ->
  truthy_str (resolve_repo w (parseArgs w)) = true ->
  resolve_files w (parseArgs w) <> [] ->
  dryRun (parseArgs w) = false ->
  import_node_fetch w = false ->
  fst (run w) = 1%Z
  /\ trace (snd (run w)) = []
  /\ exists banner e, console (snd (run w)) = [banner; ErrTopLevel e].
Proof.
  intros Hhelp Htoken Hrepo Hfiles Hdry Himport.
  assert (Hlen : (length (resolve_files w (parseArgs w)) =? 0) = false).
  { apply Nat.eqb_neq. intros H. apply Hfiles. apply length_zero_iff_nil. exact H. }
  unfold run, main, createFetcher.
  cbv beta iota zeta delta [bind when ret console_log process_exit throw].
  rewrite Hhelp, Htoken, Hrepo, Hlen, Hdry, Himport.
  cbn. repeat split. eexists; eexists. reflexivity.
Qed.

(** X11. When the query of the target branch's ref answers with a body
    whose [message] is not ['Not Found'] (the ref itself, or any other
    answer, an error message of the remote included), the branch is taken
    to be there: neither the lookup of main nor a create-ref call is made,
    the upload loop follows the ref query at once, and the run ends with
    the summary and exit status 0, however the files fare. *)
Theorem X11_branch_present_goes_straight_to_upload w refResult m :
  reaches_remote w = true ->
  remote w [] (ref_query w) = NetJson refResult ->
  prop refResult "message" = Some m ->
  strict_eq_str m "Not Found" = false ->
  fst (run w) = 0%Z
  /\ summary_printed (snd (run w))
  /\ create_ref_calls (snd (run w)) = 0
  /\ exists fp,
      trace (snd (run w)) = ref_query w :: fp
      /\ file_requests w (proxy_agent w (parseArgs w)) (token (parseArgs w))
                       (tmpl (resolve_repo w (parseArgs w)))
                       (resolve_branch w (parseArgs w))
                       (message (parseArgs w))
                       (resolve_files w (parseArgs w)) fp.
Proof.
  intros Hreach Hans Hm Hne.
  destruct (main_reaches_remote w Hreach) as [st0 [Htr Hmain]].
  unfold bind in Hmain.
  rewrite (ensure_branch_present w st0 refResult m Htr Hans Hm Hne) in Hmain.
  destruct (upload_all_detail w (proxy_agent w (parseArgs w)) (token (parseArgs w))
              (tmpl (resolve_repo w (parseArgs w))) (resolve_branch w (parseArgs w))
              (parseArgs w) (resolve_files w (parseArgs w))
              (add_request (ref_query w) st0))
    as [st2 [fp [Hup [Htr2 [Hreqs [Hsum _]]]]]].
  rewrite Hup in Hmain. rewrite (run_of_main w _ _ Hmain). cbn [fst snd].
  cbn [trace add_request] in Htr2. rewrite Htr in Htr2.
  split; [reflexivity |]. split; [exact Hsum |]. split.
  - unfold create_ref_calls. rewrite Htr2. cbn [app filter].
    change (is_create_ref (ref_query w)) with false. cbn iota.
    rewrite (file_requests_no_create_ref _ _ _ _ _ _ _ _ Hreqs). reflexivity.
  - exists fp. split; [exact Htr2 | exact Hreqs].
Qed.

(** X12. When the query of the target branch's ref fails, by an exception
    of the transport or by a body that is [null], the run ends with exit
    status 1 through the top-level handler, which prints the error; the
    ref query is the only request sent. *)
Theorem X12_failed_ref_query_is_fatal w :
  reaches_remote w = true ->
  (exists e, remote w [] (ref_query w) = NetThrow e)
  \/ (exists refResult, remote w [] (ref_query w) = NetJson refResult
                        /\ prop refResult "message" = None) ->
  fst (run w) = 1%Z
  /\ trace (snd (run w)) = [ref_query w]
  /\ exists pre e, console (snd (run w)) = pre ++ [ErrTopLevel e].
Proof.
  intros Hreach Hfail.
  destruct (main_reaches_remote w Hreach) as [st0 [Htr Hmain]].
  unfold bind in Hmain.
  destruct (ensure_branch_fails w st0 Htr Hfail) as [e He].
  rewrite He in Hmain. rewrite (run_of_main w _ _ Hmain). cbn [fst snd].
  split; [reflexivity |]. split.
  - cbn [trace add_line add_request]. rewrite Htr. reflexivity.
  - exists (console st0), e. reflexivity.
Qed.

(** X13. With the target branch absent, creation enabled and a commit
    found for main: when the answer to the create-ref call carries a
    truthy [ref], the upload loop follows and the run ends with the summary
    and exit status 0; when it does not (the remote rejects the ref, or the
    call fails), the run ends with exit status 1 and the three requests of
    the branch-ensure phase are all it has sent, none for any file. *)
Theorem X13_create_ref_answer_decides w sha :
  reaches_remote w = true ->
  branch_absent w = true ->
  create (parseArgs w) = true ->
  base_commit (remote w [ref_query w] (main_query w)) = Some sha ->
  (create_accepted (remote w [ref_query w; main_query w]
                           (create_ref_request w (Some sha))) = true ->
   fst (run w) = 0%Z
   /\ summary_printed (snd (run w))
   /\ exists fp,
       trace (snd (run w))
       = [ref_query w; main_query w; create_ref_request w (Some sha)] ++ fp
       /\ file_requests w (proxy_agent w (parseArgs w)) (token (parseArgs w))
                        (tmpl (resolve_repo w (parseArgs w)))
                        (resolve_branch w (parseArgs w))
                        (message (parseArgs w))
                        (resolve_files w (parseArgs w)) fp)
  /\ (create_accepted (remote w [ref_query w; main_query w]
                              (create_ref_request w (Some sha))) = false ->
      fst (run w) = 1%Z
      /\ trace (snd (run w))
         = [ref_query w; main_query w; create_ref_request w (Some sha)]).
Proof.
  intros Hreach Habs Hcreate Hbase.
  destruct (main_reaches_remote w Hreach) as [st0 [Htr Hmain]].
  unfold bind in Hmain. rewrite (ensure_branch_absent w st0 Htr Habs) in Hmain.
  assert (Htr1 : trace (add_request (ref_query w) st0) = [ref_query w]).
  { cbn [trace add_request]. rewrite Htr. reflexivity. }
  rewrite <- Htr1 in Hbase.
  destruct (create_branch_answer w (proxy_agent w (parseArgs w)) (token (parseArgs w))
              (tmpl (resolve_repo w (parseArgs w))) (resolve_branch w (parseArgs w))
              (parseArgs w) _ sha Hcreate Hbase)
    as [r [st1 [Hrun [Htrace Hr]]]].
  rewrite Htr1 in Htrace, Hr.
  change (trace st1 = [ref_query w; main_query w; create_ref_request w (Some sha)])
    in Htrace.
  change (if create_accepted (remote w [ref_query w; main_query w]
                                     (create_ref_request w (Some sha)))
          then r = Ret tt else r = Exit 1%Z \/ (exists e, r = Throw e)) in Hr.
  rewrite Hrun in Hmain.
  split; intros Hacc; rewrite Hacc in Hr.
  - subst r.
    destruct (upload_all_detail w (proxy_agent w (parseArgs w)) (token (parseArgs w))
                (tmpl (resolve_repo w (parseArgs w))) (resolve_branch w (parseArgs w))
                (parseArgs w) (resolve_files w (parseArgs w)) st1)
      as [st2 [fp [Hup [Htr2 [Hreqs [Hsum _]]]]]].
    rewrite Hup in Hmain. rewrite (run_of_main w _ _ Hmain). cbn [fst snd].
    split; [reflexivity |]. split; [exact Hsum |].
    exists fp. split; [rewrite Htr2, Htrace; reflexivity | exact Hreqs].
  - destruct Hr as [-> | [e ->]]; rewrite (run_of_main w _ _ Hmain); cbn [fst snd].
    + split; [reflexivity | exact Htrace].
    + split; [reflexivity | exact Htrace].
Qed.

(** *** What every request looks like *)

Lemma prefix_app_same a b c :
  String.prefix (a ++ b) (a ++ c) = String.prefix b c.
Proof.
  induction a as [| x a IH]; [reflexivity |].
  cbn. destruct (ascii_dec x x) as [_ | Hne]; [exact IH | contradiction Hne; reflexivity].
Qed.

(** A call of [api] on a path under the repository, with no headers of its
    own or with the one content-type header. *)
Lemma api_request_conforms agent tok rep path fetchOptions :
  headers fetchOptions = [] \/ headers fetchOptions = [("Content-Type", "application/json")] ->
  conforms agent tok rep
           (api_request agent tok ("/repos/" ++ rep ++ String "/" path) fetchOptions).
Proof.
  intros Hh. unfold conforms, api_request, api_headers.
  cbn [req_agent req_url req_headers].
  split; [reflexivity |]. split.
  - unfold api_url, JsString.startsWith. cbn.
    rewrite (prefix_app_same rep "/" (String "/" path)).
    cbn. destruct path; reflexivity.
  - destruct Hh as [-> | ->]; cbn; repeat split.
Qed.

Lemma ref_query_conforms w :
  conforms (proxy_agent w (parseArgs w)) (token (parseArgs w))
           (tmpl (resolve_repo w (parseArgs w))) (ref_query w).
Proof.
  apply (api_request_conforms _ _ _
           ("git/refs/heads/" ++ resolve_branch w (parseArgs w)) no_options).
  left. reflexivity.
Qed.

Lemma main_query_conforms w :
  conforms (proxy_agent w (parseArgs w)) (token (parseArgs w))
           (tmpl (resolve_repo w (parseArgs w))) (main_query w).
Proof.
  apply (api_request_conforms _ _ _ "git/refs/heads/main" no_options).
  left. reflexivity.
Qed.

Lemma create_ref_request_conforms w sha :
  conforms (proxy_agent w (parseArgs w)) (token (parseArgs w))
           (tmpl (resolve_repo w (parseArgs w))) (create_ref_request w sha).
Proof.
  apply (api_request_conforms _ _ _ "git/refs" (json_post _ "POST")).
  right. reflexivity.
Qed.

Lemma get_file_request_conforms agent tok rep br file :
  conforms agent tok rep (get_file_request agent tok rep br file).
Proof.
  apply (api_request_conforms _ _ _ ("contents/" ++ file ++ "?ref=" ++ br) no_options).
  left. reflexivity.
Qed.

Lemma put_file_request_conforms w agent tok rep br msg file content sha :
  conforms agent tok rep (put_file_request w agent tok rep br msg file content sha).
Proof.
  apply (api_request_conforms _ _ _ ("contents/" ++ file) (json_post _ "PUT")).
  right. reflexivity.
Qed.

Lemma put_body_fields w br msg file content sha :
  field "message" (put_body w br msg file content sha)
  = Some (JStr (tmpl msg ++ " " ++ file)%string)
  /\ field "branch" (put_body w br msg file content sha) = Some (JStr br)
  /\ field "content" (put_body w br msg file content sha)
     = Some (JStr (base64 w content)).
Proof.
  unfold put_body. destruct (truthy sha); [destruct sha |]; repeat split.
Qed.

Lemma put_file_request_aims w agent tok rep br msg file content sha :
  aims_at br (put_file_request w agent tok rep br msg file content sha).
Proof.
  unfold aims_at. cbn [req_method put_file_request api_request json_post method].
  left. apply (put_body_fields w br msg file content sha).
Qed.

Lemma create_ref_request_aims w sha :
  aims_at (resolve_branch w (parseArgs w)) (create_ref_request w (Some sha)).
Proof. right. reflexivity. Qed.

(** The requests of a run, all of them, have a property that the five
    requests of the script have. *)
Lemma run_requests_Forall w (P : request -> Prop) :
  P (ref_query w) ->
  P (main_query w) ->
  (forall sha, P (create_ref_request w (Some sha))) ->
  (forall file,
      P (get_file_request (proxy_agent w (parseArgs w)) (token (parseArgs w))
                          (tmpl (resolve_repo w (parseArgs w)))
                          (resolve_branch w (parseArgs w)) file)) ->
  (forall file content sha,
      P (put_file_request w (proxy_agent w (parseArgs w)) (token (parseArgs w))
                          (tmpl (resolve_repo w (parseArgs w)))
                          (resolve_branch w (parseArgs w))
                          (message (parseArgs w)) file content sha)) ->
  Forall P (trace (snd (run w))).
Proof.
  intros Href Hmainq Hpost Hget Hput.
  destruct (reaches_remote w) eqn:Hreach.
  - destruct (run_shape w Hreach) as [r [st [bp [fp [Hmain [Htr [Hbp Hcase]]]]]]].
    assert (Hst : trace (snd (run w)) = trace st).
    { rewrite (run_of_main w r st Hmain). destruct r; reflexivity. }
    rewrite Hst, Htr. constructor; [exact Href |].
    apply Forall_app. split.
    + destruct Hbp as [-> | [-> | [sha ->]]].
      * constructor.
      * constructor; [exact Hmainq | constructor].
      * constructor; [exact Hmainq |]. constructor; [apply Hpost | constructor].
    + destruct Hcase as [[_ [Hreqs _]] | [_ ->]]; [| constructor].
      apply (file_requests_Forall _ _ _ _ _ _ P Hget Hput _ _ Hreqs).
  - destruct (main_stops_early w Hreach) as [r [st [Hmain [Htr _]]]].
    assert (Hst : trace (snd (run w)) = trace st).
    { rewrite (run_of_main w r st Hmain). destruct r; reflexivity. }
    rewrite Hst, Htr. constructor.
Qed.

(** X14. Every request of every run goes through the run's one proxy agent
    (or none), to a path under [https://api.github.com/repos/<repo>/], and
    carries the token as [Authorization], the v3 [Accept] header and the
    script's [User-Agent]. *)
Theorem X14_every_request_conforms w :
  Forall (conforms (proxy_agent w (parseArgs w)) (token (parseArgs w))
                   (tmpl (resolve_repo w (parseArgs w))))
         (trace (snd (run w))).
Proof.
  apply run_requests_Forall.
  - apply ref_query_conforms.
  - apply main_query_conforms.
  - intros sha. apply create_ref_request_conforms.
  - intros file. apply get_file_request_conforms.
  - intros file content sha. apply put_file_request_conforms.
Qed.

(** X15. No run writes to another branch than the resolved one: every
    request without a method (a GET) has no body, and every request with a
    method names the target branch, as [branch] in a put-file body or as
    [refs/heads/<branch>] in the create-ref body. *)
Theorem X15_writes_aim_at_target_branch w :
  Forall (aims_at (resolve_branch w (parseArgs w))) (trace (snd (run w))).
Proof.
  apply run_requests_Forall.
  - reflexivity.
  - reflexivity.
  - intros sha. apply create_ref_request_aims.
  - intros file. reflexivity.
  - intros file content sha. apply put_file_request_aims.
Qed.

(** *** Exit status, contact with the remote, and counts *)

(** X16. The exit status of a run is 0 or 1, and a run that ends with 0
    either has sent nothing (help, dry run) or has gone through the upload
    loop to the printed summary. *)
Theorem X16_exit_status_zero_or_one w :
  (fst (run w) = 0%Z \/ fst (run w) = 1%Z)
  /\ (fst (run w) = 0%Z ->
      trace (snd (run w)) = [] \/ summary_printed (snd (run w))).
Proof.
  destruct (reaches_remote w) eqn:Hreach.
  - destruct (run_shape w Hreach) as [r [st [bp [fp [Hmain [_ [_ Hcase]]]]]]].
    rewrite (run_of_main w r st Hmain).
    destruct Hcase as [[-> [_ [Hsum _]]] | [[-> | [e ->]] _]]; cbn [fst snd].
    + split; [left; reflexivity | intros _; right; exact Hsum].
    + split; [right; reflexivity | intros H; discriminate H].
    + split; [right; reflexivity | intros H; discriminate H].
  - destruct (main_stops_early w Hreach) as [r [st [Hmain [Htr Hr]]]].
    rewrite (run_of_main w r st Hmain).
    destruct Hr as [[-> _] | [-> | [-> _]]]; cbn [fst snd].
    + split; [left; reflexivity | intros _; left; exact Htr].
    + split; [right; reflexivity | intros H; discriminate H].
    + split; [right; reflexivity | intros H; discriminate H].
Qed.

(** X17. A run that has sent anything had no help to print, a token, a
    repository, a file list that is not empty, no dry run and a loaded
    [node-fetch]; and the first thing it sent is the query of the target
    branch's ref. *)
Theorem X17_contact_only_after_validation w :
  trace (snd (run w)) <> [] ->
  reaches_remote w = true
  /\ exists rest, trace (snd (run w)) = ref_query w :: rest.
Proof.
  intros Hsent.
  destruct (reaches_remote w) eqn:Hreach.
  - split; [reflexivity |].
    destruct (run_shape w Hreach) as [r [st [bp [fp [Hmain [Htr _]]]]]].
    exists (bp ++ fp). rewrite (run_of_main w r st Hmain).
    destruct r; exact Htr.
  - exfalso. apply Hsent.
    destruct (main_stops_early w Hreach) as [r [st [Hmain [Htr _]]]].
    rewrite (run_of_main w r st Hmain). destruct r; exact Htr.
Qed.

(** X18. A run sends at most three requests for the branch and two for
    each readable file of the resolved set: at most one create-ref call,
    and at most one put-file call for each readable file. *)
Theorem X18_request_budget w :
  length (trace (snd (run w)))
  <= 3 + 2 * count_files is_readable w (resolve_files w (parseArgs w))
  /\ create_ref_calls (snd (run w)) <= 1
  /\ put_file_calls (snd (run w))
     <= count_files is_readable w (resolve_files w (parseArgs w)).
Proof.
  destruct (reaches_remote w) eqn:Hreach.
  - destruct (run_shape w Hreach) as [r [st [bp [fp [Hmain [Htr [Hbp Hcase]]]]]]].
    assert (Hst : trace (snd (run w)) = trace st).
    { rewrite (run_of_main w r st Hmain). destruct r; reflexivity. }
    unfold create_ref_calls, put_file_calls. rewrite Hst, Htr.
    cbn [length filter].
    change (is_create_ref (ref_query w)) with false.
    change (is_put_file (ref_query w)) with false. cbn iota.
    rewrite !filter_app, !length_app.
    rewrite (branch_requests_no_put w bp Hbp). cbn [length].
    pose proof (branch_requests_length w bp Hbp) as Hlen.
    pose proof (branch_requests_create_ref w bp Hbp) as Hone.
    destruct Hcase as [[_ [Hreqs [_ [_ [_ [_ [Hput Hfp]]]]]]] | [_ ->]].
    + rewrite (file_requests_no_create_ref _ _ _ _ _ _ _ _ Hreqs). cbn [length].
      repeat split; lia.
    + cbn [filter length]. repeat split; lia.
  - destruct (main_stops_early w Hreach) as [r [st [Hmain [Htr _]]]].
    assert (Hst : trace (snd (run w)) = trace st).
    { rewrite (run_of_main w r st Hmain). destruct r; reflexivity. }
    unfold create_ref_calls, put_file_calls. rewrite Hst, Htr. cbn.
    repeat split; lia.
Qed.

(** X19. In a run that goes through the upload loop to its end, what is on
    disk alone decides the skipped count: it is the number of paths of the
    resolved set that are missing or directories. Every unreadable file is
    among the failed, and no more files are counted as uploaded than
    put-file calls were made, which are no more than there are readable
    files. *)
Theorem X19_counters_against_disk w st :
  main w init = (Ret tt, st) ->
  skipped st = count_files is_absent_or_directory w (resolve_files w (parseArgs w))
  /\ count_files is_unreadable w (resolve_files w (parseArgs w)) <= failed st
  /\ success st <= put_file_calls st
  /\ put_file_calls st <= count_files is_readable w (resolve_files w (parseArgs w)).
Proof.
  intros Hmain.
  destruct (reaches_remote w) eqn:Hreach.
  - destruct (run_shape w Hreach) as [r [st' [bp [fp [Hmain' [Htr [Hbp Hcase]]]]]]].
    rewrite Hmain in Hmain'. injection Hmain' as <- <-.
    destruct Hcase as [[_ [_ [_ [Hk [Hf [Hs [Hput _]]]]]]] | [[H | [e H]] _]];
      try discriminate H.
    unfold put_file_calls. rewrite Htr. cbn [filter].
    change (is_put_file (ref_query w)) with false. cbn iota.
    rewrite filter_app, length_app, (branch_requests_no_put w bp Hbp). cbn [length].
    repeat split; lia.
  - destruct (main_stops_early w Hreach) as [r [st' [Hmain' [_ Hr]]]].
    rewrite Hmain in Hmain'. injection Hmain' as <- <-.
    destruct Hr as [[H _] | [H | [H _]]]; discriminate H.
Qed.

(** X2. A [--token] or [-t] that is the last word of the command line has
    no value: it unsets the token, the one of the environment included, and
    the run, unless help is asked for, ends at once with the token error
    and exit status 1, nothing sent. *)
Theorem X2_dangling_token_option_unsets_token w pre flag :
  argv w = pre ++ [flag] ->
  reads_whole pre = true ->
  is_token_flag flag = true ->
  token (parseArgs w) = None
  /\ (help (parseArgs w) = false ->
      run w = (1%Z, add_line ErrTokenRequired init)).
Proof.
  intros Hargv Hpre Hflag.
  assert (Htok : token (parseArgs w) = None).
  { unfold parseArgs. rewrite Hargv.
    apply (dangling_option_unsets token with_token is_token_flag
             token_flag_sets (fun _ _ => eq_refl)); assumption. }
  split; [exact Htok |]. intros Hhelp.
  unfold run, main.
  cbv beta iota zeta delta [bind when ret console_log process_exit].
  rewrite Hhelp, Htok. reflexivity.
Qed.

(** X20. The upload loop, over any list of files and from any state, ends
    normally and sends the requests of the files in the order of the list:
    for a path that is no readable file nothing, for a readable file the
    query and then at most one put-file, never the put-file without the
    query before it; and a put-file body carries the base64 text of that
    file's bytes, the target branch and the message [<prefix> <path>]. *)
Theorem X20_loop_sends_each_files_requests_in_order
        w agent tok rep br msg files st :
  (exists st' fp,
      for_of files (upload_file w agent tok rep br msg) st = (Ret tt, st')
      /\ trace st' = trace st ++ fp
      /\ file_requests w agent tok rep br msg files fp)
  /\ (forall file content sha,
        body_field "content"
                   (put_file_request w agent tok rep br msg file content sha)
        = Some (JStr (base64 w content))
        /\ body_field "branch"
                      (put_file_request w agent tok rep br msg file content sha)
           = Some (JStr br)
        /\ body_field "message"
                      (put_file_request w agent tok rep br msg file content sha)
           = Some (JStr (tmpl msg ++ " " ++ file)%string)).
Proof.
  split.
  - destruct (loop_detail w agent tok rep br msg files st)
      as [st' [fp [Hrun [Htr [Hreqs _]]]]].
    exists st', fp. repeat split; assumption.
  - intros file content sha.
    destruct (put_body_fields w br msg file content sha) as [Hm [Hb Hc]].
    repeat split; assumption.
Qed.

(* ================================================================== *)
(** ** Further properties: what git tells *)
(* ================================================================== *)

Lemma drop_prefix_spec p : forall s r,
  JsString.drop_prefix p s = Some r -> s = (p ++ r)%string.
Proof.
  induction p as [| a p IH]; intros s r H.
  - cbn in H. injection H as ->. reflexivity.
  - destruct s as [| b s]; [discriminate H |].
    cbn in H. destruct (Ascii.eqb_spec a b) as [-> | _]; [| discriminate H].
    cbn. f_equal. apply IH. exact H.
Qed.

Lemma span_word_spec s :
  s = (fst (JsString.span_word s) ++ snd (JsString.span_word s))%string
  /\ all_word (fst (JsString.span_word s)) = true
  /\ starts_with_word (snd (JsString.span_word s)) = false.
Proof.
  induction s as [| c s [IH1 [IH2 IH3]]].
  - repeat split.
  - cbn [JsString.span_word]. destruct (JsString.is_word_or_dash c) eqn:Hc.
    + destruct (JsString.span_word s) as [a r]. cbn [fst snd] in *.
      split; [cbn; f_equal; exact IH1 |].
      split; [cbn; rewrite Hc; exact IH2 | exact IH3].
    + cbn [fst snd]. repeat split. cbn. exact Hc.
Qed.

Lemma span_word_app a r :
  all_word a = true -> starts_with_word r = false ->
  JsString.span_word (a ++ r) = (a, r).
Proof.
  intros Ha Hr. induction a as [| c a IH].
  - cbn [append]. destruct r as [| d r]; [reflexivity |].
    cbn in Hr. cbn [JsString.span_word]. rewrite Hr. reflexivity.
  - cbn in Ha. apply andb_prop in Ha. destruct Ha as [Hc Ha].
    cbn [append JsString.span_word]. rewrite Hc, (IH Ha). reflexivity.
Qed.

Lemma word_is_no_dot c : JsString.is_word_or_dash c = true -> Ascii.eqb c "." = false.
Proof.
  intros H. destruct (Ascii.eqb_spec c ".") as [-> | _]; [discriminate H | reflexivity].
Qed.

(** On a matched name the [replace] of [getGitRepo] finds no [.git] to take
    off: the class of the group has no dot. *)
Lemma strip_dot_git_word s : all_word s = true -> JsString.strip_dot_git s = s.
Proof.
  induction s as [| c s IH]; intros H; [reflexivity |].
  cbn in H. apply andb_prop in H. destruct H as [Hc Hs].
  cbn [JsString.strip_dot_git].
  assert (Hne : String.eqb (String c s) ".git" = false).
  { cbn. rewrite (word_is_no_dot c Hc). reflexivity. }
  rewrite Hne, (IH Hs). reflexivity.
Qed.

Lemma match_github_here_spec s owner name :
  match_github_here s = Some (owner, name) ->
  exists sep tail,
    s = ("github.com" ++ String sep (owner ++ String "/" (name ++ tail)))%string
    /\ (sep = "/"%char \/ sep = ":"%char)
    /\ all_word owner = true /\ owner <> EmptyString
    /\ all_word name = true /\ name <> EmptyString
    /\ starts_with_word tail = false.
Proof.
  unfold match_github_here. intros H.
  destruct (JsString.drop_prefix "github.com" s) as [[| sep r] |] eqn:Hdrop;
    try discriminate H.
  apply drop_prefix_spec in Hdrop.
  destruct (Ascii.eqb sep "/" || Ascii.eqb sep ":") eqn:Hsep; [| discriminate H].
  destruct (span_word_spec r) as [Hr [Ho _]].
  destruct (JsString.span_word r) as [o r1]. cbn [fst snd] in *.
  destruct o as [| oc o]; [discriminate H |].
  destruct r1 as [| slash r2]; [discriminate H |].
  destruct (Ascii.eqb_spec slash "/") as [-> | _]; [| discriminate H].
  destruct (span_word_spec r2) as [Hr2 [Hn Ht]].
  destruct (JsString.span_word r2) as [n tail]. cbn [fst snd] in *.
  destruct n as [| nc n]; [discriminate H |].
  cbn in H. injection H as <- <-.
  exists sep, tail. subst r2 r. split; [exact Hdrop |].
  split.
  { apply orb_prop in Hsep.
    destruct Hsep as [Hs | Hs]; apply Ascii.eqb_eq in Hs; [left | right]; exact Hs. }
  repeat split; try assumption; discriminate.
Qed.

Lemma match_github_skip c s :
  match_github_here (String c s) = None ->
  match_github (String c s) = match_github s.
Proof. intros H. cbn [match_github]. rewrite H. reflexivity. Qed.

(** The pattern at the place where it matches. *)
Lemma match_github_here_at sep owner name tail :
  sep = "/"%char \/ sep = ":"%char ->
  all_word owner = true -> owner <> EmptyString ->
  all_word name = true -> name <> EmptyString ->
  starts_with_word tail = false ->
  match_github_here
    ("github.com" ++ String sep (owner ++ String "/" (name ++ tail)))
  = Some (owner, name).
Proof.
  intros Hsep Ho Hone Hn Hnne Ht. unfold match_github_here.
  cbn [append JsString.drop_prefix Ascii.eqb Bool.eqb andb].
  assert (Hs : Ascii.eqb sep "/" || Ascii.eqb sep ":" = true).
  { destruct Hsep as [-> | ->]; reflexivity. }
  rewrite Hs.
  rewrite (span_word_app owner (String "/" (name ++ tail)) Ho eq_refl).
  destruct owner as [| oc owner]; [contradiction Hone; reflexivity |].
  cbn [Ascii.eqb Bool.eqb andb].
  rewrite (span_word_app name tail Hn Ht).
  destruct name as [| nc name]; [contradiction Hnne; reflexivity |].
  reflexivity.
Qed.

Lemma string_app_assoc (a b c : string) :
  ((a ++ b) ++ c)%string = (a ++ (b ++ c))%string.
Proof.
  induction a as [| x a IH]; [reflexivity |]. cbn [append]. rewrite IH. reflexivity.
Qed.

Lemma all_word_app a b :
  all_word a = true -> all_word b = true -> all_word (a ++ b) = true.
Proof.
  intros Ha Hb. induction a as [| x a IH]; [exact Hb |].
  cbn in Ha. apply andb_prop in Ha. destruct Ha as [Hx Ha].
  cbn [append all_word]. rewrite Hx, (IH Ha). reflexivity.
Qed.

(** Where the pattern stands at the head of a string the lookup there
    finds it: the second group is greedy and takes the rest of the word
    characters with it. *)
Lemma pattern_at_here s : pattern_at s -> match_github_here s <> None.
Proof.
  intros [sep [owner [name [tail [-> [Hsep [Ho [Hone [Hn Hnne]]]]]]]]].
  destruct (span_word_spec tail) as [Ht [Ha Hr]].
  destruct (JsString.span_word tail) as [more r]. cbn [fst snd] in *.
  subst tail. rewrite <- string_app_assoc.
  rewrite (match_github_here_at sep owner (name ++ more) r Hsep Ho Hone
             (all_word_app name more Hn Ha)).
  - discriminate.
  - destruct name; [contradiction Hnne; reflexivity | discriminate].
  - exact Hr.
Qed.

(** [match_github] returns what the pattern gives at the first place where
    it stands: at no place before it does the lookup succeed. *)
Lemma match_github_spec url owner name :
  match_github url = Some (owner, name) ->
  exists pre rest,
    url = (pre ++ rest)%string /\ match_github_here rest = Some (owner, name)
    /\ forall p1 p2,
        pre = (p1 ++ p2)%string -> p2 <> EmptyString ->
        match_github_here (p2 ++ rest) = None.
Proof.
  induction url as [| c url IH]; cbn [match_github].
  - destruct (match_github_here EmptyString) as [g |] eqn:Hhere; [| discriminate].
    intros H. injection H as ->. exists EmptyString, EmptyString.
    split; [reflexivity |]. split; [exact Hhere |].
    intros p1 p2 Hp Hne. destruct p1; [| discriminate Hp].
    cbn in Hp. subst p2. contradiction Hne. reflexivity.
  - destruct (match_github_here (String c url)) as [g |] eqn:Hhere.
    + intros H. injection H as ->. exists EmptyString, (String c url).
      split; [reflexivity |]. split; [exact Hhere |].
      intros p1 p2 Hp Hne. destruct p1; [| discriminate Hp].
      cbn in Hp. subst p2. contradiction Hne. reflexivity.
    + intros H. destruct (IH H) as [pre [rest [-> [Hrest Hfirst]]]].
      exists (String c pre), rest.
      split; [reflexivity |]. split; [exact Hrest |].
      intros p1 p2 Hp Hne. destruct p1 as [| x p1].
      * cbn in Hp. subst p2. exact Hhere.
      * cbn in Hp. injection Hp as _ Hp. exact (Hfirst p1 p2 Hp Hne).
Qed.

(** X21. Whatever [getGitRepo] returns has the form [owner/name], both
    parts not empty and made of letters, digits, [_] and [-] only, read
    off the first place of the trimmed remote URL where [github.com], a
    [/] or [:], the owner, a [/] and the name stand in a row: at no place
    before it does the pattern stand. The name ends where the first other
    character comes, so the [.git] that the code then tries to take off is
    never there. *)
Theorem X21_git_repo_is_owner_slash_name w r :
  getGitRepo w = Some r ->
  truthy_str (Some r) = true
  /\ exists out pre sep owner name tail,
      git_remote_get_url w = Some out
      /\ JsString.trim out
         = (pre ++ "github.com" ++ String sep (owner ++ String "/" (name ++ tail)))%string
      /\ (sep = "/"%char \/ sep = ":"%char)
      /\ r = (owner ++ "/" ++ name)%string
      /\ all_word owner = true /\ owner <> EmptyString
      /\ all_word name = true /\ name <> EmptyString
      /\ starts_with_word tail = false
      /\ forall p1 p2,
          pre = (p1 ++ p2)%string -> p2 <> EmptyString ->
          ~ pattern_at
              (p2 ++ "github.com" ++ String sep (owner ++ String "/" (name ++ tail))).
Proof.
  unfold getGitRepo. intros H.
  destruct (git_remote_get_url w) as [out |]; [| discriminate H].
  destruct (match_github (JsString.trim out)) as [[owner name] |] eqn:Hm;
    [| discriminate H].
  injection H as <-.
  destruct (match_github_spec _ _ _ Hm) as [pre [rest [Hurl [Hhere Hfirst]]]].
  destruct (match_github_here_spec _ _ _ Hhere)
    as [sep [tail [-> [Hsep [Ho [Hone [Hn [Hnne Ht]]]]]]]].
  rewrite (strip_dot_git_word name Hn).
  split.
  { destruct owner; [contradiction Hone; reflexivity | reflexivity]. }
  exists out, pre, sep, owner, name, tail.
  do 9 (split; [first [assumption | reflexivity] |]).
  intros p1 p2 Hp Hne Hpat.
  exact (pattern_at_here _ Hpat (Hfirst p1 p2 Hp Hne)).
Qed.

(** X22. For a remote URL that, once trimmed, is
    [https://github.com/<owner>/<name><tail>] or
    [git@github.com:<owner>/<name><tail>], owner and name not empty and
    made of letters, digits, [_] and [-], the tail empty or starting with
    any other character: [getGitRepo] returns [<owner>/<name>]. A [.git]
    ending, a further path, and also the part of a name from its first dot
    on, are left out. *)
Theorem X22_git_repo_of_usual_urls w out owner name tail :
  git_remote_get_url w = Some out ->
  JsString.trim out
  = ("https://github.com/" ++ owner ++ String "/" (name ++ tail))%string
  \/ JsString.trim out
     = ("git@github.com:" ++ owner ++ String "/" (name ++ tail))%string ->
  all_word owner = true -> owner <> EmptyString ->
  all_word name = true -> name <> EmptyString ->
  starts_with_word tail = false ->
  getGitRepo w = Some (owner ++ "/" ++ name)%string.
Proof.
  intros Hout Hurl Ho Hone Hn Hnne Ht.
  unfold getGitRepo. rewrite Hout.
  assert (Hm : match_github (JsString.trim out) = Some (owner, name)).
  { destruct Hurl as [-> | ->].
    - cbn [append].
      do 8 (rewrite match_github_skip by reflexivity).
      pose proof (match_github_here_at "/" owner name tail
                    (or_introl eq_refl) Ho Hone Hn Hnne Ht) as Hhere.
      cbn [append] in Hhere. cbn [match_github]. rewrite Hhere. reflexivity.
    - cbn [append].
      do 4 (rewrite match_github_skip by reflexivity).
      pose proof (match_github_here_at ":" owner name tail
                    (or_intror eq_refl) Ho Hone Hn Hnne Ht) as Hhere.
      cbn [append] in Hhere. cbn [match_github]. rewrite Hhere. reflexivity. }
  rewrite Hm, (strip_dot_git_word name Hn). reflexivity.
Qed.

(** *** The listing of tracked files *)

Lemma split_line name rest :
  one_line name = true ->
  JsString.split "010" (name ++ String "010" rest)
  = name :: JsString.split "010" rest.
Proof.
  unfold one_line. induction name as [| c name IH]; intros H.
  - reflexivity.
  - cbn [JsString.count_char] in H.
    destruct (Ascii.eqb c "010") eqn:Hc; [cbn in H; discriminate H |].
    cbn [append JsString.split]. rewrite Hc, (IH H). reflexivity.
Qed.

Lemma split_listing names :
  forallb one_line names = true ->
  JsString.split "010" (listing names) = names ++ [EmptyString].
Proof.
  induction names as [| name rest IH]; intros H.
  - reflexivity.
  - cbn [forallb] in H. apply andb_prop in H. destruct H as [Hn Hrest].
    cbn [listing]. rewrite (split_line name _ Hn), (IH Hrest). reflexivity.
Qed.

(** X23. When [git ls-files] prints a list of paths, one to a line, the
    tracked-file enumeration is that list, in its order, without the paths
    that are blank or start with [.git]; the line feed that ends the
    listing adds no empty entry. So a listing with no such paths comes
    back whole, and when git fails the enumeration is empty. *)
Theorem X23_tracked_files_of_listing w names :
  forallb one_line names = true ->
  git_ls_files w = Some (listing names) ->
  getTrackedFiles w = filter kept_by_default names
  /\ (forallb kept_by_default names = true -> getTrackedFiles w = names).
Proof.
  intros Hlines Hout.
  assert (H : getTrackedFiles w = filter kept_by_default names).
  { unfold getTrackedFiles. rewrite Hout, (split_listing names Hlines).
    rewrite filter_app. cbn [filter]. cbn. rewrite app_nil_r. reflexivity. }
  split; [exact H |]. intros Hall. rewrite H.
  apply forallb_filter_id. exact Hall.
Qed.

(* ================================================================== *)
(** ** Further properties: the console and the proxy agent *)
(* ================================================================== *)

Lemma only_prints_ret {A} (a : A) : only_prints (ret a).
Proof. intros st. exists []. cbn. rewrite app_nil_r. reflexivity. Qed.

Lemma only_prints_throw {A} e : only_prints (@throw A e).
Proof. intros st. exists []. cbn. rewrite app_nil_r. reflexivity. Qed.

Lemma only_prints_exit {A} c : only_prints (@process_exit A c).
Proof. intros st. exists []. cbn. rewrite app_nil_r. reflexivity. Qed.

Lemma only_prints_log l : only_prints (console_log l).
Proof. intros st. exists [l]. reflexivity. Qed.

Lemma only_prints_bind {A B} (m : M A) (k : A -> M B) :
  only_prints m -> (forall a, only_prints (k a)) -> only_prints (bind m k).
Proof.
  intros Hm Hk st. unfold bind.
  destruct (Hm st) as [ls Hls].
  destruct (m st) as [[a | e | c] st1]; cbn [snd] in *.
  - destruct (Hk a st1) as [ls' Hls']. exists (ls ++ ls').
    rewrite Hls', Hls, app_assoc. reflexivity.
  - exists ls. exact Hls.
  - exists ls. exact Hls.
Qed.

Lemma only_prints_try_catch {A} (body : M A) (handler : string -> M A) :
  only_prints body -> (forall e, only_prints (handler e)) ->
  only_prints (try_catch body handler).
Proof.
  intros Hb Hh st. unfold try_catch.
  destruct (Hb st) as [ls Hls].
  destruct (body st) as [[a | e | c] st1]; cbn [snd] in *.
  - exists ls. exact Hls.
  - destruct (Hh e st1) as [ls' Hls']. exists (ls ++ ls').
    rewrite Hls', Hls, app_assoc. reflexivity.
  - exists ls. exact Hls.
Qed.

Lemma only_prints_when c (m : M unit) : only_prints m -> only_prints (when c m).
Proof. intros H. destruct c; [exact H | apply only_prints_ret]. Qed.

Lemma only_prints_same_console {A} (m : M A) :
  (forall st, console (snd (m st)) = console st) -> only_prints m.
Proof. intros H st. exists []. rewrite H, app_nil_r. reflexivity. Qed.

Lemma only_prints_api w agent tok endpoint fetchOptions :
  only_prints (api w agent tok endpoint fetchOptions).
Proof.
  apply only_prints_same_console. intros st. rewrite api_run. reflexivity.
Qed.

Lemma only_prints_get_prop v k : only_prints (get_prop v k).
Proof.
  apply only_prints_same_console. intros st. rewrite get_prop_run.
  destruct (prop v k); reflexivity.
Qed.

Lemma only_prints_for_of {A} (xs : list A) (body : A -> M unit) :
  (forall x, only_prints (body x)) -> only_prints (for_of xs body).
Proof.
  intros H. induction xs as [| x xs IH]; cbn [for_of].
  - apply only_prints_ret.
  - apply only_prints_bind; [apply H | intros _; exact IH].
Qed.

Ltac only_prints_step :=
  first
    [ apply only_prints_bind; [| intros ?]
    | apply only_prints_ret
    | apply only_prints_throw
    | apply only_prints_exit
    | apply only_prints_log
    | apply only_prints_api
    | apply only_prints_get_prop
    | apply only_prints_when
    | apply only_prints_try_catch; [| intros ?]
    | (apply only_prints_same_console; intros ?; reflexivity)
    | match goal with
      | |- only_prints (if ?c then _ else _) => destruct c
      | |- only_prints (match ?x with _ => _ end) => destruct x
      | |- only_prints (let '(_, _) := ?x in _) => destruct x
      end ].

Lemma only_prints_upload_file w agent tok rep br msg file :
  only_prints (upload_file w agent tok rep br msg file).
Proof.
  unfold upload_file, upload_attempt, statSync_isDirectory, readFileSync.
  repeat only_prints_step.
Qed.

Lemma only_prints_create_branch w agent tok rep br o :
  only_prints (create_branch w agent tok rep br o).
Proof. unfold create_branch. repeat only_prints_step. Qed.

Lemma only_prints_ensure_branch w agent tok rep br o :
  only_prints (ensure_branch w agent tok rep br o).
Proof.
  unfold ensure_branch.
  apply only_prints_bind; [apply only_prints_api | intros refResult].
  apply only_prints_bind; [apply only_prints_get_prop | intros m].
  apply only_prints_when. apply only_prints_create_branch.
Qed.

Lemma only_prints_upload_all w agent tok rep br o fs :
  only_prints (upload_all w agent tok rep br o fs).
Proof.
  unfold upload_all.
  apply only_prints_bind; [apply only_prints_same_console; intros ?; reflexivity |].
  intros _. apply only_prints_bind.
  { apply only_prints_for_of. intros file. apply only_prints_upload_file. }
  intros _. repeat only_prints_step.
Qed.

Lemma only_prints_phases w agent tok rep br o fs :
  only_prints (ensure_branch w agent tok rep br o ;;
               upload_all w agent tok rep br o fs).
Proof.
  apply only_prints_bind; [apply only_prints_ensure_branch |].
  intros _. apply only_prints_upload_all.
Qed.

(** A run that gets as far as the remote, with what [createFetcher] has
    left on the console. *)
Lemma main_after_fetcher w :
  reaches_remote w = true ->
  main w init =
  (ensure_branch w (proxy_agent w (parseArgs w)) (token (parseArgs w))
                 (tmpl (resolve_repo w (parseArgs w)))
                 (resolve_branch w (parseArgs w)) (parseArgs w) ;;
   upload_all w (proxy_agent w (parseArgs w)) (token (parseArgs w))
              (tmpl (resolve_repo w (parseArgs w)))
              (resolve_branch w (parseArgs w)) (parseArgs w)
              (resolve_files w (parseArgs w)))
    (if truthy_str (proxy (parseArgs w))
     then match https_proxy_agent w (tmpl (proxy (parseArgs w))) with
          | Some _ =>
              add_line (Banner (tmpl (resolve_repo w (parseArgs w)))
                               (resolve_branch w (parseArgs w))
                               (length (resolve_files w (parseArgs w))) false) init
          | None =>
              add_line WarnNoProxyAgent
                (add_line (Banner (tmpl (resolve_repo w (parseArgs w)))
                                  (resolve_branch w (parseArgs w))
                                  (length (resolve_files w (parseArgs w))) false) init)
          end
     else add_line (Banner (tmpl (resolve_repo w (parseArgs w)))
                           (resolve_branch w (parseArgs w))
                           (length (resolve_files w (parseArgs w))) false) init).
Proof.
  intros H. unfold reaches_remote in H.
  apply andb_prop in H. destruct H as [H Hfetch].
  apply andb_prop in H. destruct H as [H Hdry].
  apply andb_prop in H. destruct H as [H Hfiles].
  apply andb_prop in H. destruct H as [H Hrepo].
  apply andb_prop in H. destruct H as [Hhelp Htoken].
  apply negb_true_iff in Hhelp, Hdry, Hfiles.
  unfold main, createFetcher, proxy_agent.
  cbv beta iota zeta delta [bind when ret console_log process_exit].
  rewrite Hhelp, Htoken, Hrepo, Hfiles, Hdry, Hfetch.
  cbv beta iota zeta delta [negb].
  destruct (truthy_str (proxy (parseArgs w))); [| reflexivity].
  destruct (https_proxy_agent w (tmpl (proxy (parseArgs w)))); reflexivity.
Qed.

(** X24. When the proxy agent cannot be built (the module does not load,
    or its constructor throws on the address), the run is not stopped: it
    prints the warning right after the banner, before anything is sent,
    and every request it then sends goes out without an agent. *)
Theorem X24_proxy_agent_failure_is_not_fatal w :
  reaches_remote w = true ->
  truthy_str (proxy (parseArgs w)) = true ->
  https_proxy_agent w (tmpl (proxy (parseArgs w))) = None ->
  (exists banner rest,
      console (snd (run w)) = banner :: WarnNoProxyAgent :: rest)
  /\ (exists rest, trace (snd (run w)) = ref_query w :: rest)
  /\ Forall (fun r => req_agent r = None) (trace (snd (run w))).
Proof.
  intros Hreach Hproxy Hagent.
  assert (Hnone : proxy_agent w (parseArgs w) = None).
  { unfold proxy_agent. rewrite Hproxy. exact Hagent. }
  split; [| split].
  - pose proof (main_after_fetcher w Hreach) as Hmain.
    rewrite Hproxy, Hagent in Hmain.
    destruct (only_prints_phases w (proxy_agent w (parseArgs w)) (token (parseArgs w))
                (tmpl (resolve_repo w (parseArgs w))) (resolve_branch w (parseArgs w))
                (parseArgs w) (resolve_files w (parseArgs w))
                (add_line WarnNoProxyAgent
                   (add_line (Banner (tmpl (resolve_repo w (parseArgs w)))
                                     (resolve_branch w (parseArgs w))
                                     (length (resolve_files w (parseArgs w))) false)
                             init)))
      as [ls Hls].
    rewrite <- Hmain in Hls. unfold run.
    destruct (main w init) as [[[] | e | c] st]; cbn [snd] in *.
    + eexists; exists ls. rewrite Hls. reflexivity.
    + eexists; exists (ls ++ [ErrTopLevel e]). cbn [console add_line].
      rewrite Hls. reflexivity.
    + eexists; exists ls. rewrite Hls. reflexivity.
  - destruct (run_shape w Hreach) as [r [st [bp [fp [Hmain [Htr _]]]]]].
    exists (bp ++ fp). rewrite (run_of_main w r st Hmain). destruct r; exact Htr.
  - rewrite <- Hnone. apply run_requests_Forall; reflexivity.
Qed.

(** *** Defaults *)

(** A property of the options that each turn of the switch keeps, on words
    of a kind, is kept by the loop over words of that kind. *)
Lemma parse_loop_invariant (P : options -> Prop) (ok : string -> bool) :
  (forall arg next o, ok arg = true -> P o -> P (fst (parse_arg arg next o))) ->
  forall n args o,
    length args <= n -> forallb ok args = true -> P o -> P (parse_loop args o).
Proof.
  intros Hstep. induction n as [| n IH]; intros args o Hlen Hok HP.
  - destruct args; [exact HP | cbn in Hlen; lia].
  - destruct args as [| arg rest]; [exact HP |].
    cbn [forallb] in Hok. apply andb_prop in Hok. destruct Hok as [Harg Hrest].
    cbn [parse_loop length] in *.
    pose proof (Hstep arg (hd_error rest) o Harg HP) as Hkeep.
    destruct (parse_arg arg (hd_error rest) o) as [o' used_next].
    cbn [fst] in Hkeep. destruct used_next.
    + destruct rest as [| next rest']; [exact Hkeep |].
      cbn [forallb] in Hrest. apply andb_prop in Hrest. destruct Hrest as [_ Hrest'].
      apply IH; [cbn [length] in Hlen; lia | exact Hrest' | exact Hkeep].
    + apply IH; [lia | exact Hrest | exact Hkeep].
Qed.

Lemma create_stays_step arg next o :
  negb (is_no_create arg) = true ->
  create o = true -> create (fst (parse_arg arg next o)) = true.
Proof.
  unfold is_no_create. intros Hno H. apply negb_true_iff in Hno.
  unfold parse_arg. rewrite Hno. split_switch; exact H.
Qed.

Lemma dryRun_off_step arg next o :
  negb (is_dry_run arg) = true ->
  dryRun o = false -> dryRun (fst (parse_arg arg next o)) = false.
Proof.
  unfold is_dry_run. intros Hno H. apply negb_true_iff in Hno.
  unfold parse_arg. rewrite Hno. split_switch; exact H.
Qed.

Lemma help_off_step arg next o :
  negb (is_help_flag arg) = true ->
  help o = false -> help (fst (parse_arg arg next o)) = false.
Proof.
  unfold is_help_flag. intros Hno H. apply negb_true_iff in Hno.
  unfold parse_arg. rewrite Hno. split_switch; exact H.
Qed.

(** X25. What the options are when the command line does not say: the
    token is [GITHUB_TOKEN], the message prefix is [Update], the repository
    is read off the git remote, branch creation is on, and the run is
    neither a dry run nor a call for help. *)
Theorem X25_defaults_without_options w :
  (none_of is_token_flag (argv w) = true ->
   token (parseArgs w) = env_GITHUB_TOKEN w)
  /\ (none_of is_message_flag (argv w) = true ->
      message (parseArgs w) = Some "Update")
  /\ (none_of is_repo_flag (argv w) = true ->
      resolve_repo w (parseArgs w) = getGitRepo w)
  /\ (none_of is_no_create (argv w) = true -> create (parseArgs w) = true)
  /\ (none_of is_dry_run (argv w) = true -> dryRun (parseArgs w) = false)
  /\ (none_of is_help_flag (argv w) = true -> help (parseArgs w) = false).
Proof.
  unfold parseArgs. repeat apply conj; intros Hnone.
  - apply (parse_loop_keeps token is_token_flag token_kept (length (argv w)));
      [lia | exact Hnone].
  - apply (parse_loop_keeps message is_message_flag message_kept (length (argv w)));
      [lia | exact Hnone].
  - unfold resolve_repo.
    rewrite (parse_loop_keeps repo is_repo_flag repo_kept (length (argv w)));
      [reflexivity | lia | exact Hnone].
  - apply (parse_loop_invariant (fun o => create o = true)
             (fun a => negb (is_no_create a)) create_stays_step (length (argv w)));
      [lia | exact Hnone | reflexivity].
  - apply (parse_loop_invariant (fun o => dryRun o = false)
             (fun a => negb (is_dry_run a)) dryRun_off_step (length (argv w)));
      [lia | exact Hnone | reflexivity].
  - apply (parse_loop_invariant (fun o => help o = false)
             (fun a => negb (is_help_flag a)) help_off_step (length (argv w)));
      [lia | exact Hnone | reflexivity].
Qed.

(* ================================================================== *)
(** ** The further properties at work on concrete runs *)
(* ================================================================== *)

Module MoreWitness.
Import Scenario MoreScenario.

(** [--token abc] beats the token of the environment. *)
Lemma X1_witness_token_flag :
  argv overriding = ["-b"; "x"] ++ "--token" :: "abc" :: ["--dry-run"]
  /\ reads_whole ["-b"; "x"] = true
  /\ env_GITHUB_TOKEN overriding = Some "ghp_example"
  /\ token (parseArgs overriding) = Some "abc".
Proof.
  destruct (X1_last_value_option_wins overriding ["-b"; "x"] "--token" "abc"
              ["--dry-run"] eq_refl eq_refl) as [Htoken _].
  do 3 (split; [reflexivity |]).
  exact (Htoken eq_refl eq_refl).
Defined.

Lemma X2_witness_dangling_token :
  argv dangling = ["--files"; "a.txt"] ++ ["--token"]
  /\ env_GITHUB_TOKEN dangling = Some "ghp_example"
  /\ token (parseArgs dangling) = None
  /\ run dangling = (1%Z, add_line ErrTokenRequired init).
Proof.
  destruct (X2_dangling_token_option_unsets_token dangling ["--files"; "a.txt"]
              "--token" eq_refl eq_refl eq_refl) as [Htoken Hrun].
  do 2 (split; [reflexivity |]).
  split; [exact Htoken | exact (Hrun eq_refl)].
Defined.

Lemma X3_witness_branch_flag :
  argv branch_and_words = ["stray"] ++ "-b" :: "main" :: ["other"]
  /\ reads_whole ["stray"] = true
  /\ branch (parseArgs branch_and_words) = Some "main"
  /\ resolve_branch branch_and_words (parseArgs branch_and_words) = "main".
Proof.
  destruct (X3_branch_option_beats_bare_words branch_and_words ["stray"] "-b" "main"
              ["other"] eq_refl eq_refl eq_refl ltac:(discriminate) eq_refl)
    as [Hb Hr].
  do 2 (split; [reflexivity |]).
  split; [exact Hb | exact Hr].
Defined.

Lemma X4_witness_bare_word :
  argv bare_word = ["--dry-run"] ++ "feature/x" :: ["second"]
  /\ branch (parse_loop ["--dry-run"] (default_options bare_word)) = None
  /\ branch (parseArgs bare_word) = Some "feature/x"
  /\ resolve_branch bare_word (parseArgs bare_word) = "feature/x".
Proof.
  destruct (X4_first_bare_word_is_branch bare_word ["--dry-run"] "feature/x"
              ["second"] eq_refl eq_refl eq_refl ltac:(discriminate)
              eq_refl eq_refl) as [Hb Hr].
  do 2 (split; [reflexivity |]).
  split; [exact Hb | exact Hr].
Defined.

Lemma X5_witness_unknown_option :
  JsString.startsWith "--verbose" "-" = true
  /\ known_option "--verbose" = false
  /\ parse_loop (["-b"; "x"] ++ "--verbose" :: ["--dry-run"]) (default_options tracked)
     = parse_loop (["-b"; "x"] ++ ["--dry-run"]) (default_options tracked).
Proof.
  do 2 (split; [reflexivity |]).
  exact (X5_unknown_option_ignored ["-b"; "x"] "--verbose" ["--dry-run"]
           (default_options tracked) eq_refl eq_refl eq_refl).
Defined.

Lemma X6_witness_http_proxy :
  none_of is_proxy_flag (argv behind_proxy) = true
  /\ env_HTTPS_PROXY behind_proxy = None
  /\ proxy (parseArgs behind_proxy) = Some "http://proxy.corp:8080".
Proof.
  destruct (X6_proxy_default_chain behind_proxy eq_refl) as [_ [_ [Hhttp _]]].
  do 2 (split; [reflexivity |]).
  exact (Hhttp eq_refl eq_refl).
Defined.

Lemma X7_witness_fallbacks :
  resolve_files tracked (parseArgs tracked) = getTrackedFiles tracked
  /\ resolve_files empty_override (parseArgs empty_override)
     = getTrackedFiles empty_override
  /\ resolve_files dangling_files (parseArgs dangling_files)
     = getTrackedFiles dangling_files.
Proof.
  split; [| split].
  - destruct (X7_files_fall_back_to_tracked tracked) as [H _]. exact (H eq_refl).
  - destruct (X7_files_fall_back_to_tracked empty_override) as [_ [H _]].
    exact (H [] "--files" ["--dry-run"] eq_refl eq_refl eq_refl eq_refl).
  - destruct (X7_files_fall_back_to_tracked dangling_files) as [_ [_ H]].
    exact (H ["-b"; "x"] "--files" eq_refl eq_refl eq_refl).
Defined.

Lemma X8_witness_help :
  argv help_in_the_middle = ["--files"; "a.txt"] ++ "-h" :: ["--dry-run"]
  /\ run help_in_the_middle = (0%Z, add_line Help init).
Proof.
  split; [reflexivity |].
  exact (X8_help_anywhere_only_helps help_in_the_middle ["--files"; "a.txt"] "-h"
           ["--dry-run"] eq_refl eq_refl eq_refl).
Defined.

Lemma X9_witness_dry_run :
  argv dry_run_in_the_middle = ["-b"; "x"] ++ "--dry-run" :: ["--files"; "a.txt"]
  /\ trace (snd (run dry_run_in_the_middle)) = []
  /\ fst (run dry_run_in_the_middle) = 0%Z.
Proof.
  destruct (X9_dry_run_never_contacts_remote dry_run_in_the_middle ["-b"; "x"]
              ["--files"; "a.txt"] eq_refl eq_refl) as [_ [Htr _]].
  split; [reflexivity |]. split; [exact Htr | reflexivity].
Defined.

Lemma X10_witness_no_node_fetch :
  reaches_remote no_node_fetch = false
  /\ import_node_fetch no_node_fetch = false
  /\ fst (run no_node_fetch) = 1%Z
  /\ trace (snd (run no_node_fetch)) = [].
Proof.
  destruct (X10_missing_node_fetch_is_fatal no_node_fetch eq_refl eq_refl eq_refl
              ltac:(discriminate) eq_refl eq_refl) as [Hexit [Htr _]].
  do 2 (split; [reflexivity |]).
  split; [exact Hexit | exact Htr].
Defined.

Lemma X11_witness_branch_present :
  reaches_remote end_to_end = true
  /\ (exists refResult,
         remote end_to_end [] (ref_query end_to_end) = NetJson refResult
         /\ prop refResult "message" = Some None)
  /\ fst (run end_to_end) = 0%Z
  /\ create_ref_calls (snd (run end_to_end)) = 0.
Proof.
  destruct (X11_branch_present_goes_straight_to_upload end_to_end
              (JObj [("ref", JStr "refs/heads/feature");
                     ("object", JObj [("sha", JStr "f00d")])]) None
              eq_refl eq_refl eq_refl eq_refl) as [Hexit [_ [Hnone _]]].
  split; [reflexivity |].
  split; [eexists; split; reflexivity |].
  split; [exact Hexit | exact Hnone].
Defined.

Lemma X12_witness_cut_off :
  reaches_remote cut_off = true
  /\ remote cut_off [] (ref_query cut_off) = NetThrow "connect ETIMEDOUT"
  /\ fst (run cut_off) = 1%Z
  /\ trace (snd (run cut_off)) = [ref_query cut_off].
Proof.
  destruct (X12_failed_ref_query_is_fatal cut_off eq_refl
              (or_introl (ex_intro _ "connect ETIMEDOUT" eq_refl)))
    as [Hexit [Htr _]].
  do 2 (split; [reflexivity |]).
  split; [exact Hexit | exact Htr].
Defined.

Lemma X13_witness_accepted_and_refused :
  (create_accepted (remote create_from_main
                           [ref_query create_from_main; main_query create_from_main]
                           (create_ref_request create_from_main (Some (JStr "c0ffee"))))
   = true
   /\ fst (run create_from_main) = 0%Z)
  /\ (create_accepted (remote ref_refused
                              [ref_query ref_refused; main_query ref_refused]
                              (create_ref_request ref_refused (Some (JStr "c0ffee"))))
      = false
      /\ fst (run ref_refused) = 1%Z
      /\ trace (snd (run ref_refused))
         = [ref_query ref_refused; main_query ref_refused;
            create_ref_request ref_refused (Some (JStr "c0ffee"))]).
Proof.
  split.
  - destruct (X13_create_ref_answer_decides create_from_main (JStr "c0ffee")
                eq_refl eq_refl eq_refl eq_refl) as [Hacc _].
    destruct (Hacc eq_refl) as [Hexit _].
    split; [reflexivity | exact Hexit].
  - destruct (X13_create_ref_answer_decides ref_refused (JStr "c0ffee")
                eq_refl eq_refl eq_refl eq_refl) as [_ Hrej].
    destruct (Hrej eq_refl) as [Hexit Htr].
    split; [reflexivity |]. split; [exact Hexit | exact Htr].
Defined.

Lemma X16_witness_exit_zero :
  fst (run end_to_end) = 0%Z
  /\ (trace (snd (run end_to_end)) = [] \/ summary_printed (snd (run end_to_end))).
Proof.
  destruct (X16_exit_status_zero_or_one end_to_end) as [_ H].
  split; [reflexivity | exact (H eq_refl)].
Defined.

Lemma X17_witness_contact :
  trace (snd (run end_to_end)) <> []
  /\ reaches_remote end_to_end = true
  /\ exists rest, trace (snd (run end_to_end)) = ref_query end_to_end :: rest.
Proof.
  assert (Hsent : trace (snd (run end_to_end)) <> []) by (vm_compute; discriminate).
  destruct (X17_contact_only_after_validation end_to_end Hsent) as [Hreach Hfirst].
  split; [exact Hsent |]. split; [exact Hreach | exact Hfirst].
Defined.

(** [a.txt] refused, [src] a directory, [locked.txt] unreadable. *)
Lemma X19_witness_counts :
  main update_rejected init = (Ret tt, snd (main update_rejected init))
  /\ count_files is_absent_or_directory update_rejected
                 (resolve_files update_rejected (parseArgs update_rejected)) = 1
  /\ count_files is_unreadable update_rejected
                 (resolve_files update_rejected (parseArgs update_rejected)) = 1
  /\ skipped (snd (main update_rejected init)) = 1
  /\ 1 <= failed (snd (main update_rejected init))
  /\ put_file_calls (snd (main update_rejected init)) <= 1.
Proof.
  assert (Hmain : main update_rejected init
                  = (Ret tt, snd (main update_rejected init)))
    by (vm_compute; reflexivity).
  destruct (X19_counters_against_disk update_rejected _ Hmain)
    as [Hk [Hf [_ Hput]]].
  split; [exact Hmain |]. do 2 (split; [reflexivity |]).
  split; [exact Hk |]. split; [exact Hf | exact Hput].
Defined.

Lemma X21_witness_repo_shape :
  getGitRepo tracked = Some "octo/demo"
  /\ truthy_str (Some "octo/demo") = true
  /\ exists out pre sep owner name tail,
      git_remote_get_url tracked = Some out
      /\ JsString.trim out
         = (pre ++ "github.com" ++ String sep (owner ++ String "/" (name ++ tail)))%string
      /\ "octo/demo" = (owner ++ "/" ++ name)%string
      /\ starts_with_word tail = false
      /\ forall p1 p2,
          pre = (p1 ++ p2)%string -> p2 <> EmptyString ->
          ~ pattern_at
              (p2 ++ "github.com" ++ String sep (owner ++ String "/" (name ++ tail))).
Proof.
  destruct (X21_git_repo_is_owner_slash_name tracked "octo/demo" eq_refl)
    as [Htruthy [out [pre [sep [owner [name [tail H]]]]]]].
  destruct H as [Hout [Htrim [_ [Hr [_ [_ [_ [_ [Htail Hfirst]]]]]]]]].
  split; [reflexivity |]. split; [exact Htruthy |].
  exists out, pre, sep, owner, name, tail.
  do 4 (split; [assumption |]). exact Hfirst.
Defined.

Lemma X22_witness_https_url :
  git_remote_get_url tracked = Some ("https://github.com/octo/demo.git" ++ nl)%string
  /\ JsString.trim ("https://github.com/octo/demo.git" ++ nl)
     = ("https://github.com/" ++ "octo" ++ String "/" ("demo" ++ ".git"))%string
  /\ getGitRepo tracked = Some "octo/demo".
Proof.
  do 2 (split; [reflexivity |]).
  exact (X22_git_repo_of_usual_urls tracked _ "octo" "demo" ".git" eq_refl
           (or_introl eq_refl) eq_refl ltac:(discriminate) eq_refl
           ltac:(discriminate) eq_refl).
Defined.

Lemma X23_witness_listing :
  forallb one_line [".gitignore"; "README.md"; "a.txt"] = true
  /\ git_ls_files tracked = Some (listing [".gitignore"; "README.md"; "a.txt"])
  /\ getTrackedFiles tracked = ["README.md"; "a.txt"].
Proof.
  destruct (X23_tracked_files_of_listing tracked [".gitignore"; "README.md"; "a.txt"]
              eq_refl eq_refl) as [H _].
  do 2 (split; [reflexivity |]). exact H.
Defined.

Lemma X24_witness_no_proxy_agent :
  reaches_remote no_proxy_agent = true
  /\ https_proxy_agent no_proxy_agent (tmpl (proxy (parseArgs no_proxy_agent))) = None
  /\ (exists banner rest,
         console (snd (run no_proxy_agent)) = banner :: WarnNoProxyAgent :: rest)
  /\ Forall (fun r => req_agent r = None) (trace (snd (run no_proxy_agent))).
Proof.
  destruct (X24_proxy_agent_failure_is_not_fatal no_proxy_agent
              eq_refl eq_refl eq_refl) as [Hwarn [_ Hnone]].
  do 2 (split; [reflexivity |]).
  split; [exact Hwarn | exact Hnone].
Defined.

Lemma X25_witness_defaults :
  argv tracked = []
  /\ token (parseArgs tracked) = Some "ghp_example"
  /\ message (parseArgs tracked) = Some "Update"
  /\ resolve_repo tracked (parseArgs tracked) = getGitRepo tracked
  /\ create (parseArgs tracked) = true.
Proof.
  destruct (X25_defaults_without_options tracked)
    as [Htoken [Hmsg [Hrepo [Hcreate _]]]].
  split; [reflexivity |].
  split; [exact (Htoken eq_refl) |]. split; [exact (Hmsg eq_refl) |].
  split; [exact (Hrepo eq_refl) | exact (Hcreate eq_refl)].
Defined.

End MoreWitness.
